(** * SecureLogger: anonymising, encrypting, date-partitioned audit log

    A shallow embedding of [src/logger.py] (class [SecureLogger]) and the
    properties its specification states about it.

    Conventions of the embedding.
    - Python [str] and [bytes] are both [string]: a text is represented by
      its UTF-8 encoding, so that [str.encode()] and [bytes.decode()] are the
      identity on the representation.
    - Python objects that reach the logger (user attributes, additional
      data, log entries) are values of type [value]; a [dict] is a [gmap]
      with string keys.  Floating-point numbers are not represented.
    - Exceptions are the constructors of [exn]; a computation that may raise
      returns a [result], and one that also writes files threads the file
      system [FS] explicitly and returns it together with its outcome, so
      that what was written before an exception stays visible.
    - Clock readings and the randomness consumed by encryption are inputs.
    - A file opened in text mode is taken to hold valid UTF-8; the
      [UnicodeDecodeError] that reading any other file raises is not
      represented.
    - The libraries the logger calls are interfaces: [Fernet]
      (cryptography.fernet), [Json] (json) and [Repr] (the display of
      containers by [str()]); their documented contracts are the classes
      [FernetLaws] and [JsonLaws].  SHA-256 (hashlib) and the two
      [strptime] formats (datetime) are implemented. *)

From Stdlib Require Import ZArith List String Ascii Lia Bool DecimalString DecimalZ.
From stdpp Require Import gmap strings list fin_maps pretty.

#[local] Open Scope Z_scope.
#[local] Set Warnings "-register-all".

(** ** Values, exceptions, results *)

Inductive value :=
  | VNone
  | VBool (b : bool)
  | VInt (z : Z)
  | VStr (s : string)
  | VList (l : list value)
  | VDict (d : gmap string value).

Inductive exn :=
  | AttributeError
  | ValueError
  | OverflowError
  | KeyError
  | JSONDecodeError
  | PermissionError.

Inductive result (A : Type) :=
  | Ok (a : A)
  | Raise (e : exn).
Arguments Ok {A} a.
Arguments Raise {A} e.

Definition rbind {A B} (r : result A) (k : A -> result B) : result B :=
  match r with
  | Ok a => k a
  | Raise e => Raise e
  end.

Notation "x <- r ;; k" := (rbind r (fun x => k))
  (at level 100, r at next level, right associativity).

(** Truth value of an object in a condition ([if data:], [if not data:]). *)
Definition truthy (v : value) : bool :=
  match v with
  | VNone => false
  | VBool b => b
  | VInt z => negb (z =? 0)
  | VStr s => negb (String.eqb s "")
  | VList l => negb (Nat.eqb (length l) 0)
  | VDict d => negb (Nat.eqb (size d) 0)
  end.

(** The number of constructors of a value. *)
Fixpoint value_size (v : value) : nat :=
  match v with
  | VList l => S (list_sum (value_size <$> l))
  | VDict d => S (map_fold (fun _ x acc => (value_size x + acc)%nat) 0%nat d)
  | _ => 1
  end.

(** ** Characters and strings *)

Definition LF : ascii := "010"%char.
Definition CR : ascii := "013"%char.

Definition byte_of (a : ascii) : Z := Z.of_N (N_of_ascii a).

Fixpoint bytes_of (s : string) : list Z :=
  match s with
  | EmptyString => []
  | String a s' => byte_of a :: bytes_of s'
  end.

Fixpoint string_forallb (p : ascii -> bool) (s : string) : bool :=
  match s with
  | EmptyString => true
  | String a s' => p a && string_forallb p s'
  end.

(** [s.startswith(p)] and [s.endswith(p)]. *)
Definition startswith (p s : string) : bool := String.prefix p s.

Definition endswith (p s : string) : bool :=
  String.prefix (String.rev p) (String.rev s).

(** [s[i:j]] for non-negative [i] and [j]. *)
Definition slice (i j : nat) (s : string) : string :=
  String.substring i (j - i) s.

Definition cons_piece (a : ascii) (ps : list string) : list string :=
  match ps with
  | p :: rest => String a p :: rest
  | [] => [String a EmptyString]
  end.

(** [s.split(sep)] for a non-empty separator: the pieces between the
    leftmost, non-overlapping occurrences of [sep].  [skip] counts the
    characters of a separator just recognised that are still to be
    consumed. *)
Fixpoint split_go (sep : string) (skip : nat) (s : string) : list string :=
  match s with
  | EmptyString => [EmptyString]
  | String c s' =>
      match skip with
      | S k => split_go sep k s'
      | O =>
          if String.prefix sep s
          then EmptyString :: split_go sep (String.length sep - 1) s'
          else cons_piece c (split_go sep 0 s')
      end
  end.

Definition split (sep s : string) : list string := split_go sep 0 s.

(** [bytes.strip()] removes ASCII white space at both ends. *)
Definition bytes_isspace (a : ascii) : bool :=
  let n := byte_of a in (n =? 32) || ((9 <=? n) && (n <=? 13)).

Fixpoint lstrip (ws : ascii -> bool) (s : string) : string :=
  match s with
  | EmptyString => EmptyString
  | String a s' => if ws a then lstrip ws s' else s
  end.

Definition bytes_strip (s : string) : string :=
  String.rev (lstrip bytes_isspace (String.rev (lstrip bytes_isspace s))).

(** [str.strip()] removes Unicode white space; on the UTF-8 representation
    a white-space character is one to three bytes long.  [text_isspace c]
    holds when [c] is the encoding of exactly one white-space character
    (U+0009..000D, 001C..001F, 0020, 0085, 00A0, 1680, 2000..200A, 2028,
    2029, 202F, 205F, 3000). *)
Definition text_isspace (c : string) : bool :=
  match bytes_of c with
  | [b0] => (b0 =? 32) || ((9 <=? b0) && (b0 <=? 13)) || ((28 <=? b0) && (b0 <=? 31))
  | [b0; b1] => (b0 =? 0xc2) && ((b1 =? 0x85) || (b1 =? 0xa0))
  | [b0; b1; b2] =>
      ((b0 =? 0xe1) && (b1 =? 0x9a) && (b2 =? 0x80))
      || ((b0 =? 0xe2) && (b1 =? 0x80)
          && (((0x80 <=? b2) && (b2 <=? 0x8a)) || (b2 =? 0xa8) || (b2 =? 0xa9) || (b2 =? 0xaf)))
      || ((b0 =? 0xe2) && (b1 =? 0x81) && (b2 =? 0x9f))
      || ((b0 =? 0xe3) && (b1 =? 0x80) && (b2 =? 0x80))
  | _ => false
  end.

Fixpoint drop_chars (n : nat) (s : string) : string :=
  match n, s with
  | S n', String _ s' => drop_chars n' s'
  | _, _ => s
  end.

(** Removes leading characters recognised by [isws], which is given the
    first one, two and three bytes of what remains. *)
Fixpoint text_lstrip (isws : string -> bool) (fuel : nat) (s : string) : string :=
  match fuel with
  | O => s
  | S f =>
      if isws (String.substring 0 1 s) then text_lstrip isws f (drop_chars 1 s)
      else if isws (String.substring 0 2 s) then text_lstrip isws f (drop_chars 2 s)
      else if isws (String.substring 0 3 s) then text_lstrip isws f (drop_chars 3 s)
      else s
  end.

Definition str_strip (s : string) : string :=
  let l := text_lstrip text_isspace (String.length s) s in
  String.rev (text_lstrip (fun c => text_isspace (String.rev c)) (String.length l) (String.rev l)).

(** Iterating over a file opened in text mode: the lines of the text, each
    with its line end; [\r\n] and [\r] count as [\n] (universal newlines)
    and are read back as [\n]. *)
Fixpoint text_lines (s : string) : list string :=
  match s with
  | EmptyString => []
  | String a s' =>
      if Ascii.eqb a LF then String LF EmptyString :: text_lines s'
      else if Ascii.eqb a CR then
        match s' with
        | String b s'' =>
            if Ascii.eqb b LF then String LF EmptyString :: text_lines s''
            else String LF EmptyString :: text_lines s'
        | EmptyString => [String LF EmptyString]
        end
      else cons_piece a (text_lines s')
  end.

(** ** SHA-256 (hashlib.sha256), after FIPS 180-4

    Words are integers below 2^32; additions wrap around. *)

Module SHA256.

Definition mask32 : Z := 0xffffffff.
Definition add32 (x y : Z) : Z := Z.land (x + y) mask32.
Definition rotr (n x : Z) : Z :=
  Z.lor (Z.shiftr x n) (Z.land (Z.shiftl x (32 - n)) mask32).
Definition Ch (x y z : Z) : Z :=
  Z.lxor (Z.land x y) (Z.land (Z.lxor x mask32) z).
Definition Maj (x y z : Z) : Z :=
  Z.lxor (Z.lxor (Z.land x y) (Z.land x z)) (Z.land y z).
Definition Sigma0 (x : Z) : Z := Z.lxor (Z.lxor (rotr 2 x) (rotr 13 x)) (rotr 22 x).
Definition Sigma1 (x : Z) : Z := Z.lxor (Z.lxor (rotr 6 x) (rotr 11 x)) (rotr 25 x).
Definition sigma0 (x : Z) : Z := Z.lxor (Z.lxor (rotr 7 x) (rotr 18 x)) (Z.shiftr x 3).
Definition sigma1 (x : Z) : Z := Z.lxor (Z.lxor (rotr 17 x) (rotr 19 x)) (Z.shiftr x 10).

(** The constants of the standard are fractional parts of roots of the
    first primes: [fraction k p] is the first 32 bits of the fractional
    part of the [k]-th root of [p]. *)
Definition is_prime (n : Z) : bool :=
  forallb (fun d => negb (n mod d =? 0)) (seqZ 2 (n - 2)).
Definition primes (n : nat) : list Z := take n (List.filter is_prime (seqZ 2 400)).

(** The largest [r] with [r ^ k <= n], by bisection of [lo, hi). *)
Fixpoint root_go (fuel : nat) (k n lo hi : Z) : Z :=
  match fuel with
  | O => lo
  | S fuel' =>
      let mid := (lo + hi) / 2 in
      if mid =? lo then lo
      else if mid ^ k <=? n then root_go fuel' k n mid hi
      else root_go fuel' k n lo mid
  end.
Definition root (k n : Z) : Z := root_go (Z.to_nat (Z.log2_up (n + 1))) k n 0 (n + 1).
Definition fraction (k p : Z) : Z := root k (p * 2 ^ (32 * k)) mod 2 ^ 32.

(** The round constants: cube roots of the first 64 primes. *)
Definition K : list Z := Eval vm_compute in map (fraction 3) (primes 64).

(** The eight 32-bit words of the chaining value. *)
Record state := State { sa : Z; sb : Z; sc : Z; sd : Z; se : Z; sf : Z; sg : Z; sh : Z }.

(** The initial value: square roots of the first 8 primes. *)
Definition H0 : state :=
  Eval vm_compute in
    let h (i : nat) := nth i (map (fraction 2) (primes 8)) 0 in
    State (h 0%nat) (h 1%nat) (h 2%nat) (h 3%nat) (h 4%nat) (h 5%nat) (h 6%nat) (h 7%nat).

(** Big-endian encoding of [x] on [n] bytes. *)
Fixpoint be_bytes (n : nat) (x : Z) : list Z :=
  match n with
  | O => []
  | S n' => Z.land (Z.shiftr x (8 * Z.of_nat n')) 0xff :: be_bytes n' x
  end.

Definition pad (msg : list Z) : list Z :=
  let len := Z.of_nat (length msg) in
  msg ++ [0x80] ++ repeat 0 (Z.to_nat ((55 - len) mod 64)) ++ be_bytes 8 (8 * len).

Fixpoint be_words (fuel : nat) (bs : list Z) : list Z :=
  match fuel, bs with
  | S f, b0 :: b1 :: b2 :: b3 :: rest =>
      Z.lor (Z.shiftl b0 24) (Z.lor (Z.shiftl b1 16) (Z.lor (Z.shiftl b2 8) b3))
      :: be_words f rest
  | _, _ => []
  end.

(** Message schedule: the list is kept newest word first, so that
    W[t-2], W[t-7], W[t-15], W[t-16] sit at offsets 1, 6, 14, 15. *)
Fixpoint expand (n : nat) (rev_w : list Z) : list Z :=
  match n with
  | O => rev_w
  | S n' =>
      let w := add32 (add32 (sigma1 (nth 1 rev_w 0)) (nth 6 rev_w 0))
                     (add32 (sigma0 (nth 14 rev_w 0)) (nth 15 rev_w 0)) in
      expand n' (w :: rev_w)
  end.

Definition schedule (block_words : list Z) : list Z :=
  rev (expand 48 (rev block_words)).

Definition round (s : state) (kw : Z * Z) : state :=
  let '(k, w) := kw in
  let t1 := add32 (add32 (add32 (sh s) (Sigma1 (se s))) (add32 (Ch (se s) (sf s) (sg s)) k)) w in
  let t2 := add32 (Sigma0 (sa s)) (Maj (sa s) (sb s) (sc s)) in
  State (add32 t1 t2) (sa s) (sb s) (sc s) (add32 (sd s) t1) (se s) (sf s) (sg s).

Definition compress (h : state) (block : list Z) : state :=
  let s := fold_left round (combine K (schedule (be_words 16 block))) h in
  State (add32 (sa h) (sa s)) (add32 (sb h) (sb s)) (add32 (sc h) (sc s)) (add32 (sd h) (sd s))
        (add32 (se h) (se s)) (add32 (sf h) (sf s)) (add32 (sg h) (sg s)) (add32 (sh h) (sh s)).

Fixpoint blocks (fuel : nat) (h : state) (bs : list Z) : state :=
  match fuel, bs with
  | S f, _ :: _ => blocks f (compress h (firstn 64 bs)) (skipn 64 bs)
  | _, _ => h
  end.

Definition digest_words (msg : string) : state :=
  let p := pad (bytes_of msg) in blocks (length p) H0 p.

Definition hex_digit (n : Z) : ascii :=
  ascii_of_N (Z.to_N (if n <? 10 then 48 + n else 87 + n)).

(** Eight lower-case hexadecimal digits of a 32-bit word. *)
Definition hex32 (w : Z) (k : string) : string :=
  String (hex_digit (Z.land (Z.shiftr w 28) 15))
  (String (hex_digit (Z.land (Z.shiftr w 24) 15))
  (String (hex_digit (Z.land (Z.shiftr w 20) 15))
  (String (hex_digit (Z.land (Z.shiftr w 16) 15))
  (String (hex_digit (Z.land (Z.shiftr w 12) 15))
  (String (hex_digit (Z.land (Z.shiftr w 8) 15))
  (String (hex_digit (Z.land (Z.shiftr w 4) 15))
  (String (hex_digit (Z.land w 15)) k))))))).

Definition hexdigest (msg : string) : string :=
  let s := digest_words msg in
  hex32 (sa s) (hex32 (sb s) (hex32 (sc s) (hex32 (sd s)
  (hex32 (se s) (hex32 (sf s) (hex32 (sg s) (hex32 (sh s) EmptyString))))))).

End SHA256.

(** ** The libraries the logger calls *)

(** cryptography.fernet.  [Fernet_new key] is [Fernet(key)], which raises
    [ValueError] ([None]) unless [key] is 32 url-safe base64-encoded bytes.
    [encrypt f fresh data] is [f.encrypt(data)], where [fresh] stands for
    the initialisation vector and the time stamp the call draws.
    [decrypt f token] is [f.decrypt(token)]; [None] is [InvalidToken]. *)
Class Fernet := {
  fernet : Type;
  Fernet_new : string -> option fernet;
  encrypt : fernet -> string -> string -> string;
  decrypt : fernet -> string -> option string;
}.

(** json.  [dumps ensure_ascii obj] is [json.dumps(obj,
    ensure_ascii=ensure_ascii)]; [loads s] is [json.loads(s)], [None] when
    it raises [JSONDecodeError]. *)
Class Json := {
  dumps : bool -> value -> string;
  loads : string -> option value;
}.

(** [str()] of a list or of a dict is its [repr]. *)
Class Repr := {
  repr : value -> string;
}.

(** The alphabet of url-safe base64, in which Fernet tokens are written. *)
Definition b64url_char (a : ascii) : bool :=
  let n := byte_of a in
  ((65 <=? n) && (n <=? 90)) || ((97 <=? n) && (n <=? 122))
  || ((48 <=? n) && (n <=? 57)) || (n =? 45) || (n =? 95) || (n =? 61).

Definition newline_free (s : string) : bool :=
  string_forallb (fun a => negb (Ascii.eqb a LF) && negb (Ascii.eqb a CR)) s.

(** What the logger relies on: decryption inverts encryption under the
    same key, and a token is a non-empty text over the base64 alphabet. *)
Class FernetLaws (F : Fernet) : Prop := {
  decrypt_encrypt : forall (f : fernet) (fresh data : string),
    decrypt f (encrypt f fresh data) = Some data;
  encrypt_alphabet : forall (f : fernet) (fresh data : string),
    string_forallb b64url_char (encrypt f fresh data) = true;
  encrypt_nonempty : forall (f : fernet) (fresh data : string),
    encrypt f fresh data <> EmptyString;
}.

(** What the logger relies on: parsing inverts serialisation, also when a
    line end follows; a serialised object is one line of text that starts
    with a visible ASCII character. *)
Class JsonLaws (J : Json) : Prop := {
  loads_dumps : forall (ensure_ascii : bool) (v : value),
    loads (dumps ensure_ascii v) = Some v;
  loads_dumps_line : forall (ensure_ascii : bool) (v : value),
    loads (dumps ensure_ascii v +:+ String LF EmptyString) = Some v;
  dumps_one_line : forall (ensure_ascii : bool) (v : value),
    newline_free (dumps ensure_ascii v) = true;
  dumps_visible : forall (ensure_ascii : bool) (v : value),
    exists a s, dumps ensure_ascii v = String a s
                /\ 33 <= byte_of a /\ byte_of a < 127;
}.

(** [str(obj)]. *)
Definition py_str `{Repr} (v : value) : string :=
  match v with
  | VNone => "None"
  | VBool true => "True"
  | VBool false => "False"
  | VInt z => pretty z
  | VStr s => s
  | VList _ | VDict _ => repr v
  end.

(** ** Dates and times (datetime) *)

Record datetime := Datetime {
  year : Z; month : Z; day : Z;
  hour : Z; minute : Z; second : Z; microsecond : Z
}.

Definition _is_leap (y : Z) : bool :=
  (y mod 4 =? 0) && (negb (y mod 100 =? 0) || (y mod 400 =? 0)).

Definition _DAYS_IN_MONTH (m : Z) : Z :=
  if m =? 2 then 28
  else if (m =? 4) || (m =? 6) || (m =? 9) || (m =? 11) then 30
  else 31.

Definition _DAYS_BEFORE_MONTH (m : Z) : Z :=
  nth (Z.to_nat m) [0; 0; 31; 59; 90; 120; 151; 181; 212; 243; 273; 304; 334] 0.

Definition _days_in_month (y m : Z) : Z :=
  if (m =? 2) && _is_leap y then 29 else _DAYS_IN_MONTH m.

Definition _days_before_year (y : Z) : Z :=
  let y1 := y - 1 in y1 * 365 + y1 / 4 - y1 / 100 + y1 / 400.

Definition _days_before_month (y m : Z) : Z :=
  _DAYS_BEFORE_MONTH m + (if (2 <? m) && _is_leap y then 1 else 0).

Definition _ymd2ord (y m d : Z) : Z :=
  _days_before_year y + _days_before_month y m + d.

Definition _MAXORDINAL : Z := 3652059.

(** The proleptic Gregorian ordinal back to year, month and day. *)
Definition _ord2ymd (n0 : Z) : Z * Z * Z :=
  let n := n0 - 1 in
  let n400 := n / 146097 in let n := n mod 146097 in
  let y := n400 * 400 + 1 in
  let n100 := n / 36524 in let n := n mod 36524 in
  let n4 := n / 1461 in let n := n mod 1461 in
  let n1 := n / 365 in let n := n mod 365 in
  let y := y + n100 * 100 + n4 * 4 + n1 in
  if (n1 =? 4) || (n100 =? 4) then (y - 1, 12, 31)
  else
    let leapyear := (n1 =? 3) && (negb (n4 =? 24) || (n100 =? 3)) in
    let m := Z.shiftr (n + 50) 5 in
    let preceding := _DAYS_BEFORE_MONTH m + (if (2 <? m) && leapyear then 1 else 0) in
    if n <? preceding then
      let m := m - 1 in
      let preceding :=
        preceding - (_DAYS_IN_MONTH m + (if (m =? 2) && leapyear then 1 else 0)) in
      (y, m, n - preceding + 1)
    else (y, m, n - preceding + 1).

Definition toordinal (t : datetime) : Z := _ymd2ord (year t) (month t) (day t).

(** [timedelta(days=days)]. *)
Definition timedelta_days (days : Z) : result Z :=
  if (-999999999 <=? days) && (days <=? 999999999) then Ok days
  else Raise OverflowError.

(** [t - timedelta(days=days)]: the time of day is kept, the date moves. *)
Definition datetime_sub (t : datetime) (days : Z) : result datetime :=
  let ord := toordinal t - days in
  if (0 <? ord) && (ord <=? _MAXORDINAL) then
    let '(y, m, d) := _ord2ymd ord in
    Ok (Datetime y m d (hour t) (minute t) (second t) (microsecond t))
  else Raise OverflowError.

(** [a < b] on naive datetimes: the fields compared in order. *)
Fixpoint lex_lt (a b : list Z) : bool :=
  match a, b with
  | x :: a', y :: b' => (x <? y) || ((x =? y) && lex_lt a' b')
  | _, _ => false
  end.

Definition fields (t : datetime) : list Z :=
  [year t; month t; day t; hour t; minute t; second t; microsecond t].

Definition datetime_lt (a b : datetime) : bool := lex_lt (fields a) (fields b).

Definition digit_char (n : Z) : ascii := ascii_of_N (Z.to_N (48 + n mod 10)).

Definition pad2 (n : Z) (k : string) : string :=
  String (digit_char (n / 10)) (String (digit_char n) k).

Definition pad4 (n : Z) (k : string) : string :=
  String (digit_char (n / 1000)) (String (digit_char (n / 100)) (pad2 n k)).

(** [t.strftime("%Y-%m-%d")] and [t.strftime("%Y%m%d_%H%M%S")]. *)
Definition strftime_date (t : datetime) : string :=
  pad4 (year t) (String "-" (pad2 (month t) (String "-" (pad2 (day t) EmptyString)))).

Definition strftime_stamp (t : datetime) : string :=
  pad4 (year t) (pad2 (month t) (pad2 (day t)
    (String "_" (pad2 (hour t) (pad2 (minute t) (pad2 (second t) EmptyString)))))).

(** ** Parsing dates ([datetime.strptime])

    [strptime] turns the format into a regular expression with one named
    group per directive, takes the first match in backtracking order,
    rejects the text when something is left over, converts the groups with
    [int] and builds the datetime, which checks the ranges.  Every failure
    is a [ValueError].  In the expression [\d] is any decimal digit of
    Unicode, and [int] reads them all; the classes written out, such as
    [[0-2]], hold ASCII digits only. *)

(** The payload of a continuation byte of UTF-8. *)
Definition continuation (a : ascii) : option Z :=
  let b := byte_of a in
  if (0x80 <=? b) && (b <? 0xC0) then Some (b - 0x80) else None.

(** The first code point of a text and what follows it.  [None] at the
    end of the text and on bytes that are not the UTF-8 form of a
    character: a stray or missing continuation byte, an overlong form, a
    surrogate, a code point above U+10FFFF. *)
Definition decode1 (s : string) : option (Z * string) :=
  match s with
  | EmptyString => None
  | String a0 r0 =>
      let b := byte_of a0 in
      if b <? 0x80 then Some (b, r0)
      else if b <? 0xC0 then None
      else if b <? 0xE0 then
        match r0 with
        | String a1 r1 =>
            match continuation a1 with
            | Some c1 =>
                let cp := (b - 0xC0) * 64 + c1 in
                if 0x80 <=? cp then Some (cp, r1) else None
            | None => None
            end
        | EmptyString => None
        end
      else if b <? 0xF0 then
        match r0 with
        | String a1 (String a2 r2) =>
            match continuation a1, continuation a2 with
            | Some c1, Some c2 =>
                let cp := ((b - 0xE0) * 64 + c1) * 64 + c2 in
                if (0x800 <=? cp) && negb ((0xD800 <=? cp) && (cp <=? 0xDFFF))
                then Some (cp, r2) else None
            | _, _ => None
            end
        | _ => None
        end
      else if b <? 0xF8 then
        match r0 with
        | String a1 (String a2 (String a3 r3)) =>
            match continuation a1, continuation a2, continuation a3 with
            | Some c1, Some c2, Some c3 =>
                let cp := (((b - 0xF0) * 64 + c1) * 64 + c2) * 64 + c3 in
                if (0x10000 <=? cp) && (cp <=? 0x10FFFF) then Some (cp, r3) else None
            | _, _, _ => None
            end
        | _ => None
        end
      else None
  end.

(** The decimal digits of Unicode 14.0, the characters [\d] matches and
    [int] reads in Python 3.11: 66 runs of ten consecutive code points,
    for the values 0 to 9 in order.  [digit_zeros] lists the first code
    point of each run: the ASCII digits, Arabic-Indic, Devanagari,
    fullwidth and so on. *)
Definition digit_zeros : list Z :=
  [ 0x30; 0x660; 0x6F0; 0x7C0; 0x966; 0x9E6; 0xA66; 0xAE6; 0xB66; 0xBE6; 0xC66;
    0xCE6; 0xD66; 0xDE6; 0xE50; 0xED0; 0xF20; 0x1040; 0x1090; 0x17E0; 0x1810;
    0x1946; 0x19D0; 0x1A80; 0x1A90; 0x1B50; 0x1BB0; 0x1C40; 0x1C50; 0xA620;
    0xA8D0; 0xA900; 0xA9D0; 0xA9F0; 0xAA50; 0xABF0; 0xFF10; 0x104A0; 0x10D30;
    0x11066; 0x110F0; 0x11136; 0x111D0; 0x112F0; 0x11450; 0x114D0; 0x11650;
    0x116C0; 0x11730; 0x118E0; 0x11950; 0x11C50; 0x11D50; 0x11DA0; 0x16A60;
    0x16AC0; 0x16B50; 0x1D7CE; 0x1D7D8; 0x1D7E2; 0x1D7EC; 0x1D7F6; 0x1E140;
    0x1E2F0; 0x1E950; 0x1FBF0 ].

(** The value of a code point that is a decimal digit. *)
Definition digit_value (cp : Z) : option Z :=
  match List.find (fun zero => (zero <=? cp) && (cp <? zero + 10)) digit_zeros with
  | Some zero => Some (cp - zero)
  | None => None
  end.

Inductive regex :=
  | Lit (c : ascii)
  | Range (lo hi : ascii)
  | Digit
  | Alt (r1 r2 : regex)
  | Cat (r1 r2 : regex)
  | Group (name : string) (r : regex).

(** All the ways [r] matches a prefix of [s], in the order backtracking
    tries them: the groups captured and the text that remains. *)
Fixpoint rmatch (r : regex) (s : string) : list (list (string * string) * string) :=
  match r with
  | Lit c =>
      match s with
      | String a s' => if Ascii.eqb a c then [([], s')] else []
      | EmptyString => []
      end
  | Range lo hi =>
      match s with
      | String a s' =>
          if (byte_of lo <=? byte_of a) && (byte_of a <=? byte_of hi) then [([], s')] else []
      | EmptyString => []
      end
  | Digit =>
      match decode1 s with
      | Some (cp, s') =>
          match digit_value cp with
          | Some _ => [([], s')]
          | None => []
          end
      | None => []
      end
  | Alt r1 r2 => rmatch r1 s ++ rmatch r2 s
  | Cat r1 r2 =>
      flat_map (fun m1 : list (string * string) * string =>
                  map (fun m2 : list (string * string) * string => (fst m1 ++ fst m2, snd m2))
                      (rmatch r2 (snd m1)))
               (rmatch r1 s)
  | Group name r =>
      map (fun m : list (string * string) * string =>
             ((name, String.substring 0 (String.length s - String.length (snd m)) s) :: fst m,
              snd m))
          (rmatch r s)
  end.

(** [\d]. *)
Definition re_digit : regex := Digit.

Definition re_Y : regex := Group "Y" (Cat re_digit (Cat re_digit (Cat re_digit re_digit))).

Definition re_m : regex :=
  Group "m" (Alt (Cat (Lit "1") (Range "0" "2"))
            (Alt (Cat (Lit "0") (Range "1" "9")) (Range "1" "9"))).

Definition re_d : regex :=
  Group "d" (Alt (Cat (Lit "3") (Range "0" "1"))
            (Alt (Cat (Range "1" "2") re_digit)
            (Alt (Cat (Lit "0") (Range "1" "9"))
            (Alt (Range "1" "9") (Cat (Lit " ") (Range "1" "9")))))).

Definition re_H : regex :=
  Group "H" (Alt (Cat (Lit "2") (Range "0" "3"))
            (Alt (Cat (Range "0" "1") re_digit) re_digit)).

Definition re_M : regex := Group "M" (Alt (Cat (Range "0" "5") re_digit) re_digit).

Definition re_S : regex :=
  Group "S" (Alt (Cat (Lit "6") (Range "0" "1"))
            (Alt (Cat (Range "0" "5") re_digit) re_digit)).

(** The expressions of the formats ['%Y-%m-%d'] and ['%Y%m%d_%H%M%S']. *)
Definition re_date : regex :=
  Cat re_Y (Cat (Lit "-") (Cat re_m (Cat (Lit "-") re_d))).

Definition re_stamp : regex :=
  Cat re_Y (Cat re_m (Cat re_d (Cat (Lit "_") (Cat re_H (Cat re_M re_S))))).

(** [int(s)] on a text of decimal digits, leading blanks ignored: the
    digits of any script count for their values.  [fuel] bounds the number
    of characters. *)
Fixpoint int_go (fuel : nat) (acc : Z) (s : string) : Z :=
  match fuel with
  | O => acc
  | S fuel' =>
      match decode1 s with
      | Some (cp, s') =>
          match digit_value cp with
          | Some v => int_go fuel' (10 * acc + v) s'
          | None => int_go fuel' acc s'
          end
      | None => acc
      end
  end.

Definition int_of (s : string) : Z := int_go (String.length s) 0 s.

Fixpoint group (name : string) (caps : list (string * string)) : string :=
  match caps with
  | [] => EmptyString
  | (n, v) :: rest => if String.eqb n name then v else group name rest
  end.

(** [datetime(y, m, d, H, M, S)], which raises [ValueError] out of range. *)
Definition datetime_new (y m d H M S : Z) : option datetime :=
  if (1 <=? y) && (y <=? 9999) && (1 <=? m) && (m <=? 12)
     && (1 <=? d) && (d <=? _days_in_month y m)
     && (0 <=? H) && (H <=? 23) && (0 <=? M) && (M <=? 59) && (0 <=? S) && (S <=? 59)
  then Some (Datetime y m d H M S 0)
  else None.

Definition strptime (format : regex) (has_time : bool) (data_string : string) : option datetime :=
  match rmatch format data_string with
  | (found, EmptyString) :: _ =>
      let num (name : string) : Z := int_of (group name found) in
      if has_time
      then datetime_new (num "Y") (num "m") (num "d") (num "H") (num "M") (num "S")
      else datetime_new (num "Y") (num "m") (num "d") 0 0 0
  | _ => None
  end.

(** [datetime.strptime(s, '%Y-%m-%d')] and
    [datetime.strptime(s, '%Y%m%d_%H%M%S')]. *)
Definition strptime_date (s : string) : option datetime := strptime re_date false s.
Definition strptime_stamp (s : string) : option datetime := strptime re_stamp true s.

(** ** The file system

    The three directories [logs/raw], [logs/encrypted] and [logs/keys] map
    file names to contents.  [denied] holds the paths that [open] refuses
    with [PermissionError]. *)

Record FS := mkFS {
  raw : gmap string string;
  encrypted : gmap string string;
  keys : gmap string string;
  denied : gset string;
}.

(** What a file holds after [data] is written to it in append mode. *)
Definition appended (d : gmap string string) (name data : string) : gmap string string :=
  <[name := default EmptyString (d !! name) +:+ data]> d.

(** [os.listdir]: the names in a directory. *)
Definition listdir (d : gmap string string) : list string := (map_to_list d).*1.

(** The partition files of a date: their paths, and their names in their
    directories. *)
Definition raw_name (date_str : string) : string := date_str +:+ ".ndjson".
Definition encrypted_name (date_str : string) : string := date_str +:+ ".enc".
Definition raw_file (date_str : string) : string := "logs/raw/" +:+ raw_name date_str.
Definition encrypted_file (date_str : string) : string :=
  "logs/encrypted/" +:+ encrypted_name date_str.

(** The separator written after each record of the encrypted stream. *)
Definition RECORD_SEP : string :=
  String LF "---RECORD---" +:+ String LF EmptyString.

(** ** The logger *)

Section Logger.
Context {F : Fernet} {J : Json} {R : Repr}.

Record SecureLogger := mkLogger {
  key : string;
  fernet_ : fernet;
}.

(** What [log_event] reads from its surroundings: the two clock readings
    it formats ([datetime.utcnow().isoformat()] and
    [datetime.now().timestamp()] as printed), the wall clock read by
    [_save_log], and what each of the three encryptions draws. *)
Record ambient := mkAmbient {
  utcnow_isoformat : string;
  now_timestamp : string;
  now : datetime;
  fresh_content : string;
  fresh_additional : string;
  fresh_record : string;
}.

(** [setup_dirs]: the directories always exist here; the key is written to
    a new file named after the time. *)
Definition setup_dirs (self : SecureLogger) (t : datetime) (fs : FS) : result unit * FS :=
  let key_name := "key_" +:+ strftime_stamp t +:+ ".key" in
  if bool_decide (("logs/keys/" +:+ key_name) ∈ denied fs) then (Raise PermissionError, fs)
  else (Ok tt, mkFS (raw fs) (encrypted fs) (<[key_name := key self]> (keys fs)) (denied fs)).

(** [SecureLogger(key)]; [generated] is what [Fernet.generate_key()]
    returns when it is called. *)
Definition __init__ (key_arg : option string) (generated : string) (t : datetime) (fs : FS)
  : result SecureLogger * FS :=
  let k := match key_arg with
           | Some k => if negb (String.eqb k "") then k else generated
           | None => generated
           end in
  match Fernet_new k with
  | None => (Raise ValueError, fs)
  | Some f =>
      let self := mkLogger k f in
      match setup_dirs self t fs with
      | (Ok _, fs') => (Ok self, fs')
      | (Raise e, fs') => (Raise e, fs')
      end
  end.

Definition _anonymize (self : SecureLogger) (data : value) : result string :=
  if negb (truthy data) then Ok "anonymous"%string
  else match data with
       | VStr s => Ok (slice 0 12 (SHA256.hexdigest s))
       | _ => Raise AttributeError
       end.

(** [d.get(k, default)]. *)
Definition get (d : gmap string value) (k : string) (dflt : value) : value :=
  default dflt (d !! k).

(** The copy of the entry that goes to the redacted stream. *)
Definition safe_log_entry (log_entry : gmap string value) : gmap string value :=
  delete "additional_data"%string (delete "content"%string log_entry).

Definition _save_log (self : SecureLogger) (amb : ambient)
    (log_entry : gmap string value) (fs : FS) : result unit * FS :=
  let date_str := strftime_date (now amb) in
  if bool_decide (raw_file date_str ∈ denied fs)
  then (Raise PermissionError, fs)
  else
    let fs1 :=
      mkFS (appended (raw fs) (raw_name date_str)
              (dumps false (VDict (safe_log_entry log_entry)) +:+ String LF EmptyString))
           (encrypted fs) (keys fs) (denied fs) in
    let encrypted_ :=
      encrypt (fernet_ self) (fresh_record amb) (dumps false (VDict log_entry)) in
    if bool_decide (encrypted_file date_str ∈ denied fs1)
    then (Raise PermissionError, fs1)
    else (Ok tt,
          mkFS (raw fs1)
               (appended (encrypted fs1) (encrypted_name date_str) (encrypted_ +:+ RECORD_SEP))
               (keys fs1) (denied fs1)).

(** The entry [log_event] assembles, or the exception anonymisation
    raises on an attribute that is neither empty nor text. *)
Definition build_entry (self : SecureLogger) (amb : ambient) (event_type : string)
    (user_data : gmap string value) (content : string)
    (additional_data : option (gmap string value)) : result (gmap string value) :=
  user_id_anon <- _anonymize self (VStr (py_str (get user_data "id" (VStr ""))));;
  username_anon <- _anonymize self (get user_data "username" (VStr ""));;
  first_name_anon <- _anonymize self (get user_data "first_name" (VStr ""));;
  last_name_anon <- _anonymize self (get user_data "last_name" (VStr ""));;
  event_id <- _anonymize self
    (VStr (now_timestamp amb +:+ py_str (get user_data "id" (VStr ""))));;
  Ok (<["timestamp" := VStr (utcnow_isoformat amb +:+ "Z")]>
     (<["event_id" := VStr event_id]>
     (<["event_type" := VStr event_type]>
     (<["user" := VDict
          (<["id_anon" := VStr user_id_anon]>
          (<["username_anon" := VStr username_anon]>
          (<["first_name_anon" := VStr first_name_anon]>
          (<["last_name_anon" := VStr last_name_anon]>
          (<["language_code" := get user_data "language_code" (VStr "")]>
          (<["is_bot" := get user_data "is_bot" (VBool false)]> ∅))))))]>
     (<["metadata" := VDict
          (<["platform" := VStr "telegram"]>
          (<["client" := get user_data "client" (VStr "unknown")]>
          (<["source" := get user_data "source" (VStr "unknown")]> ∅)))]>
     (<["content" := VStr
          (if negb (String.eqb content "")
           then encrypt (fernet_ self) (fresh_content amb) content
           else "")]>
     (<["additional_data" := VStr
          (match additional_data with
           | Some d =>
               if truthy (VDict d)
               then encrypt (fernet_ self) (fresh_additional amb) (dumps true (VDict d))
               else ""
           | None => ""
           end)]> ∅))))))).

Definition log_event (self : SecureLogger) (amb : ambient) (event_type : string)
    (user_data : gmap string value) (content : string)
    (additional_data : option (gmap string value)) (fs : FS) : result value * FS :=
  match build_entry self amb event_type user_data content additional_data with
  | Raise e => (Raise e, fs)
  | Ok log_entry =>
      match _save_log self amb log_entry fs with
      | (Raise e, fs') => (Raise e, fs')
      | (Ok _, fs') =>
          (match log_entry !! "event_id"%string with
           | Some event_id => Ok event_id
           | None => Raise KeyError
           end, fs')
      end
  end.

(** The loop of [read_logs] over the records of an encrypted partition: a
    record that does not decrypt, or whose plaintext does not parse, is
    reported and skipped. *)
Fixpoint decrypt_records (self : SecureLogger) (records : list string) : list value :=
  match records with
  | [] => []
  | record :: rest =>
      if negb (String.eqb (bytes_strip record) "") then
        match decrypt (fernet_ self) record with
        | Some decrypted =>
            match loads decrypted with
            | Some entry => entry :: decrypt_records self rest
            | None => decrypt_records self rest
            end
        | None => decrypt_records self rest
        end
      else decrypt_records self rest
  end.

(** The loop of [read_logs] over the lines of a redacted partition. *)
Fixpoint parse_lines (lines : list string) : result (list value) :=
  match lines with
  | [] => Ok []
  | line :: rest =>
      if negb (String.eqb (str_strip line) "") then
        match loads line with
        | Some entry => logs <- parse_lines rest;; Ok (entry :: logs)
        | None => Raise JSONDecodeError
        end
      else parse_lines rest
  end.

Definition read_logs (self : SecureLogger) (date_str : string) (decrypt_ : bool) (fs : FS)
  : result (list value) :=
  if decrypt_ then
    match encrypted fs !! encrypted_name date_str with
    | Some content =>
        if bool_decide (encrypted_file date_str ∈ denied fs)
        then Raise PermissionError
        else Ok (decrypt_records self (split RECORD_SEP content))
    | None => Ok []
    end
  else
    match raw fs !! raw_name date_str with
    | Some content =>
        if bool_decide (raw_file date_str ∈ denied fs)
        then Raise PermissionError
        else parse_lines (text_lines content)
    | None => Ok []
    end.

Definition get_encryption_key (self : SecureLogger) : string := key self.

End Logger.

(** ** Retention *)

(** The loop of [cleanup_old_logs] over [logs/raw] and over
    [logs/encrypted]: the date is what precedes the first dot of the name. *)
Fixpoint purge_logs (suffix : string) (cutoff_date : datetime) (names : list string)
    (d : gmap string string) : result unit * gmap string string :=
  match names with
  | [] => (Ok tt, d)
  | filename :: rest =>
      if endswith suffix filename then
        match strptime_date (hd EmptyString (split "." filename)) with
        | None => (Raise ValueError, d)
        | Some file_date =>
            if datetime_lt file_date cutoff_date
            then purge_logs suffix cutoff_date rest (delete filename d)
            else purge_logs suffix cutoff_date rest d
        end
      else purge_logs suffix cutoff_date rest d
  end.

(** The loop over [logs/keys], where a name whose date does not parse is
    passed over. *)
Fixpoint purge_keys (cutoff_date : datetime) (names : list string)
    (d : gmap string string) : gmap string string :=
  match names with
  | [] => d
  | filename :: rest =>
      if startswith "key_" filename && endswith ".key" filename then
        match strptime_stamp (slice 4 (String.length filename - 4) filename) with
        | None => purge_keys cutoff_date rest d
        | Some key_date =>
            if datetime_lt key_date cutoff_date
            then purge_keys cutoff_date rest (delete filename d)
            else purge_keys cutoff_date rest d
        end
      else purge_keys cutoff_date rest d
  end.

(** [datetime.now() - timedelta(days=days)]. *)
Definition cutoff (t : datetime) (days : Z) : result datetime :=
  delta <- timedelta_days days;; datetime_sub t delta.

Definition cleanup_old_logs (t : datetime) (days : Z) (fs : FS) : result unit * FS :=
  match cutoff t days with
  | Raise e => (Raise e, fs)
  | Ok cutoff_date =>
      match purge_logs ".ndjson" cutoff_date (listdir (raw fs)) (raw fs) with
      | (Raise e, raw') => (Raise e, mkFS raw' (encrypted fs) (keys fs) (denied fs))
      | (Ok _, raw') =>
          match purge_logs ".enc" cutoff_date (listdir (encrypted fs)) (encrypted fs) with
          | (Raise e, enc') => (Raise e, mkFS raw' enc' (keys fs) (denied fs))
          | (Ok _, enc') =>
              (Ok tt,
               mkFS raw' enc' (purge_keys cutoff_date (listdir (keys fs)) (keys fs))
                    (denied fs))
          end
      end
  end.

(** ** Reference implementations of the interfaces

    Executable stand-ins for the libraries, on which the logger can be run
    and which show that the contracts above can be met.  [ref_json] reads
    and writes the JSON subset of [value] (no fractions; [\u] escapes of
    ASCII only).  [ref_fernet] is described at [seal]. *)

Module Ref.

Definition QUOTE : ascii := "034"%char.
Definition BACKSLASH : ascii := "092"%char.

Definition json_isspace (a : ascii) : bool :=
  let n := byte_of a in (n =? 32) || (n =? 9) || (n =? 10) || (n =? 13).

Definition hex_value (a : ascii) : option Z :=
  let n := byte_of a in
  if (48 <=? n) && (n <=? 57) then Some (n - 48)
  else if (97 <=? n) && (n <=? 102) then Some (n - 87)
  else if (65 <=? n) && (n <=? 70) then Some (n - 55)
  else None.

Definition chr (n : Z) : ascii := ascii_of_N (Z.to_N n).

Fixpoint escape (s : string) : string :=
  match s with
  | EmptyString => EmptyString
  | String a s' =>
      if Ascii.eqb a QUOTE then String BACKSLASH (String QUOTE (escape s'))
      else if Ascii.eqb a BACKSLASH then String BACKSLASH (String BACKSLASH (escape s'))
      else if byte_of a <? 32 then
        String BACKSLASH (String "u" (String "0" (String "0"
          (String (SHA256.hex_digit (byte_of a / 16))
          (String (SHA256.hex_digit (byte_of a mod 16)) (escape s'))))))
      else String a (escape s')
  end.

Definition quote (s : string) : string :=
  String QUOTE (escape s +:+ String QUOTE EmptyString).

Definition unescape_char (b : ascii) : option ascii :=
  if Ascii.eqb b QUOTE then Some QUOTE
  else if Ascii.eqb b BACKSLASH then Some BACKSLASH
  else if Ascii.eqb b "/" then Some "/"%char
  else if Ascii.eqb b "n" then Some LF
  else if Ascii.eqb b "r" then Some CR
  else if Ascii.eqb b "t" then Some "009"%char
  else if Ascii.eqb b "b" then Some "008"%char
  else if Ascii.eqb b "f" then Some "012"%char
  else None.

(** The text of a string literal after its opening quote, and what
    follows the closing quote. *)
Fixpoint parse_string (s : string) : option (string * string) :=
  match s with
  | EmptyString => None
  | String a s' =>
      if Ascii.eqb a QUOTE then Some (EmptyString, s')
      else if Ascii.eqb a BACKSLASH then
        match s' with
        | String b s'' =>
            if Ascii.eqb b "u" then
              match s'' with
              | String h3 (String h2 (String h1 (String h0 r))) =>
                  match hex_value h3, hex_value h2, hex_value h1, hex_value h0 with
                  | Some 0, Some 0, Some d1, Some d0 =>
                      if d1 <? 8 then
                        match parse_string r with
                        | Some (str, r') => Some (String (chr (16 * d1 + d0)) str, r')
                        | None => None
                        end
                      else None
                  | _, _, _, _ => None
                  end
              | _ => None
              end
            else
              match unescape_char b, parse_string s'' with
              | Some c, Some (str, r') => Some (String c str, r')
              | _, _ => None
              end
        | EmptyString => None
        end
      else if byte_of a <? 32 then None
      else
        match parse_string s' with
        | Some (str, r') => Some (String a str, r')
        | None => None
        end
  end.

Fixpoint skip_ws (s : string) : string :=
  match s with
  | String a s' => if json_isspace a then skip_ws s' else s
  | EmptyString => EmptyString
  end.

Definition num_char (a : ascii) : bool :=
  let n := byte_of a in (n =? 45) || ((48 <=? n) && (n <=? 57)).

(** The longest prefix of sign and digits, and the rest. *)
Fixpoint span_num (s : string) : string * string :=
  match s with
  | String a s' =>
      if num_char a then (String a (fst (span_num s')), snd (span_num s'))
      else (EmptyString, s)
  | EmptyString => (EmptyString, EmptyString)
  end.

(** A character with which the text of a value starts. *)
Definition starter (a : ascii) : bool :=
  num_char a || Ascii.eqb a "n" || Ascii.eqb a "t" || Ascii.eqb a "f"
  || Ascii.eqb a QUOTE || Ascii.eqb a "[" || Ascii.eqb a "{".

(** What may follow the text of a value: not a character of a number. *)
Definition ok_rest (s : string) : bool :=
  match s with
  | String a _ => negb (num_char a)
  | EmptyString => true
  end.

Definition print_int (z : Z) : string := NilZero.string_of_int (Z.to_int z).

Definition parse_int (s : string) : option (Z * string) :=
  match NilZero.int_of_string (fst (span_num s)) with
  | Some d => Some (Z.of_int d, snd (span_num s))
  | None => None
  end.

Fixpoint join_items (close : ascii) (items : list string) : string :=
  match items with
  | [] => String close EmptyString
  | x :: rest =>
      match rest with
      | [] => x +:+ String close EmptyString
      | _ => x +:+ ", " +:+ join_items close rest
      end
  end.

Definition print_member (kv : string * string) : string :=
  quote (fst kv) +:+ ": " +:+ snd kv.

Fixpoint print (v : value) : string :=
  match v with
  | VNone => "null"
  | VBool b => if b then "true" else "false"
  | VInt z => print_int z
  | VStr s => quote s
  | VList l => String "[" (join_items "]" (map print l))
  | VDict d => String "{" (join_items "}" (map print_member (map_to_list (print <$> d))))
  end.

Fixpoint parse (fuel : nat) (s : string) : option (value * string) :=
  match fuel with
  | O => None
  | S f =>
      match skip_ws s with
      | EmptyString => None
      | String a r =>
          if Ascii.eqb a "n" then
            if String.prefix "ull" r then Some (VNone, drop_chars 3 r) else None
          else if Ascii.eqb a "t" then
            if String.prefix "rue" r then Some (VBool true, drop_chars 3 r) else None
          else if Ascii.eqb a "f" then
            if String.prefix "alse" r then Some (VBool false, drop_chars 4 r) else None
          else if Ascii.eqb a QUOTE then
            match parse_string r with
            | Some (str, r') => Some (VStr str, r')
            | None => None
            end
          else if Ascii.eqb a "[" then
            match skip_ws r with
            | EmptyString => None
            | String b r' =>
                if Ascii.eqb b "]" then Some (VList [], r')
                else match parse_items f r with
                     | Some (l, r'') => Some (VList l, r'')
                     | None => None
                     end
            end
          else if Ascii.eqb a "{" then
            match skip_ws r with
            | EmptyString => None
            | String b r' =>
                if Ascii.eqb b "}" then Some (VDict ∅, r')
                else match parse_members f r with
                     | Some (l, r'') => Some (VDict (list_to_map l), r'')
                     | None => None
                     end
            end
          else
            match parse_int (String a r) with
            | Some (z, r') => Some (VInt z, r')
            | None => None
            end
      end
  end
with parse_items (fuel : nat) (s : string) : option (list value * string) :=
  match fuel with
  | O => None
  | S f =>
      match parse f s with
      | Some (v, r) =>
          match skip_ws r with
          | EmptyString => None
          | String b r' =>
              if Ascii.eqb b "," then
                match parse_items f r' with
                | Some (l, r'') => Some (v :: l, r'')
                | None => None
                end
              else if Ascii.eqb b "]" then Some ([v], r')
              else None
          end
      | None => None
      end
  end
with parse_members (fuel : nat) (s : string) : option (list (string * value) * string) :=
  match fuel with
  | O => None
  | S f =>
      match skip_ws s with
      | EmptyString => None
      | String q r =>
          if Ascii.eqb q QUOTE then
            match parse_string r with
            | Some (k, r1) =>
                match skip_ws r1 with
                | EmptyString => None
                | String c r2 =>
                    if Ascii.eqb c ":" then
                      match parse f r2 with
                      | Some (v, r3) =>
                          match skip_ws r3 with
                          | EmptyString => None
                          | String b r4 =>
                              if Ascii.eqb b "," then
                                match parse_members f r4 with
                                | Some (l, r5) => Some ((k, v) :: l, r5)
                                | None => None
                                end
                              else if Ascii.eqb b "}" then Some ([(k, v)], r4)
                              else None
                          end
                      | None => None
                      end
                    else None
                end
            | None => None
            end
          else None
      end
  end.

(** The parser reads the text of [v] back, whatever may follow it. *)
Definition reads_back (v : value) : Prop :=
  forall (s rest : string) (fuel : nat),
    skip_ws s = print v +:+ rest -> ok_rest rest = true ->
    (String.length (print v) <= fuel)%nat ->
    parse fuel s = Some (v, rest).

Definition json_loads (s : string) : option value :=
  match parse (S (String.length s)) s with
  | Some (v, r) =>
      match skip_ws r with
      | EmptyString => Some v
      | _ => None
      end
  | None => None
  end.

Definition ref_json : Json := {| dumps := fun _ => print; loads := json_loads |}.

Definition ref_repr : Repr := {| repr := print |}.

(** Two hexadecimal digits for each byte, and back. *)
Fixpoint hex_encode (s : string) : string :=
  match s with
  | EmptyString => EmptyString
  | String a s' =>
      String (SHA256.hex_digit (byte_of a / 16))
        (String (SHA256.hex_digit (byte_of a mod 16)) (hex_encode s'))
  end.

Fixpoint hex_decode (s : string) : option string :=
  match s with
  | EmptyString => Some EmptyString
  | String h1 (String h0 s') =>
      match hex_value h1, hex_value h0, hex_decode s' with
      | Some d1, Some d0, Some r => Some (String (chr (16 * d1 + d0)) r)
      | _, _, _ => None
      end
  | _ => None
  end.

(** Modelled from the spec: the Cipher of the specification, which in the
    repository is cryptography's Fernet and has no code of its own there.
    Encryption is authenticated and its output is self-contained: a token
    carries the fresh input and the payload, and an authentication tag
    bound to the key, the fresh input and the payload.  The tag is
    idealised as the three of them written out in hexadecimal, so that it
    identifies them; the fresh input and the payload are written in
    hexadecimal too. *)
Definition seal (k fresh data : string) : string :=
  hex_encode k +:+ "-" +:+ hex_encode fresh +:+ "-" +:+ hex_encode data
  +:+ "_" +:+ hex_encode fresh +:+ "_" +:+ hex_encode data.

(** Modelled from the spec: decryption under a key returns the payload of
    the tokens that encryption under that key produces, and of no other
    text: it fails on a token that is malformed, truncated or altered, and
    on one made under another key (tag mismatch). *)
Definition unseal (k token : string) : option string :=
  match split "_" token with
  | [_; hf; hd] =>
      match hex_decode hf, hex_decode hd with
      | Some fresh, Some data =>
          if String.eqb token (seal k fresh data) then Some data else None
      | _, _ => None
      end
  | _ => None
  end.

(** Modelled from the spec: a key is what [Fernet.generate_key()] returns,
    32 bytes in URL-safe base64, that is 44 characters of that alphabet;
    [Fernet(key)] raises [ValueError] on anything else. *)
Definition valid_key (k : string) : bool :=
  Nat.eqb (String.length k) 44 && string_forallb b64url_char k.

(** Modelled from the spec: the cipher object is its key. *)
Definition ref_fernet : Fernet :=
  {| fernet := string;
     Fernet_new := fun k => if valid_key k then Some k else None;
     encrypt := seal;
     decrypt := unseal |}.

End Ref.

(** ** Vocabulary of the statements *)

(** The identifying attributes of a user and the keys under which their
    tokens are stored. *)
Inductive identifying := attr_id | attr_username | attr_first_name | attr_last_name.

Definition attr_key (a : identifying) : string :=
  match a with
  | attr_id => "id"
  | attr_username => "username"
  | attr_first_name => "first_name"
  | attr_last_name => "last_name"
  end.

Definition anon_key (a : identifying) : string :=
  match a with
  | attr_id => "id_anon"
  | attr_username => "username_anon"
  | attr_first_name => "first_name_anon"
  | attr_last_name => "last_name_anon"
  end.

Definition is_hex (a : ascii) : bool :=
  let n := byte_of a in
  ((48 <=? n) && (n <=? 57)) || ((97 <=? n) && (n <=? 102)).

(** Printable ASCII other than the blank. *)
Definition is_visible (a : ascii) : bool :=
  (33 <=? byte_of a) && (byte_of a <? 127).

(** [sep] does not start at any of the first [n] positions of [s]. *)
Fixpoint sep_free (sep : string) (n : nat) (s : string) : bool :=
  match n, s with
  | S n', String _ s' => negb (String.prefix sep s) && sep_free sep n' s'
  | _, _ => true
  end.

(** A record is framed when the separator written after it is the first
    one a reader meets. *)
Definition framed (record : string) : bool :=
  sep_free RECORD_SEP (String.length record) (record +:+ RECORD_SEP).

(** An encrypted partition that holds the given records, each followed by
    the separator. *)
Fixpoint partition_of (records : list string) : string :=
  match records with
  | [] => EmptyString
  | record :: rest => record +:+ RECORD_SEP +:+ partition_of rest
  end.

(** A redacted partition that holds the given lines. *)
Fixpoint lines_of (lines : list string) : string :=
  match lines with
  | [] => EmptyString
  | line :: rest => line +:+ String LF EmptyString +:+ lines_of rest
  end.

(** The redacted and the encrypted directory once [log_event] has written
    [entry] to them. *)
Definition written `{Json} (amb : ambient) (entry : gmap string value) (fs : FS)
  : gmap string string :=
  appended (raw fs) (raw_name (strftime_date (now amb)))
    (dumps false (VDict (safe_log_entry entry)) +:+ String LF EmptyString).

Definition sealed `{Fernet} `{Json} (self : SecureLogger) (amb : ambient)
    (entry : gmap string value) (fs : FS) : gmap string string :=
  appended (encrypted fs) (encrypted_name (strftime_date (now amb)))
    (encrypt (fernet_ self) (fresh_record amb) (dumps false (VDict entry)) +:+ RECORD_SEP).

(** What a record of the encrypted stream decodes to, if it is valid. *)
Definition decode_record `{Fernet} `{Json} (self : SecureLogger) (record : string)
  : option value :=
  if String.eqb (bytes_strip record) "" then None
  else match decrypt (fernet_ self) record with
       | Some decrypted => loads decrypted
       | None => None
       end.

(** The date a file name carries: for a log file, what precedes the first
    dot of a name with the suffix of the directory; for a key file, what
    stands between [key_] and [.key]. *)
Definition log_date (suffix filename : string) : option datetime :=
  if endswith suffix filename
  then strptime_date (hd EmptyString (split "." filename))
  else None.

Definition key_date (filename : string) : option datetime :=
  if startswith "key_" filename && endswith ".key" filename
  then strptime_stamp (slice 4 (String.length filename - 4) filename)
  else None.

(** A name is expired when the date it carries precedes the cutoff. *)
Definition expired (date_of : string -> option datetime) (cutoff_date : datetime)
    (filename : string) : bool :=
  match date_of filename with
  | Some file_date => datetime_lt file_date cutoff_date
  | None => false
  end.

(** A log file name with the suffix of its directory from which no date
    can be read. *)
Definition undated_log (suffix filename : string) : bool :=
  endswith suffix filename
  && match strptime_date (hd EmptyString (split "." filename)) with
     | Some _ => false
     | None => true
     end.

(** A calendar date, and a time of day. *)
Definition valid_date (t : datetime) : Prop :=
  1 <= month t <= 12 /\ 1 <= day t <= _days_in_month (year t) (month t).

Definition time_fields (t : datetime) : list Z :=
  [hour t; minute t; second t; microsecond t].

(** [a < b] told from the day numbers and the times of day. *)
Definition precedes (ord_a : Z) (time_a : list Z) (ord_b : Z) (time_b : list Z) : bool :=
  (ord_a <? ord_b) || ((ord_a =? ord_b) && lex_lt time_a time_b).

(** [_ord2ymd] is right on the [n] days from day [r + 1] on: it returns a
    calendar date of the first 400 years whose day number is the one
    given. *)
Fixpoint cycle_ok (n : nat) (r : Z) : bool :=
  match n with
  | O => true
  | S k =>
      (let '(y, m, d) := _ord2ymd (r + 1) in
       (1 <=? y) && (y <=? 400) && (1 <=? m) && (m <=? 12)
       && (1 <=? d) && (d <=? _days_in_month y m)
       && (_ymd2ord y m d =? r + 1))
      && cycle_ok k (r + 1)
  end.

(** ** Vocabulary of the further statements *)

(** The key file [setup_dirs] writes at time [t]: its name in [logs/keys]
    and its path. *)
Definition key_name (t : datetime) : string := "key_" +:+ strftime_stamp t +:+ ".key".
Definition key_file (t : datetime) : string := "logs/keys/" +:+ key_name t.

(** The key [SecureLogger(key)] works with: the one given unless it is
    empty or absent. *)
Definition chosen_key (key_arg : option string) (generated : string) : string :=
  match key_arg with
  | Some k => if String.eqb k "" then generated else k
  | None => generated
  end.



(** The attributes of [user_data] that [log_event] reads. *)
Definition read_attributes : list string :=
  ["id"; "username"; "first_name"; "last_name"; "language_code"; "is_bot"; "client"; "source"].

(** [d'] holds the files of [d] with, possibly, text appended to them, and
    files [d] does not have. *)
Definition extends (d d' : gmap string string) : Prop :=
  forall name,
    d' !! name = d !! name
    \/ exists suffix, d' !! name = Some (default EmptyString (d !! name) +:+ suffix).

(** The two partitions of a date hold the same entries in the same order:
    the encrypted one the full entries, the redacted one their redacted
    copies; the redacted partition is made of lines and the encrypted one
    of framed records. *)
Definition mirrored `{Fernet} `{Json} (self : SecureLogger) (date_str : string) (fs : FS)
    (entries : list (gmap string value)) : Prop :=
  (exists lines,
      default EmptyString (raw fs !! raw_name date_str) = lines_of lines
      /\ Forall (fun l => newline_free l = true) lines)
  /\ (exists records,
        default EmptyString (encrypted fs !! encrypted_name date_str) = partition_of records
        /\ Forall (fun r => framed r = true) records)
  /\ read_logs self date_str false fs = Ok ((fun e => VDict (safe_log_entry e)) <$> entries)
  /\ read_logs self date_str true fs = Ok (VDict <$> entries).

(** A reading of the wall clock in a year written with four digits, as
    [strftime] needs it to print four. *)
Definition clock_reading (t : datetime) : Prop :=
  1000 <= year t <= 9999 /\ valid_date t
  /\ 0 <= hour t <= 23 /\ 0 <= minute t <= 59 /\ 0 <= second t <= 59
  /\ 0 <= microsecond t.

(** The day of [t] at 00:00:00, and [t] without its microseconds. *)
Definition midnight (t : datetime) : datetime :=
  Datetime (year t) (month t) (day t) 0 0 0 0.

Definition to_second (t : datetime) : datetime :=
  Datetime (year t) (month t) (day t) (hour t) (minute t) (second t) 0.

(** The log directories hold partitions named by [_save_log] only. *)
Definition own_files (fs : FS) : Prop :=
  (forall name, is_Some (raw fs !! name) ->
     exists t, clock_reading t /\ name = raw_name (strftime_date t))
  /\ (forall name, is_Some (encrypted fs !! name) ->
        exists t, clock_reading t /\ name = encrypted_name (strftime_date t)).

(** ** Sample inputs

    A logger over the reference implementations, a user, clock readings
    and a few file systems, on which the statements below are run. *)

Module Sample.

#[local] Existing Instance Ref.ref_fernet.
#[local] Existing Instance Ref.ref_json.
#[local] Existing Instance Ref.ref_repr.

Definition key_a : string := "AAAAAAAAAAAAAAAAAAAAAAAAAAAAAAAAAAAAAAAAAAA=".
Definition key_b : string := "BBBBBBBBBBBBBBBBBBBBBBBBBBBBBBBBBBBBBBBBBBB=".

Definition logger : SecureLogger := mkLogger key_a key_a.

(** 3 November 2026, 09:05:07 local time. *)
Definition today : datetime := Datetime 2026 11 3 9 5 7 0.

Definition amb : ambient :=
  mkAmbient "2026-11-03T08:05:07.123456" "1793696707.123456" today "iv-1" "iv-2" "iv-3".

(** A user without a last name. *)
Definition user : gmap string value :=
  <["id" := VInt 123]> (<["username" := VStr "alice"]> (<["first_name" := VStr "A"]>
  (<["language_code" := VStr "en"]> (<["is_bot" := VBool false]> ∅)))).

Definition extra : gmap string value := <["chat" := VInt 7]> ∅.

Definition fs_empty : FS := mkFS ∅ ∅ ∅ ∅.

(** The encrypted partition of the day cannot be opened. *)
Definition fs_locked : FS := mkFS ∅ ∅ ∅ {[ encrypted_file "2026-11-03" ]}.

(** A redacted partition whose second line is not JSON. *)
Definition fs_malformed : FS :=
  mkFS (<["2026-11-03.ndjson" :=
            lines_of [dumps false (VInt 1); "{not json"; dumps false (VInt 2)]]> ∅)
       ∅ ∅ ∅.

(** An encrypted partition whose second record is not a token. *)
Definition fs_corrupted : FS :=
  mkFS ∅
       (<["2026-11-03.enc" :=
            partition_of [encrypt key_a "iv-1" (dumps false (VInt 1));
                          "corrupted";
                          encrypt key_a "iv-3" (dumps false (VInt 2))]]> ∅)
       ∅ ∅.

(** The same partition followed by a record cut short, which no
    separator ends. *)
Definition fs_truncated : FS :=
  mkFS ∅
       (<["2026-11-03.enc" :=
            partition_of [encrypt key_a "iv-1" (dumps false (VInt 1));
                          "corrupted";
                          encrypt key_a "iv-3" (dumps false (VInt 2))]
            +:+ "gAAAAABtruncated"]> ∅)
       ∅ ∅.

(** Files dated 45 days and 5 days before [today] in the three
    directories. *)
Definition fs_aged : FS :=
  mkFS (<["2026-09-19.ndjson" := "old"]> (<["2026-10-29.ndjson" := "new"]> ∅))
       (<["2026-09-19.enc" := "old"]> (<["2026-10-29.enc" := "new"]> ∅))
       (<["key_20260919_090507.key" := key_b]> (<["key_20261029_090507.key" := key_a]> ∅))
       ∅.

(** A file without a date among the redacted logs, and expired files in
    the other two directories. *)
Definition fs_foreign : FS :=
  mkFS (<["notes.ndjson" := "remember"]> ∅)
       (<["2026-09-19.enc" := "old"]> ∅)
       (<["key_20260919_090507.key" := key_b]> ∅)
       ∅.

End Sample.

(** * Properties *)

#[local] Arguments String.append !s1 s2 : simpl nomatch.

(** ** Strings *)

Lemma app_nil_r_s (s : string) : s +:+ EmptyString = s.
Proof. induction s; simpl; [done|]. by f_equal. Qed.

Lemma app_assoc_s (a b c : string) : (a +:+ b) +:+ c = a +:+ (b +:+ c).
Proof. induction a; simpl; [done|]. by f_equal. Qed.

Lemma length_app_s (a b : string) :
  String.length (a +:+ b) = (String.length a + String.length b)%nat.
Proof. induction a; simpl; [done|]. by f_equal. Qed.

Lemma app_inv_head_s (p a b : string) : p +:+ a = p +:+ b -> a = b.
Proof. induction p as [|c p IH]; [done|]. cbn. intros [= H]. by apply IH. Qed.

Lemma app_inv_tail_s (a b c : string) : a +:+ c = b +:+ c -> a = b.
Proof.
  revert b. induction a as [|x a IH]; intros [|y b] Heq; [done| | |].
  - apply (f_equal String.length) in Heq. cbn in Heq. rewrite length_app_s in Heq. lia.
  - apply (f_equal String.length) in Heq. cbn in Heq. rewrite length_app_s in Heq. lia.
  - cbn in Heq. injection Heq as <- Heq. f_equal. by apply IH.
Qed.

Lemma rev_app_spec (s k : string) : String.rev_app s k = String.rev s +:+ k.
Proof.
  unfold String.rev. revert k.
  induction s as [|a s IH]; intros k; simpl; [done|].
  rewrite IH, (IH (String a EmptyString)), app_assoc_s. done.
Qed.

Lemma rev_cons_s (a : ascii) (s : string) :
  String.rev (String a s) = String.rev s +:+ String a EmptyString.
Proof. unfold String.rev at 1. simpl. apply rev_app_spec. Qed.

Lemma rev_app_s (a b : string) : String.rev (a +:+ b) = String.rev b +:+ String.rev a.
Proof.
  induction a as [|c a IH]; simpl.
  - by rewrite app_nil_r_s.
  - by rewrite !rev_cons_s, IH, app_assoc_s.
Qed.

Lemma rev_involutive_s (s : string) : String.rev (String.rev s) = s.
Proof.
  induction s as [|a s IH]; [done|].
  rewrite rev_cons_s, rev_app_s, IH. done.
Qed.

Lemma forallb_app_s (p : ascii -> bool) (a b : string) :
  string_forallb p (a +:+ b) = string_forallb p a && string_forallb p b.
Proof. induction a; simpl; [done|]. by rewrite IHa, andb_assoc. Qed.

Lemma forallb_rev_s (p : ascii -> bool) (s : string) :
  string_forallb p (String.rev s) = string_forallb p s.
Proof.
  induction s as [|a s IH]; [done|].
  rewrite rev_cons_s, forallb_app_s, IH. simpl. rewrite andb_true_r. apply andb_comm.
Qed.

Lemma forallb_impl_s (p q : ascii -> bool) (s : string) :
  (forall a, p a = true -> q a = true) ->
  string_forallb p s = true -> string_forallb q s = true.
Proof.
  intros Hpq. induction s as [|a s IH]; simpl; [done|].
  intros [Ha Hs]%andb_true_iff. rewrite (Hpq _ Ha), (IH Hs). done.
Qed.

Lemma prefix_app_s (p s : string) : String.prefix p (p +:+ s) = true.
Proof.
  induction p as [|a p IH]; simpl; [by destruct s|].
  destruct (ascii_dec a a); [done|congruence].
Qed.

(** A prefix test only looks at as many characters as the prefix has. *)
Lemma prefix_app_long (p a b : string) :
  (String.length p <= String.length a)%nat ->
  String.prefix p (a +:+ b) = String.prefix p a.
Proof.
  revert a. induction p as [|c p IH]; intros a Hlen; simpl.
  - by destruct a, b.
  - destruct a as [|d a]; simpl in *; [lia|].
    destruct (ascii_dec c d); [|done]. apply IH. lia.
Qed.

Lemma prefix_head (p : string) (c a : ascii) (s : string) :
  c <> a -> String.prefix (String c p) (String a s) = false.
Proof. intros Hne. simpl. destruct (ascii_dec c a); [done|done]. Qed.

Lemma rev_empty_inv (s : string) : String.rev s = EmptyString -> s = EmptyString.
Proof. intros H. rewrite <- (rev_involutive_s s), H. done. Qed.

Lemma lstrip_keeps (ws : ascii -> bool) (s : string) :
  string_forallb ws s = false -> string_forallb ws (lstrip ws s) = false.
Proof.
  induction s as [|a s IH]; simpl; [done|].
  destruct (ws a) eqn:Ha; simpl; [done|]. by rewrite Ha.
Qed.

Lemma forallb_false_nonempty (p : ascii -> bool) (s : string) :
  string_forallb p s = false -> s <> EmptyString.
Proof. by destruct s. Qed.

(** [strip] leaves something of a text that has a character other than
    white space. *)
Lemma bytes_strip_nonempty (s : string) :
  string_forallb bytes_isspace s = false -> bytes_strip s <> EmptyString.
Proof.
  intros Hs Hempty. unfold bytes_strip in Hempty.
  apply rev_empty_inv in Hempty.
  apply lstrip_keeps in Hs. rewrite <- forallb_rev_s in Hs.
  apply lstrip_keeps in Hs. by rewrite Hempty in Hs.
Qed.

Ltac bool_to_Z :=
  repeat match goal with
  | H : _ && _ = true |- _ => apply andb_true_iff in H; destruct H
  | H : _ || _ = true |- _ => apply orb_true_iff in H; destruct H
  | H : _ && _ = false |- _ => apply andb_false_iff in H; destruct H
  | H : _ || _ = false |- _ => apply orb_false_iff in H; destruct H
  | H : negb _ = true |- _ => apply negb_true_iff in H
  | H : negb _ = false |- _ => apply negb_false_iff in H
  | H : (_ <=? _) = true |- _ => apply Z.leb_le in H
  | H : (_ <=? _) = false |- _ => apply Z.leb_gt in H
  | H : (_ <? _) = true |- _ => apply Z.ltb_lt in H
  | H : (_ <? _) = false |- _ => apply Z.ltb_ge in H
  | H : (_ =? _) = true |- _ => apply Z.eqb_eq in H
  | H : (_ =? _) = false |- _ => apply Z.eqb_neq in H
  end.

Ltac Z_to_bool :=
  repeat first
    [ rewrite andb_true_iff | rewrite orb_true_iff | rewrite andb_false_iff
    | rewrite orb_false_iff | rewrite negb_true_iff | rewrite negb_false_iff
    | rewrite Z.leb_le | rewrite Z.leb_gt | rewrite Z.ltb_lt | rewrite Z.ltb_ge
    | rewrite Z.eqb_eq | rewrite Z.eqb_neq ].

Lemma b64url_not_space (a : ascii) : b64url_char a = true -> bytes_isspace a = false.
Proof.
  unfold b64url_char, bytes_isspace. cbv zeta. intros H. bool_to_Z; Z_to_bool; lia.
Qed.

Lemma b64url_not_LF (a : ascii) : b64url_char a = true -> a <> LF.
Proof. intros H ->. vm_compute in H. done. Qed.

Lemma token_has_text (t : string) :
  string_forallb b64url_char t = true -> t <> EmptyString ->
  bytes_strip t <> EmptyString.
Proof.
  intros Ht Hne. apply bytes_strip_nonempty.
  destruct t as [|a t]; [done|]. simpl in *.
  apply andb_true_iff in Ht as [Ha _]. by rewrite (b64url_not_space _ Ha).
Qed.

(** ** Splitting at a separator *)

Lemma split_go_skip (sep u rest : string) :
  split_go sep (String.length u) (u +:+ rest) = split_go sep 0 rest.
Proof. induction u as [|a u IH]; simpl; [by destruct rest|done]. Qed.

Lemma split_go_framed (sep record rest : string) :
  sep <> EmptyString ->
  sep_free sep (String.length record) (record +:+ sep) = true ->
  split_go sep 0 (record +:+ sep +:+ rest) = record :: split_go sep 0 rest.
Proof.
  intros Hsep. induction record as [|x record IH]; intros Hfree.
  - destruct sep as [|a sep']; [done|].
    change (EmptyString +:+ String a sep' +:+ rest) with (String a (sep' +:+ rest)).
    cbn [split_go].
    assert (String.prefix (String a sep') (String a (sep' +:+ rest)) = true) as ->
      by apply (prefix_app_s (String a sep')).
    cbn [String.length]. rewrite Nat.sub_1_r. cbn [Nat.pred].
    by rewrite split_go_skip.
  - cbn [String.length sep_free] in Hfree.
    change (String x record +:+ sep) with (String x (record +:+ sep)) in Hfree.
    apply andb_true_iff in Hfree as [Hhere Hfree]. apply negb_true_iff in Hhere.
    change (String x record +:+ sep +:+ rest) with (String x (record +:+ sep +:+ rest)).
    cbn [split_go].
    assert (String.prefix sep (String x (record +:+ sep +:+ rest)) = false) as ->.
    { rewrite <- Hhere. rewrite <- app_assoc_s.
      apply (prefix_app_long sep (String x (record +:+ sep)) rest).
      cbn [String.length]. rewrite length_app_s. lia. }
    rewrite (IH Hfree). done.
Qed.

Lemma sep_free_no_head (a : ascii) (sep record tail : string) :
  string_forallb (fun c => negb (Ascii.eqb c a)) record = true ->
  sep_free (String a sep) (String.length record) (record +:+ tail) = true.
Proof.
  induction record as [|x record IH]; [done|].
  cbn [string_forallb String.length sep_free].
  intros [Hx Hrest]%andb_true_iff.
  change (String x record +:+ tail) with (String x (record +:+ tail)).
  apply negb_true_iff, Ascii.eqb_neq in Hx.
  rewrite prefix_head by congruence. simpl. by apply IH.
Qed.

Lemma split_partition (records : list string) :
  Forall (fun r => framed r = true) records ->
  split RECORD_SEP (partition_of records) = records ++ [EmptyString].
Proof.
  unfold split. induction 1 as [|r records Hr _ IH]; [done|].
  cbn [partition_of]. rewrite split_go_framed; [|done|exact Hr].
  by rewrite IH.
Qed.

(** A text without the separator is one piece, and the records of a
    partition are found again in front of what follows the last
    separator. *)
Lemma split_go_whole (sep s : string) :
  sep_free sep (String.length s) s = true -> split_go sep 0 s = [s].
Proof.
  induction s as [|c s IH]; [done|].
  cbn [String.length sep_free split_go]. intros [Hhead Hrest]%andb_true_iff.
  apply negb_true_iff in Hhead. rewrite Hhead, IH by done. done.
Qed.

Lemma split_partition_tail (records : list string) (tail : string) :
  Forall (fun r => framed r = true) records ->
  sep_free RECORD_SEP (String.length tail) tail = true ->
  split RECORD_SEP (partition_of records +:+ tail) = records ++ [tail].
Proof.
  intros Hframed Htail. unfold split.
  induction Hframed as [|r records Hr _ IH].
  - by apply split_go_whole.
  - cbn [partition_of app]. rewrite !app_assoc_s.
    rewrite split_go_framed; [by rewrite IH|done|exact Hr].
Qed.

Lemma token_framed (t : string) :
  string_forallb b64url_char t = true -> framed t = true.
Proof.
  intros Ht. unfold framed, RECORD_SEP.
  apply (sep_free_no_head LF).
  eapply forallb_impl_s; [|exact Ht].
  intros a Ha. apply negb_true_iff, Ascii.eqb_neq. by apply b64url_not_LF.
Qed.

Lemma newline_free_framed (t : string) : newline_free t = true -> framed t = true.
Proof.
  intros Ht. unfold framed, RECORD_SEP.
  apply (sep_free_no_head LF).
  eapply forallb_impl_s; [|exact Ht].
  intros a Ha. by apply andb_true_iff in Ha as [Ha _].
Qed.

(** ** Lines of a text *)

Lemma text_lines_line (line rest : string) :
  newline_free line = true ->
  text_lines (line +:+ String LF rest) = (line +:+ String LF EmptyString) :: text_lines rest.
Proof.
  unfold newline_free.
  induction line as [|a line IH]; [done|].
  cbn [string_forallb]. intros [[Ha1 Ha2]%andb_true_iff Hline]%andb_true_iff.
  apply negb_true_iff in Ha1, Ha2.
  change (String a line +:+ String LF rest) with (String a (line +:+ String LF rest)).
  cbn [text_lines]. rewrite Ha1, Ha2, (IH Hline). done.
Qed.

Lemma text_lines_of (lines : list string) :
  Forall (fun l => newline_free l = true) lines ->
  text_lines (lines_of lines) = (fun l => l +:+ String LF EmptyString) <$> lines.
Proof.
  induction 1 as [|l lines Hl _ IH]; [done|].
  cbn [lines_of].
  change (String LF EmptyString +:+ lines_of lines) with (String LF (lines_of lines)).
  rewrite text_lines_line by done. by rewrite IH.
Qed.

(** ** White space of texts *)

Lemma substring_drop (n : nat) (s : string) :
  String.substring 0 n s +:+ drop_chars n s = s.
Proof.
  revert s. induction n as [|n IH]; intros [|a s]; simpl; try done.
  by rewrite IH.
Qed.

Lemma byte_of_range (a : ascii) : 0 <= byte_of a < 256.
Proof.
  unfold byte_of. pose proof (N_ascii_bounded a). lia.
Qed.

Lemma text_isspace_invisible (c : string) :
  text_isspace c = true -> string_forallb (fun a => negb (is_visible a)) c = true.
Proof.
  unfold text_isspace, is_visible.
  destruct c as [|a0 [|a1 [|a2 [|a3 c]]]]; cbn [bytes_of string_forallb]; try done;
    intros H; bool_to_Z; Z_to_bool; repeat split; lia.
Qed.

Lemma text_isspace_rev_invisible (c : string) :
  text_isspace (String.rev c) = true ->
  string_forallb (fun a => negb (is_visible a)) c = true.
Proof.
  intros H. apply text_isspace_invisible in H. by rewrite forallb_rev_s in H.
Qed.

Lemma text_lstrip_keeps (isws : string -> bool) (fuel : nat) (s : string) :
  (forall c, isws c = true -> string_forallb (fun a => negb (is_visible a)) c = true) ->
  string_forallb (fun a => negb (is_visible a)) s = false ->
  string_forallb (fun a => negb (is_visible a)) (text_lstrip isws fuel s) = false.
Proof.
  intros Hws. revert s. induction fuel as [|fuel IH]; intros s Hs; [done|].
  cbn [text_lstrip].
  assert (forall n, isws (String.substring 0 n s) = true ->
            string_forallb (fun a => negb (is_visible a)) (drop_chars n s) = false) as Hdrop.
  { intros n Hn. apply Hws in Hn.
    rewrite <- (substring_drop n s), forallb_app_s, Hn in Hs. done. }
  destruct (isws (String.substring 0 1 s)) eqn:H1; [by apply IH, Hdrop|].
  destruct (isws (String.substring 0 2 s)) eqn:H2; [by apply IH, Hdrop|].
  destruct (isws (String.substring 0 3 s)) eqn:H3; [by apply IH, Hdrop|].
  done.
Qed.

(** [strip] leaves something of a text that has a visible character. *)
Lemma str_strip_nonempty (s : string) :
  string_forallb (fun a => negb (is_visible a)) s = false -> str_strip s <> EmptyString.
Proof.
  intros Hs Hempty. unfold str_strip in Hempty. cbv zeta in Hempty.
  apply rev_empty_inv in Hempty.
  apply (text_lstrip_keeps text_isspace (String.length s)) in Hs;
    [|apply text_isspace_invisible].
  rewrite <- forallb_rev_s in Hs.
  apply (text_lstrip_keeps (fun c => text_isspace (String.rev c))
           (String.length (text_lstrip text_isspace (String.length s) s))) in Hs;
    [|apply text_isspace_rev_invisible].
  by rewrite Hempty in Hs.
Qed.

(** ** Anonymisation *)

Lemma range_cases (P : Z -> Prop) (lo : Z) (k : nat) :
  Forall P (seqZ lo (Z.of_nat k)) -> forall n, lo <= n < lo + Z.of_nat k -> P n.
Proof.
  intros HP n Hn. rewrite Forall_forall in HP. apply HP, elem_of_seqZ. lia.
Qed.

Lemma hex_digit_hex (n : Z) : 0 <= n < 16 -> is_hex (SHA256.hex_digit n) = true.
Proof. revert n. apply (range_cases _ 0 16). repeat constructor. Qed.

Lemma hex_digit_is_hex (x : Z) : is_hex (SHA256.hex_digit (Z.land x 15)) = true.
Proof.
  apply hex_digit_hex. change 15 with (Z.ones 4).
  rewrite Z.land_ones by lia. apply Z.mod_pos_bound. lia.
Qed.

Lemma token_shape (data : string) :
  String.length (slice 0 12 (SHA256.hexdigest data)) = 12%nat
  /\ string_forallb is_hex (slice 0 12 (SHA256.hexdigest data)) = true.
Proof.
  unfold SHA256.hexdigest. generalize (SHA256.digest_words data). intros s.
  unfold slice, SHA256.hex32. cbn [String.substring Nat.sub String.length string_forallb].
  split; [done|].
  rewrite !hex_digit_is_hex. done.
Qed.

(** C3.  Anonymisation does not depend on the logger instance and is a
    function of its input; the empty text gives the token "anonymous"; any
    other text gives the first 12 characters of the hexadecimal SHA-256
    digest of the text, which are 12 hexadecimal digits. *)
Theorem anonymize_token `{Fernet} (self other : SecureLogger) (data : string) :
  _anonymize self (VStr data) = _anonymize other (VStr data)
  /\ _anonymize self (VStr "") = Ok "anonymous"%string
  /\ (data <> EmptyString ->
      _anonymize self (VStr data) = Ok (slice 0 12 (SHA256.hexdigest data))
      /\ String.length (slice 0 12 (SHA256.hexdigest data)) = 12%nat
      /\ string_forallb is_hex (slice 0 12 (SHA256.hexdigest data)) = true).
Proof.
  split; [done|]. split; [done|].
  intros Hne. split; [|apply token_shape].
  unfold _anonymize. cbn [truthy].
  destruct (String.eqb_spec data ""); [done|done].
Qed.

(** ** Entries *)

Ltac entry_lookup :=
  repeat first
    [ rewrite lookup_delete_eq
    | rewrite lookup_insert_eq
    | rewrite lookup_delete_ne by discriminate
    | rewrite lookup_insert_ne by discriminate
    | rewrite lookup_empty ].

Section Entries.
Context {F : Fernet} {J : Json} {R : Repr}.

Lemma safe_log_entry_payload (e : gmap string value) :
  safe_log_entry e !! "content"%string = None
  /\ safe_log_entry e !! "additional_data"%string = None.
Proof. unfold safe_log_entry. split; by entry_lookup. Qed.

Lemma safe_log_entry_other (e : gmap string value) (k : string) :
  k <> "content"%string -> k <> "additional_data"%string ->
  safe_log_entry e !! k = e !! k.
Proof.
  intros H1 H2. unfold safe_log_entry.
  rewrite lookup_delete_ne by done. by rewrite lookup_delete_ne by done.
Qed.

Lemma rbind_Ok {A B} (r : result A) (k : A -> result B) (b : B) :
  rbind r k = Ok b -> exists a, r = Ok a /\ k a = Ok b.
Proof. destruct r; simpl; [eauto|done]. Qed.

(** What [build_entry] returns when it returns. *)
Lemma build_entry_Ok (self : SecureLogger) (amb : ambient) (event_type : string)
    (user_data : gmap string value) (content : string)
    (additional_data : option (gmap string value)) (entry : gmap string value) :
  build_entry self amb event_type user_data content additional_data = Ok entry ->
  exists user,
    entry !! "user"%string = Some (VDict user)
    /\ (forall a, exists token,
          _anonymize self
            (match a with
             | attr_id => VStr (py_str (get user_data "id" (VStr "")))
             | _ => get user_data (attr_key a) (VStr "")
             end) = Ok token
          /\ user !! anon_key a = Some (VStr token))
    /\ entry !! "content"%string = Some (VStr
         (if negb (String.eqb content "")
          then encrypt (fernet_ self) (fresh_content amb) content else ""))
    /\ entry !! "additional_data"%string = Some (VStr
         (match additional_data with
          | Some d =>
              if truthy (VDict d)
              then encrypt (fernet_ self) (fresh_additional amb) (dumps true (VDict d))
              else ""
          | None => ""
          end))
    /\ (exists token,
          _anonymize self
            (VStr (now_timestamp amb +:+ py_str (get user_data "id" (VStr "")))) = Ok token
          /\ entry !! "event_id"%string = Some (VStr token)).
Proof.
  unfold build_entry. intros Hb.
  apply rbind_Ok in Hb as (t1 & H1 & Hb).
  apply rbind_Ok in Hb as (t2 & H2 & Hb).
  apply rbind_Ok in Hb as (t3 & H3 & Hb).
  apply rbind_Ok in Hb as (t4 & H4 & Hb).
  apply rbind_Ok in Hb as (t5 & H5 & Hb).
  injection Hb as <-.
  eexists. split; [by entry_lookup|].
  split; [|split; [by entry_lookup|split; [by entry_lookup|]]].
  - intros []; eexists; (split; [eassumption|]); cbn [anon_key]; by entry_lookup.
  - eexists. split; [eassumption|]. by entry_lookup.
Qed.

Lemma anonymize_Raise (self : SecureLogger) (data : value) (e : exn) :
  _anonymize self data = Raise e ->
  e = AttributeError /\ truthy data = true /\ forall s, data <> VStr s.
Proof.
  unfold _anonymize. destruct (truthy data) eqn:Ht; cbn [negb]; [|done].
  destruct data; try done; intros [= <-]; done.
Qed.

Lemma anonymize_text (self : SecureLogger) (s : string) :
  exists token, _anonymize self (VStr s) = Ok token.
Proof. unfold _anonymize. destruct (negb (truthy (VStr s))); eauto. Qed.

(** [build_entry] raises only when one of the three name attributes is
    neither empty nor a text. *)
Lemma build_entry_Raise (self : SecureLogger) (amb : ambient) (event_type : string)
    (user_data : gmap string value) (content : string)
    (additional_data : option (gmap string value)) (e : exn) :
  build_entry self amb event_type user_data content additional_data = Raise e ->
  e = AttributeError
  /\ exists a, a <> attr_id
       /\ truthy (get user_data (attr_key a) (VStr "")) = true
       /\ forall s, get user_data (attr_key a) (VStr "") <> VStr s.
Proof.
  unfold build_entry.
  destruct (anonymize_text self (py_str (get user_data "id" (VStr "")))) as [t1 ->].
  cbn [rbind].
  destruct (_anonymize self (get user_data "username" (VStr ""))) as [t2|e2] eqn:H2;
    cbn [rbind].
  2:{ intros [= <-]. apply anonymize_Raise in H2 as (-> & ? & ?).
      split; [done|]. by exists attr_username. }
  destruct (_anonymize self (get user_data "first_name" (VStr ""))) as [t3|e3] eqn:H3;
    cbn [rbind].
  2:{ intros [= <-]. apply anonymize_Raise in H3 as (-> & ? & ?).
      split; [done|]. by exists attr_first_name. }
  destruct (_anonymize self (get user_data "last_name" (VStr ""))) as [t4|e4] eqn:H4;
    cbn [rbind].
  2:{ intros [= <-]. apply anonymize_Raise in H4 as (-> & ? & ?).
      split; [done|]. by exists attr_last_name. }
  destruct (anonymize_text self
    (now_timestamp amb +:+ py_str (get user_data "id" (VStr "")))) as [t5 ->].
  done.
Qed.

(** The four ways a call of [log_event] can go. *)
Lemma log_event_cases (self : SecureLogger) (amb : ambient) (event_type : string)
    (user_data : gmap string value) (content : string)
    (additional_data : option (gmap string value)) (fs : FS) :
  let date_str := strftime_date (now amb) in
  (exists e,
      build_entry self amb event_type user_data content additional_data = Raise e
      /\ log_event self amb event_type user_data content additional_data fs = (Raise e, fs))
  \/ (exists entry,
      build_entry self amb event_type user_data content additional_data = Ok entry
      /\ ((raw_file date_str ∈ denied fs
           /\ log_event self amb event_type user_data content additional_data fs
              = (Raise PermissionError, fs))
          \/ ((raw_file date_str ∉ denied fs)
              /\ encrypted_file date_str ∈ denied fs
              /\ log_event self amb event_type user_data content additional_data fs
                 = (Raise PermissionError,
                    mkFS (written amb entry fs) (encrypted fs) (keys fs) (denied fs)))
          \/ ((raw_file date_str ∉ denied fs)
              /\ (encrypted_file date_str ∉ denied fs)
              /\ exists event_id,
                   entry !! "event_id"%string = Some event_id
                   /\ log_event self amb event_type user_data content additional_data fs
                      = (Ok event_id,
                         mkFS (written amb entry fs) (sealed self amb entry fs)
                              (keys fs) (denied fs))))).
Proof.
  cbv zeta. unfold log_event.
  destruct (build_entry self amb event_type user_data content additional_data)
    as [entry|e] eqn:Hb; [right; exists entry; split; [done|]|left; by exists e].
  unfold _save_log. cbv zeta. cbn [denied raw encrypted keys].
  destruct (bool_decide_reflect (raw_file (strftime_date (now amb)) ∈ denied fs))
    as [Hraw|Hraw]; [left; done|right].
  destruct (bool_decide_reflect (encrypted_file (strftime_date (now amb)) ∈ denied fs))
    as [Henc|Henc]; [left; done|right].
  split; [done|]. split; [done|].
  destruct (build_entry_Ok _ _ _ _ _ _ _ Hb) as (_ & _ & _ & _ & _ & token & _ & Hid).
  exists (VStr token). by rewrite Hid.
Qed.

End Entries.

Section Writing.
Context {F : Fernet} {J : Json} {R : Repr}.

(** C2.  Whatever [log_event] is given, it leaves the redacted stream as
    it was or appends one line to the partition of the day, and the entry
    serialised on that line has neither a [content] nor an
    [additional_data] key. *)
Theorem redacted_entry_has_no_payload (self : SecureLogger) (amb : ambient)
    (event_type : string) (user_data : gmap string value) (content : string)
    (additional_data : option (gmap string value)) (fs : FS) :
  let fs' := snd (log_event self amb event_type user_data content additional_data fs) in
  raw fs' = raw fs
  \/ exists entry : gmap string value,
       entry !! "content"%string = None
       /\ entry !! "additional_data"%string = None
       /\ raw fs' = appended (raw fs) (raw_name (strftime_date (now amb)))
                      (dumps false (VDict entry) +:+ String LF EmptyString).
Proof.
  cbv zeta.
  destruct (log_event_cases self amb event_type user_data content additional_data fs)
    as [(e & _ & ->)|(entry & _ & [(_ & ->)|[(_ & _ & ->)|(_ & _ & id & _ & ->)]])];
    cbn [snd raw]; [by left|by left|right|right];
    exists (safe_log_entry entry);
    destruct (safe_log_entry_payload entry) as [-> ->]; done.
Qed.

(** C7, as amended.  A call of [log_event] ends in one of three ways: the
    entry is appended to both streams and its event id is returned; or the
    call raises and the file system is as before; or the encrypted
    partition cannot be opened, the call raises [PermissionError], and the
    line already appended to the redacted stream stays there.  The key
    files are never touched. *)
Theorem log_event_outcomes (self : SecureLogger) (amb : ambient)
    (event_type : string) (user_data : gmap string value) (content : string)
    (additional_data : option (gmap string value)) (fs : FS) :
  let res := log_event self amb event_type user_data content additional_data fs in
  keys (snd res) = keys fs /\ denied (snd res) = denied fs
  /\ ((exists (entry : gmap string value) (token : string),
         fst res = Ok (VStr token)
         /\ entry !! "event_id"%string = Some (VStr token)
         /\ raw (snd res) = written amb entry fs
         /\ encrypted (snd res) = sealed self amb entry fs)
      \/ (exists e, fst res = Raise e /\ snd res = fs)
      \/ (fst res = Raise PermissionError
          /\ encrypted_file (strftime_date (now amb)) ∈ denied fs
          /\ exists entry : gmap string value,
               raw (snd res) = written amb entry fs
               /\ encrypted (snd res) = encrypted fs)).
Proof.
  cbv zeta.
  destruct (log_event_cases self amb event_type user_data content additional_data fs)
    as [(e & _ & ->)|(entry & Hb & [(_ & ->)|[(_ & Henc & ->)|(_ & _ & id & Hid & ->)]])];
    cbn [fst snd raw encrypted keys denied]; (split; [done|split; [done|]]).
  - right; left. by exists e.
  - right; left. by exists PermissionError.
  - right; right. split; [done|]. split; [done|]. by exists entry.
  - left.
    destruct (build_entry_Ok _ _ _ _ _ _ _ Hb) as (_ & _ & _ & _ & _ & token & _ & Htok).
    exists entry, token. rewrite Htok in Hid. injection Hid as <-. done.
Qed.

(** C10.  When an identifying attribute is missing from [user_data] or is
    the empty text, its anonymisation is the token "anonymous" and does
    not raise; the entry that a successful call appends to the two streams
    carries that token under the attribute's key of the [user] record, and
    so does the line left in the redacted stream when the encrypted
    partition cannot be opened.  A call that raises [AttributeError] does
    so because of another attribute, one that is neither empty nor a
    text; when the name attributes are empty or texts and the two
    partitions can be opened, the call returns. *)
Theorem missing_attribute_is_anonymous (self : SecureLogger) (amb : ambient)
    (event_type : string) (user_data : gmap string value) (content : string)
    (additional_data : option (gmap string value)) (fs : FS) (a : identifying) :
  user_data !! attr_key a = None \/ user_data !! attr_key a = Some (VStr "") ->
  let res := log_event self amb event_type user_data content additional_data fs in
  _anonymize self
    (match a with
     | attr_id => VStr (py_str (get user_data "id" (VStr "")))
     | _ => get user_data (attr_key a) (VStr "")
     end) = Ok "anonymous"%string
  /\ (forall event_id, fst res = Ok event_id ->
      exists (entry user : gmap string value),
        raw (snd res) = written amb entry fs
        /\ encrypted (snd res) = sealed self amb entry fs
        /\ entry !! "user"%string = Some (VDict user)
        /\ safe_log_entry entry !! "user"%string = Some (VDict user)
        /\ user !! anon_key a = Some (VStr "anonymous"))
  /\ (forall e, fst res = Raise e ->
      (snd res = fs
       \/ exists (entry user : gmap string value),
            raw (snd res) = written amb entry fs
            /\ encrypted (snd res) = encrypted fs
            /\ safe_log_entry entry !! "user"%string = Some (VDict user)
            /\ user !! anon_key a = Some (VStr "anonymous"))
      /\ (e = AttributeError ->
          exists b, b <> a
            /\ truthy (get user_data (attr_key b) (VStr "")) = true
            /\ forall s, get user_data (attr_key b) (VStr "") <> VStr s))
  /\ ((forall b, b <> attr_id ->
         truthy (get user_data (attr_key b) (VStr "")) = false
         \/ exists s, get user_data (attr_key b) (VStr "") = VStr s) ->
      raw_file (strftime_date (now amb)) ∉ denied fs ->
      encrypted_file (strftime_date (now amb)) ∉ denied fs ->
      exists event_id, fst res = Ok event_id).
Proof.
  intros Hmissing. cbv zeta.
  assert (get user_data (attr_key a) (VStr "") = VStr "") as Hget.
  { unfold get. by destruct Hmissing as [-> | ->]. }
  assert (_anonymize self
            (match a with
             | attr_id => VStr (py_str (get user_data "id" (VStr "")))
             | _ => get user_data (attr_key a) (VStr "")
             end) = Ok "anonymous"%string) as Hanon.
  { destruct a; cbn [attr_key] in *; rewrite Hget; done. }
  split; [exact Hanon|].
  assert (forall entry,
    build_entry self amb event_type user_data content additional_data = Ok entry ->
    exists user, entry !! "user"%string = Some (VDict user)
      /\ safe_log_entry entry !! "user"%string = Some (VDict user)
      /\ user !! anon_key a = Some (VStr "anonymous")) as Huser.
  { intros entry Hb.
    destruct (build_entry_Ok _ _ _ _ _ _ _ Hb) as (user & Hu & Htok & _).
    exists user. split; [done|]. split; [by rewrite safe_log_entry_other|].
    destruct (Htok a) as (token & Ha & Hk). rewrite Hanon in Ha. by injection Ha as <-. }
  destruct (log_event_cases self amb event_type user_data content additional_data fs)
    as [(e & Hb & ->)|(entry & Hb & [(Hraw & ->)|[(_ & Henc & ->)|(_ & _ & id & Hid & ->)]])];
    cbn [fst snd raw encrypted keys denied].
  - split; [done|]. apply build_entry_Raise in Hb as (_ & b & Hb1 & Hb2 & Hb3). split.
    + intros e' [= <-]. split; [by left|]. intros ->.
      exists b. split; [|done]. intros ->. rewrite Hget in Hb2. done.
    + intros Htexts _ _. exfalso.
      destruct (Htexts b Hb1) as [Hfalse|[s Hs]]; [congruence|by apply (Hb3 s)].
  - split; [done|]. split; [|by intros _ ? _]. intros e' [= <-]. split; [by left|]. done.
  - split; [done|]. split; [|by intros _ _ ?]. intros e' [= <-]. split; [|done]. right.
    destruct (Huser entry Hb) as (user & _ & Hs & Hk). by exists entry, user.
  - split; [|split; [done|by exists id]]. intros event_id _.
    destruct (Huser entry Hb) as (user & Hu & Hs & Hk). by exists entry, user.
Qed.

End Writing.

Section Reading.
Context {F : Fernet} {J : Json} {R : Repr}.

Lemma decrypt_records_omap (self : SecureLogger) (records : list string) :
  decrypt_records self records = omap (decode_record self) records.
Proof.
  induction records as [|r records IH]; [done|].
  cbn [decrypt_records omap list_omap]. unfold decode_record at 1.
  destruct (String.eqb (bytes_strip r) ""); cbn [negb]; [done|].
  destruct (decrypt (fernet_ self) r) as [d|]; [|done].
  destruct (loads d); [by rewrite IH|done].
Qed.

Lemma partition_of_app (l1 l2 : list string) :
  partition_of (l1 ++ l2) = partition_of l1 +:+ partition_of l2.
Proof.
  induction l1 as [|r l1 IH]; [done|].
  cbn [app partition_of]. by rewrite IH, !app_assoc_s.
Qed.

(** Reading an encrypted partition made of framed records. *)
Lemma read_partition (self : SecureLogger) (date_str : string) (fs : FS)
    (records : list string) :
  encrypted fs !! encrypted_name date_str = Some (partition_of records) ->
  encrypted_file date_str ∉ denied fs ->
  Forall (fun r => framed r = true) records ->
  read_logs self date_str true fs = Ok (omap (decode_record self) records).
Proof.
  intros Hfile Hopen Hframed. unfold read_logs. rewrite Hfile.
  rewrite bool_decide_eq_false_2 by done.
  rewrite split_partition by done. rewrite decrypt_records_omap, omap_app.
  cbn [omap list_omap]. unfold decode_record at 2. cbn. by rewrite app_nil_r.
Qed.

(** On the encrypted stream nothing but the opening of the partition can
    make [read_logs] raise. *)
Lemma read_logs_encrypted_total (self : SecureLogger) (date_str : string) (fs : FS) :
  (exists logs, read_logs self date_str true fs = Ok logs)
  \/ (read_logs self date_str true fs = Raise PermissionError
      /\ encrypted_file date_str ∈ denied fs).
Proof.
  unfold read_logs. destruct (encrypted fs !! encrypted_name date_str); [|by left; eexists].
  destruct (bool_decide_reflect (encrypted_file date_str ∈ denied fs));
    [by right|by left; eexists].
Qed.

(** On the redacted stream a line that has a visible character and does
    not parse makes the loop raise, whatever the lines around it. *)
Lemma parse_lines_malformed (before after : list string) (line : string) :
  str_strip line <> EmptyString -> loads line = None ->
  parse_lines (before ++ line :: after) = Raise JSONDecodeError.
Proof.
  intros Hvisible Hbad. induction before as [|l before IH].
  - cbn [app parse_lines]. destruct (String.eqb_spec (str_strip line) ""); [done|].
    cbn [negb]. by rewrite Hbad.
  - cbn [app parse_lines]. destruct (negb _); [|exact IH].
    destruct (loads l); [|done]. by rewrite IH.
Qed.

Lemma read_logs_redacted_malformed (self : SecureLogger) (date_str : string) (fs : FS)
    (before after : list string) (line : string) :
  raw fs !! raw_name date_str = Some (lines_of (before ++ line :: after)) ->
  raw_file date_str ∉ denied fs ->
  Forall (fun l => newline_free l = true) (before ++ line :: after) ->
  str_strip (line +:+ String LF EmptyString) <> EmptyString ->
  loads (line +:+ String LF EmptyString) = None ->
  read_logs self date_str false fs = Raise JSONDecodeError.
Proof.
  intros Hfile Hopen Hlines Hvisible Hbad. unfold read_logs. rewrite Hfile.
  rewrite bool_decide_eq_false_2 by done.
  rewrite text_lines_of by done. rewrite fmap_app, fmap_cons.
  by apply parse_lines_malformed.
Qed.

Context {FL : FernetLaws F} {JL : JsonLaws J}.

Lemma decode_record_token (self : SecureLogger) (fresh : string) (b : bool) (v : value) :
  decode_record self (encrypt (fernet_ self) fresh (dumps b v)) = Some v.
Proof.
  unfold decode_record.
  destruct (String.eqb_spec (bytes_strip (encrypt (fernet_ self) fresh (dumps b v))) "")
    as [Hblank|_].
  - exfalso. revert Hblank. apply token_has_text;
      [apply encrypt_alphabet|apply encrypt_nonempty].
  - by rewrite decrypt_encrypt, loads_dumps.
Qed.

(** C5.  Whatever an encrypted partition holds, [read_logs] with
    [decrypt=True] returns the entries of the chunks that the separator
    delimits and that decrypt and parse, in the order of the chunks; a
    chunk that does not is passed over and the read goes on.  The chunks
    of a partition made of framed records followed by a last piece that
    no separator ends, such as a truncated record, are those records and
    that piece.  In particular one corrupted chunk among two records
    written by the logger, before, between or after them, leaves the two
    entries in their order, also when a truncated record follows. *)
Theorem read_logs_skips_corrupted (self : SecureLogger) (date_str : string) (fs : FS) :
  encrypted_file date_str ∉ denied fs ->
  (forall content,
     encrypted fs !! encrypted_name date_str = Some content ->
     read_logs self date_str true fs
     = Ok (omap (decode_record self) (split RECORD_SEP content)))
  /\ (forall records tail,
        encrypted fs !! encrypted_name date_str = Some (partition_of records +:+ tail) ->
        Forall (fun r => framed r = true) records ->
        sep_free RECORD_SEP (String.length tail) tail = true ->
        split RECORD_SEP (partition_of records +:+ tail) = records ++ [tail]
        /\ read_logs self date_str true fs
           = Ok (omap (decode_record self) records ++ omap (decode_record self) [tail]))
  /\ (forall records,
        encrypted fs !! encrypted_name date_str = Some (partition_of records) ->
        Forall (fun r => framed r = true) records ->
        read_logs self date_str true fs = Ok (omap (decode_record self) records))
  /\ (forall (e1 e3 : value) (fresh1 fresh3 corrupted : string) (chunks : list string),
        framed corrupted = true ->
        decode_record self corrupted = None ->
        let valid1 := encrypt (fernet_ self) fresh1 (dumps false e1) in
        let valid3 := encrypt (fernet_ self) fresh3 (dumps false e3) in
        chunks = [corrupted; valid1; valid3] \/ chunks = [valid1; corrupted; valid3]
        \/ chunks = [valid1; valid3; corrupted] ->
        (encrypted fs !! encrypted_name date_str = Some (partition_of chunks) ->
         read_logs self date_str true fs = Ok [e1; e3])
        /\ (forall truncated,
              sep_free RECORD_SEP (String.length truncated) truncated = true ->
              decode_record self truncated = None ->
              encrypted fs !! encrypted_name date_str
                = Some (partition_of chunks +:+ truncated) ->
              read_logs self date_str true fs = Ok [e1; e3])).
Proof.
  intros Hopen.
  assert (forall content,
            encrypted fs !! encrypted_name date_str = Some content ->
            read_logs self date_str true fs
            = Ok (omap (decode_record self) (split RECORD_SEP content))) as Hall.
  { intros content Hfile. unfold read_logs. rewrite Hfile.
    rewrite bool_decide_eq_false_2 by done. by rewrite decrypt_records_omap. }
  assert (forall records tail,
            encrypted fs !! encrypted_name date_str = Some (partition_of records +:+ tail) ->
            Forall (fun r => framed r = true) records ->
            sep_free RECORD_SEP (String.length tail) tail = true ->
            read_logs self date_str true fs
            = Ok (omap (decode_record self) records ++ omap (decode_record self) [tail]))
    as Htail.
  { intros records tail Hfile Hframed Hfree. rewrite (Hall _ Hfile).
    by rewrite split_partition_tail, omap_app. }
  assert (forall records,
            encrypted fs !! encrypted_name date_str = Some (partition_of records) ->
            Forall (fun r => framed r = true) records ->
            read_logs self date_str true fs = Ok (omap (decode_record self) records))
    as Hrecords.
  { intros records Hfile Hframed. by apply read_partition. }
  split; [exact Hall|]. split; [|split; [exact Hrecords|]].
  - intros records tail Hfile Hframed Hfree.
    split; [by apply split_partition_tail|by apply Htail].
  - intros e1 e3 fresh1 fresh3 corrupted chunks Hchunk Hbad valid1 valid3 Hcases.
    assert (Forall (fun r => framed r = true) chunks) as Hframed.
    { assert (framed valid1 = true) by apply token_framed, encrypt_alphabet.
      assert (framed valid3 = true) by apply token_framed, encrypt_alphabet.
      destruct Hcases as [->|[->| ->]]; by repeat constructor. }
    assert (omap (decode_record self) chunks = [e1; e3]) as Hvalid.
    { destruct Hcases as [->|[->| ->]]; cbn [omap list_omap]; unfold valid1, valid3;
        by rewrite !decode_record_token, Hbad. }
    split.
    + intros Hfile. by rewrite (Hrecords _ Hfile Hframed), Hvalid.
    + intros truncated Hfree Htrunc Hfile.
      rewrite (Htail _ _ Hfile Hframed Hfree), Hvalid.
      cbn [omap list_omap]. by rewrite Htrunc.
Qed.


(** C1, as amended.  After a successful [log_event] on a partition made
    of framed records, [read_logs] of the day with [decrypt=True] returns
    what it returned before followed by the new entry.  A non-empty
    [content] is stored as a token that decrypts to it, and a non-empty
    [additional_data] as a token that decrypts to a text that parses to
    it; an empty content and an empty or absent mapping are stored as the
    empty text.  The partition is again made of framed records. *)
Theorem log_event_read_back (self : SecureLogger) (amb : ambient)
    (event_type : string) (user_data : gmap string value) (content : string)
    (additional_data : option (gmap string value)) (fs fs' : FS)
    (event_id : value) (records : list string) :
  default EmptyString (encrypted fs !! encrypted_name (strftime_date (now amb)))
    = partition_of records ->
  Forall (fun r => framed r = true) records ->
  log_event self amb event_type user_data content additional_data fs = (Ok event_id, fs') ->
  exists (entry : gmap string value) (record : string),
    read_logs self (strftime_date (now amb)) true fs'
      = Ok (omap (decode_record self) records ++ [VDict entry])
    /\ encrypted fs' !! encrypted_name (strftime_date (now amb))
         = Some (partition_of (records ++ [record]))
    /\ framed record = true
    /\ (content <> EmptyString ->
        exists token, entry !! "content"%string = Some (VStr token)
          /\ decrypt (fernet_ self) token = Some content)
    /\ (forall d, additional_data = Some d -> d <> ∅ ->
        exists token, entry !! "additional_data"%string = Some (VStr token)
          /\ (decrypt (fernet_ self) token ≫= loads) = Some (VDict d))
    /\ (content = EmptyString -> entry !! "content"%string = Some (VStr ""))
    /\ (additional_data = None \/ additional_data = Some ∅ ->
        entry !! "additional_data"%string = Some (VStr "")).
Proof.
  intros Hold Hframed Hcall.
  destruct (log_event_cases self amb event_type user_data content additional_data fs)
    as [(e & _ & Heq)|(entry & Hb & [(_ & Heq)|[(_ & _ & Heq)|(_ & Henc & id & _ & Heq)]])];
    rewrite Heq in Hcall; try done.
  injection Hcall as <- <-.
  set (record := encrypt (fernet_ self) (fresh_record amb) (dumps false (VDict entry))).
  assert (framed record = true) as Hrec by apply token_framed, encrypt_alphabet.
  assert (sealed self amb entry fs !! encrypted_name (strftime_date (now amb))
          = Some (partition_of (records ++ [record]))) as Hnew.
  { unfold sealed, appended. rewrite lookup_insert_eq, Hold, partition_of_app.
    cbn [partition_of]. by rewrite app_nil_r_s. }
  destruct (build_entry_Ok _ _ _ _ _ _ _ Hb) as (_ & _ & _ & Hc & Ha & _).
  exists entry, record. split; [|split; [exact Hnew|split; [exact Hrec|]]].
  - rewrite (read_partition self _ _ (records ++ [record])); cbn [encrypted denied];
      [|done|done|].
    + rewrite omap_app. cbn [omap list_omap]. unfold record.
      by rewrite decode_record_token.
    + apply Forall_app. split; [done|]. by constructor.
  - split; [|split; [|split]].
    + intros Hne. eexists. split; [exact Hc|].
      destruct (String.eqb_spec content ""); [done|]. cbn [negb]. apply decrypt_encrypt.
    + intros d -> Hd. eexists. split; [exact Ha|].
      assert (truthy (VDict d) = true) as ->.
      { cbn [truthy]. apply negb_true_iff, Nat.eqb_neq. by apply map_size_non_empty_iff. }
      rewrite decrypt_encrypt. cbn. apply loads_dumps.
    + intros ->. exact Hc.
    + intros [-> | ->]; exact Ha.
Qed.

End Reading.

(** ** Retention *)

Lemma elem_of_listdir (d : gmap string string) (name : string) :
  name ∈ listdir d <-> is_Some (d !! name).
Proof.
  unfold listdir. rewrite list_elem_of_fmap. split.
  - intros ([n v] & -> & Hin). apply elem_of_map_to_list in Hin. by exists v.
  - intros [v Hv]. exists (name, v). split; [done|]. by apply elem_of_map_to_list.
Qed.

Lemma listed_cons_ne (name n : string) (names : list string) :
  name <> n -> bool_decide (name ∈ n :: names) = bool_decide (name ∈ names).
Proof.
  intros Hne. apply bool_decide_ext. rewrite elem_of_cons.
  split; [by intros [?|?]|by right].
Qed.

Lemma listed_cons_eq (n : string) (names : list string) :
  bool_decide (n ∈ n :: names) = true.
Proof. apply bool_decide_eq_true_2, elem_of_cons. by left. Qed.

Lemma if_same {A} (b : bool) (x : A) : (if b then x else x) = x.
Proof. by destruct b. Qed.

(** The loop over a directory of log files, when every name that ends in
    the suffix carries a date: it completes, and a name is gone exactly
    when it was listed and is expired. *)
Lemma purge_logs_spec (suffix : string) (cutoff_date : datetime) (names : list string)
    (d : gmap string string) :
  Forall (fun n => undated_log suffix n = false) names ->
  exists d', purge_logs suffix cutoff_date names d = (Ok tt, d')
    /\ forall name, d' !! name =
         if bool_decide (name ∈ names) && expired (log_date suffix) cutoff_date name
         then None else d !! name.
Proof.
  intros Hdated. revert d.
  induction Hdated as [|n names Hn _ IH]; intros d.
  - exists d. split; [done|]. intros name.
    by rewrite bool_decide_eq_false_2 by apply not_elem_of_nil.
  - cbn [purge_logs].
    assert (forall (d0 : gmap string string) name, name <> n ->
      (if bool_decide (name ∈ names) && expired (log_date suffix) cutoff_date name
       then None else d0 !! name)
      = (if bool_decide (name ∈ n :: names) && expired (log_date suffix) cutoff_date name
         then None else d0 !! name)) as Hother.
    { intros d0 name Hne. by rewrite listed_cons_ne. }
    unfold undated_log in Hn.
    destruct (endswith suffix n) eqn:Hsuf; cbn [andb] in Hn.
    + destruct (strptime_date (hd EmptyString (split "." n))) as [file_date|] eqn:Hdate;
        [|done].
      destruct (datetime_lt file_date cutoff_date) eqn:Hlt.
      * destruct (IH (delete n d)) as (d' & -> & Hd'). exists d'. split; [done|].
        intros name. rewrite Hd'.
        destruct (decide (name = n)) as [->|Hne].
        -- rewrite lookup_delete_eq, if_same, listed_cons_eq.
           unfold expired, log_date. by rewrite Hsuf, Hdate, Hlt.
        -- rewrite lookup_delete_ne by done. by apply Hother.
      * destruct (IH d) as (d' & -> & Hd'). exists d'. split; [done|].
        intros name. rewrite Hd'.
        destruct (decide (name = n)) as [->|Hne]; [|by apply Hother].
        unfold expired, log_date. rewrite Hsuf, Hdate, Hlt. by rewrite !andb_false_r.
    + destruct (IH d) as (d' & -> & Hd'). exists d'. split; [done|].
      intros name. rewrite Hd'.
      destruct (decide (name = n)) as [->|Hne]; [|by apply Hother].
      unfold expired, log_date. rewrite Hsuf. by rewrite !andb_false_r.
Qed.

(** The loop over the directory of key files always completes. *)
Lemma purge_keys_spec (cutoff_date : datetime) (names : list string)
    (d : gmap string string) (name : string) :
  purge_keys cutoff_date names d !! name =
    if bool_decide (name ∈ names) && expired key_date cutoff_date name
    then None else d !! name.
Proof.
  revert d. induction names as [|n names IH]; intros d.
  - by rewrite bool_decide_eq_false_2 by apply not_elem_of_nil.
  - cbn [purge_keys].
    assert (forall d0 : gmap string string, name <> n ->
      purge_keys cutoff_date names d0 !! name =
      if bool_decide (name ∈ n :: names) && expired key_date cutoff_date name
      then None else d0 !! name) as Hother.
    { intros d0 Hne. by rewrite IH, listed_cons_ne. }
    destruct (startswith "key_" n && endswith ".key" n) eqn:Hpat.
    + destruct (strptime_stamp (slice 4 (String.length n - 4) n)) as [kd|] eqn:Hdate.
      * destruct (datetime_lt kd cutoff_date) eqn:Hlt.
        -- destruct (decide (name = n)) as [->|Hne].
           ++ rewrite IH, lookup_delete_eq, if_same, listed_cons_eq.
              unfold expired, key_date. by rewrite Hpat, Hdate, Hlt.
           ++ rewrite Hother by done. by rewrite lookup_delete_ne by done.
        -- destruct (decide (name = n)) as [->|Hne]; [|by apply Hother].
           rewrite IH. unfold expired, key_date. rewrite Hpat, Hdate, Hlt.
           by rewrite !andb_false_r.
      * destruct (decide (name = n)) as [->|Hne]; [|by apply Hother].
        rewrite IH. unfold expired, key_date. rewrite Hpat, Hdate. by rewrite !andb_false_r.
    + destruct (decide (name = n)) as [->|Hne]; [|by apply Hother].
      rewrite IH. unfold expired, key_date. rewrite Hpat. by rewrite !andb_false_r.
Qed.

Lemma listed_or_absent (d : gmap string string) (name : string) (b : bool) :
  (if bool_decide (name ∈ listdir d) && b then None else d !! name)
  = (if b then None else d !! name).
Proof.
  destruct (bool_decide_reflect (name ∈ listdir d)) as [Hin|Hout]; [done|].
  cbn [andb]. destruct b; [|done].
  destruct (d !! name) eqn:Hd; [|done].
  exfalso. apply Hout, elem_of_listdir. by rewrite Hd.
Qed.

(** What [cleanup_old_logs] does when every log file carries a date. *)
Lemma cleanup_spec (t : datetime) (days : Z) (fs : FS) (cutoff_date : datetime) :
  cutoff t days = Ok cutoff_date ->
  (forall name, is_Some (raw fs !! name) -> undated_log ".ndjson" name = false) ->
  (forall name, is_Some (encrypted fs !! name) -> undated_log ".enc" name = false) ->
  exists fs', cleanup_old_logs t days fs = (Ok tt, fs')
    /\ (forall name, raw fs' !! name =
          if expired (log_date ".ndjson") cutoff_date name then None else raw fs !! name)
    /\ (forall name, encrypted fs' !! name =
          if expired (log_date ".enc") cutoff_date name then None else encrypted fs !! name)
    /\ (forall name, keys fs' !! name =
          if expired key_date cutoff_date name then None else keys fs !! name)
    /\ denied fs' = denied fs.
Proof.
  intros Hcut Hraw Henc. unfold cleanup_old_logs. rewrite Hcut.
  destruct (purge_logs_spec ".ndjson" cutoff_date (listdir (raw fs)) (raw fs))
    as (raw' & -> & Hraw').
  { apply Forall_forall. intros n Hn. by apply Hraw, elem_of_listdir. }
  destruct (purge_logs_spec ".enc" cutoff_date (listdir (encrypted fs)) (encrypted fs))
    as (enc' & -> & Henc').
  { apply Forall_forall. intros n Hn. by apply Henc, elem_of_listdir. }
  eexists. split; [done|]. cbn [raw encrypted keys denied].
  split; [|split; [|split; [|done]]]; intros name.
  - by rewrite Hraw', listed_or_absent.
  - by rewrite Henc', listed_or_absent.
  - by rewrite purge_keys_spec, listed_or_absent.
Qed.

(** An undated name stops the loop over a directory of log files: the
    names after it are not looked at. *)
Lemma purge_logs_undated (suffix : string) (cutoff_date : datetime) (n : string)
    (names : list string) (d : gmap string string) :
  undated_log suffix n = true ->
  purge_logs suffix cutoff_date (n :: names) d = (Raise ValueError, d).
Proof.
  unfold undated_log. cbn [purge_logs].
  destruct (endswith suffix n); [|done].
  by destruct (strptime_date (hd EmptyString (split "." n))).
Qed.

(** ** The reference cipher *)

Lemma chr_byte_of (a : ascii) : Ref.chr (byte_of a) = a.
Proof. unfold Ref.chr, byte_of. by rewrite N2Z.id, ascii_N_embedding. Qed.

Lemma hex_value_digit (n : Z) :
  0 <= n < 16 -> Ref.hex_value (SHA256.hex_digit n) = Some n.
Proof. revert n. apply (range_cases _ 0 16). repeat constructor. Qed.

Lemma byte_nibbles (a : ascii) :
  0 <= byte_of a / 16 < 16 /\ 0 <= byte_of a mod 16 < 16
  /\ 16 * (byte_of a / 16) + byte_of a mod 16 = byte_of a.
Proof.
  pose proof (byte_of_range a) as Ha.
  pose proof (Z.div_mod (byte_of a) 16 ltac:(lia)) as Hdm.
  pose proof (Z.mod_pos_bound (byte_of a) 16 ltac:(lia)).
  split; [|split; [done|lia]].
  split; [apply Z.div_pos; lia|apply Z.div_lt_upper_bound; lia].
Qed.

Lemma hex_decode_encode (s : string) : Ref.hex_decode (Ref.hex_encode s) = Some s.
Proof.
  induction s as [|a s IH]; [done|].
  cbn [Ref.hex_encode Ref.hex_decode].
  destruct (byte_nibbles a) as (Hhi & Hlo & Hsum).
  rewrite !hex_value_digit, IH, Hsum, chr_byte_of by done. done.
Qed.

Lemma hex_encode_hex (s : string) : string_forallb is_hex (Ref.hex_encode s) = true.
Proof.
  induction s as [|a s IH]; [done|].
  cbn [Ref.hex_encode string_forallb].
  destruct (byte_nibbles a) as (Hhi & Hlo & _).
  by rewrite !hex_digit_hex, IH.
Qed.

Lemma is_hex_b64url (a : ascii) : is_hex a = true -> b64url_char a = true.
Proof.
  unfold is_hex, b64url_char. cbv zeta. intros H. bool_to_Z; Z_to_bool; lia.
Qed.

Lemma is_hex_not_underscore (a : ascii) :
  is_hex a = true -> negb (Ascii.eqb a "_") = true.
Proof.
  intros H. apply negb_true_iff, Ascii.eqb_neq. intros ->. by vm_compute in H.
Qed.

Lemma split_go_single (a : ascii) (sep s : string) :
  string_forallb (fun c => negb (Ascii.eqb c a)) s = true ->
  split_go (String a sep) 0 s = [s].
Proof.
  induction s as [|x s IH]; [done|].
  cbn [string_forallb split_go]. intros [Hx Hs]%andb_true_iff.
  apply negb_true_iff, Ascii.eqb_neq in Hx.
  rewrite prefix_head by congruence. by rewrite IH.
Qed.

Lemma hex_encode_no_underscore (s : string) :
  string_forallb (fun c => negb (Ascii.eqb c "_")) (Ref.hex_encode s) = true.
Proof.
  eapply forallb_impl_s; [|apply hex_encode_hex]. apply is_hex_not_underscore.
Qed.

Lemma split_seal (k fresh data : string) :
  split "_" (Ref.seal k fresh data)
  = [Ref.hex_encode k +:+ "-" +:+ Ref.hex_encode fresh +:+ "-" +:+ Ref.hex_encode data;
     Ref.hex_encode fresh; Ref.hex_encode data].
Proof.
  unfold split, Ref.seal.
  replace (Ref.hex_encode k +:+ "-" +:+ Ref.hex_encode fresh +:+ "-"
           +:+ Ref.hex_encode data +:+ "_" +:+ Ref.hex_encode fresh +:+ "_"
           +:+ Ref.hex_encode data)
    with ((Ref.hex_encode k +:+ "-" +:+ Ref.hex_encode fresh +:+ "-"
           +:+ Ref.hex_encode data) +:+ "_" +:+ Ref.hex_encode fresh +:+ "_"
          +:+ Ref.hex_encode data) by (by rewrite !app_assoc_s).
  rewrite split_go_framed; [|done|].
  - rewrite split_go_framed; [|done|apply sep_free_no_head, hex_encode_no_underscore].
    by rewrite split_go_single by apply hex_encode_no_underscore.
  - apply sep_free_no_head.
    rewrite !forallb_app_s, !hex_encode_no_underscore. done.
Qed.

Lemma unseal_seal (k fresh data : string) :
  Ref.unseal k (Ref.seal k fresh data) = Some data.
Proof.
  unfold Ref.unseal. rewrite split_seal, !hex_decode_encode. by rewrite String.eqb_refl.
Qed.

Lemma hex_encode_inj (s t : string) : Ref.hex_encode s = Ref.hex_encode t -> s = t.
Proof.
  intros H. apply (f_equal Ref.hex_decode) in H.
  rewrite !hex_decode_encode in H. by injection H.
Qed.

(** A token opens under no other key than the one it was sealed with. *)
Lemma unseal_other_key (k k' fresh data : string) :
  k <> k' -> Ref.unseal k' (Ref.seal k fresh data) = None.
Proof.
  intros Hne. unfold Ref.unseal. rewrite split_seal, !hex_decode_encode.
  destruct (String.eqb_spec (Ref.seal k fresh data) (Ref.seal k' fresh data)) as [Heq|_];
    [|done].
  unfold Ref.seal in Heq. apply app_inv_tail_s, hex_encode_inj in Heq. done.
Qed.

(** What opens under a key is a token sealed with it, for the payload
    returned. *)
Lemma unseal_genuine (k token data : string) :
  Ref.unseal k token = Some data -> exists fresh, token = Ref.seal k fresh data.
Proof.
  unfold Ref.unseal. destruct (split "_" token) as [|? [|hf [|hd [|? ?]]]]; try done.
  destruct (Ref.hex_decode hf) as [fresh|]; [|done].
  destruct (Ref.hex_decode hd) as [d|]; [|done].
  destruct (String.eqb_spec token (Ref.seal k fresh d)) as [->|]; [|done].
  intros [= <-]. by exists fresh.
Qed.

Lemma seal_alphabet (k fresh data : string) :
  string_forallb b64url_char (Ref.seal k fresh data) = true.
Proof.
  assert (forall s, string_forallb b64url_char (Ref.hex_encode s) = true) as Hhex.
  { intros s. eapply forallb_impl_s; [|apply hex_encode_hex]. apply is_hex_b64url. }
  unfold Ref.seal. rewrite !forallb_app_s, !Hhex. done.
Qed.

Lemma seal_nonempty (k fresh data : string) : Ref.seal k fresh data <> EmptyString.
Proof.
  unfold Ref.seal. intros H. apply (f_equal String.length) in H.
  rewrite !length_app_s in H. cbn in H. lia.
Qed.

Lemma ref_fernet_laws : FernetLaws Ref.ref_fernet.
Proof.
  split; intros f fresh data.
  - apply unseal_seal.
  - apply seal_alphabet.
  - apply seal_nonempty.
Qed.

(** ** The reference JSON codec *)

(** Induction on values, with the hypothesis for the members of lists and
    of dicts. *)
Lemma list_sum_elem (f : value -> nat) (l : list value) (x : value) :
  x ∈ l -> (f x <= list_sum (f <$> l))%nat.
Proof.
  induction 1 as [x l|x y l _ IH]; rewrite fmap_cons; simpl; lia.
Qed.

Lemma map_fold_elem (d : gmap string value) (k : string) (x : value) :
  d !! k = Some x ->
  (value_size x <= map_fold (fun _ x acc => (value_size x + acc)%nat) 0%nat d)%nat.
Proof.
  rewrite map_fold_foldr. intros Hk%elem_of_map_to_list.
  induction (map_to_list d) as [|[k' x'] l IH]; [by apply elem_of_nil in Hk|].
  apply elem_of_cons in Hk as [[= <- <-]|Hk]; cbn [foldr uncurry]; [lia|].
  specialize (IH Hk). lia.
Qed.

Lemma value_ind' (P : value -> Prop) :
  P VNone -> (forall b, P (VBool b)) -> (forall z, P (VInt z)) -> (forall s, P (VStr s)) ->
  (forall l, Forall P l -> P (VList l)) ->
  (forall d : gmap string value, map_Forall (fun _ => P) d -> P (VDict d)) ->
  forall v, P v.
Proof.
  intros HN HB HI HS HL HD.
  assert (forall n v, (value_size v < n)%nat -> P v) as Hall.
  { induction n as [|n IH]; intros v Hv; [lia|].
    destruct v as [|b|z|s|l|d]; auto.
    - apply HL, Forall_forall. intros x Hx. apply IH.
      pose proof (list_sum_elem value_size l x Hx).
      change (value_size (VList l)) with (S (list_sum (value_size <$> l))) in Hv. lia.
    - apply HD. intros k x Hk. apply IH.
      pose proof (map_fold_elem d k x Hk).
      change (value_size (VDict d))
        with (S (map_fold (fun _ x acc => (value_size x + acc)%nat) 0%nat d)) in Hv. lia. }
  intros v. apply (Hall (S (value_size v))). lia.
Qed.

(** Characters. *)
Lemma ascii_eqb_false (p : ascii -> bool) (a c : ascii) :
  p a = true -> p c = false -> Ascii.eqb a c = false.
Proof. intros Ha Hc. apply Ascii.eqb_neq. intros ->. congruence. Qed.

Lemma num_char_cases (a : ascii) :
  Ref.num_char a = true ->
  Ascii.eqb a "n" = false /\ Ascii.eqb a "t" = false /\ Ascii.eqb a "f" = false
  /\ Ascii.eqb a Ref.QUOTE = false /\ Ascii.eqb a "[" = false /\ Ascii.eqb a "{" = false.
Proof.
  intros Ha. repeat split; by apply (ascii_eqb_false Ref.num_char).
Qed.

Lemma starter_cases (a : ascii) :
  Ref.starter a = true ->
  Ref.json_isspace a = false /\ Ascii.eqb a "]" = false /\ Ascii.eqb a "}" = false
  /\ is_visible a = true.
Proof.
  destruct a as [[] [] [] [] [] [] [] []]; vm_compute; intros; try done; by repeat split.
Qed.

Lemma skip_ws_starter (a : ascii) (s : string) :
  Ref.starter a = true -> Ref.skip_ws (String a s) = String a s.
Proof. intros (Ha & _)%starter_cases. cbn [Ref.skip_ws]. by rewrite Ha. Qed.

(** String literals. *)
Lemma parse_string_escape (s rest : string) :
  Ref.parse_string (Ref.escape s +:+ String Ref.QUOTE rest) = Some (s, rest).
Proof.
  induction s as [|a s IH]; [done|].
  cbn [Ref.escape].
  destruct (Ascii.eqb a Ref.QUOTE) eqn:Hq.
  { apply Ascii.eqb_eq in Hq as ->.
    change (Ref.parse_string
      (String Ref.BACKSLASH (String Ref.QUOTE (Ref.escape s +:+ String Ref.QUOTE rest)))
      = Some (String Ref.QUOTE s, rest)).
    cbn [Ref.parse_string]. change (Ascii.eqb Ref.BACKSLASH Ref.QUOTE) with false.
    change (Ascii.eqb Ref.BACKSLASH Ref.BACKSLASH) with true.
    change (Ascii.eqb Ref.QUOTE "u") with false. cbv iota.
    change (Ref.unescape_char Ref.QUOTE) with (Some Ref.QUOTE). by rewrite IH. }
  destruct (Ascii.eqb a Ref.BACKSLASH) eqn:Hb.
  { apply Ascii.eqb_eq in Hb as ->.
    change (Ref.parse_string
      (String Ref.BACKSLASH (String Ref.BACKSLASH (Ref.escape s +:+ String Ref.QUOTE rest)))
      = Some (String Ref.BACKSLASH s, rest)).
    cbn [Ref.parse_string]. change (Ascii.eqb Ref.BACKSLASH Ref.QUOTE) with false.
    change (Ascii.eqb Ref.BACKSLASH Ref.BACKSLASH) with true.
    change (Ascii.eqb Ref.BACKSLASH "u") with false. cbv iota.
    change (Ref.unescape_char Ref.BACKSLASH) with (Some Ref.BACKSLASH). by rewrite IH. }
  destruct (byte_of a <? 32) eqn:Hc.
  { apply Z.ltb_lt in Hc.
    destruct (byte_nibbles a) as (Hhi & Hlo & Hsum).
    match goal with |- Ref.parse_string (?e +:+ _) = _ =>
      change (Ref.parse_string
        (String Ref.BACKSLASH (String "u" (String "0" (String "0"
           (String (SHA256.hex_digit (byte_of a / 16))
           (String (SHA256.hex_digit (byte_of a mod 16))
              (Ref.escape s +:+ String Ref.QUOTE rest)))))))
        = Some (String a s, rest)) end.
    cbn [Ref.parse_string]. change (Ascii.eqb Ref.BACKSLASH Ref.QUOTE) with false.
    change (Ascii.eqb Ref.BACKSLASH Ref.BACKSLASH) with true.
    change (Ascii.eqb "u" "u") with true. cbv iota.
    change (Ref.hex_value "0") with (Some 0).
    rewrite !hex_value_digit by done. cbv iota.
    assert ((byte_of a / 16 <? 8) = true) as ->.
    { apply Z.ltb_lt. apply Z.div_lt_upper_bound; lia. }
    by rewrite IH, Hsum, chr_byte_of. }
  change (Ref.parse_string (String a (Ref.escape s +:+ String Ref.QUOTE rest))
          = Some (String a s, rest)).
  cbn [Ref.parse_string]. by rewrite Hq, Hb, Hc, IH.
Qed.

Lemma parse_string_quote (s rest : string) :
  exists t, Ref.quote s +:+ rest = String Ref.QUOTE t
    /\ Ref.parse_string t = Some (s, rest).
Proof.
  exists (Ref.escape s +:+ String Ref.QUOTE rest). split.
  - unfold Ref.quote.
    change (String Ref.QUOTE ((Ref.escape s +:+ String Ref.QUOTE EmptyString) +:+ rest)
            = String Ref.QUOTE (Ref.escape s +:+ String Ref.QUOTE rest)).
    by rewrite app_assoc_s.
  - apply parse_string_escape.
Qed.

(** Numbers. *)
Lemma span_num_app (t rest : string) :
  string_forallb Ref.num_char t = true -> Ref.ok_rest rest = true ->
  Ref.span_num (t +:+ rest) = (t, rest).
Proof.
  intros Ht Hrest. induction t as [|a t IH].
  - destruct rest as [|b rest]; [done|]. cbn [Ref.ok_rest] in Hrest.
    apply negb_true_iff in Hrest.
    change (EmptyString +:+ String b rest) with (String b rest).
    cbn [Ref.span_num]. by rewrite Hrest.
  - cbn [string_forallb] in Ht. apply andb_true_iff in Ht as [Ha Ht].
    change (String a t +:+ rest) with (String a (t +:+ rest)).
    cbn [Ref.span_num]. by rewrite Ha, (IH Ht).
Qed.

Lemma uint_digits (d : Decimal.uint) :
  string_forallb Ref.num_char (NilEmpty.string_of_uint d) = true.
Proof. induction d; cbn; done. Qed.

Lemma print_int_digits (z : Z) : string_forallb Ref.num_char (Ref.print_int z) = true.
Proof.
  unfold Ref.print_int, NilZero.string_of_int, NilZero.string_of_uint.
  destruct (Z.to_int z) as [d|d]; destruct d; cbn [string_forallb];
    try done; try apply uint_digits;
    try (change (Ref.num_char "-") with true; cbn [andb]; apply uint_digits).
Qed.

Lemma to_int_not_nil (z : Z) : Z.to_int z <> Decimal.Pos Decimal.Nil
                               /\ Z.to_int z <> Decimal.Neg Decimal.Nil.
Proof.
  split; intros H; pose proof (DecimalZ.of_to z) as Hz; rewrite H in Hz;
    cbn in Hz; subst z; discriminate H.
Qed.

Lemma parse_int_print (z : Z) (rest : string) :
  Ref.ok_rest rest = true ->
  Ref.parse_int (Ref.print_int z +:+ rest) = Some (z, rest).
Proof.
  intros Hrest. unfold Ref.parse_int.
  rewrite span_num_app by (done || apply print_int_digits). cbn [fst snd].
  unfold Ref.print_int. destruct (to_int_not_nil z) as [Hp Hn].
  by rewrite NilZero.isi, DecimalZ.of_to.
Qed.

Lemma print_int_head (z : Z) :
  exists a t, Ref.print_int z = String a t /\ Ref.num_char a = true.
Proof.
  pose proof (print_int_digits z) as Hd.
  destruct (Ref.print_int z) as [|a t] eqn:Hz.
  - exfalso. unfold Ref.print_int in Hz. destruct (to_int_not_nil z) as [Hp Hn].
    pose proof (NilZero.isi _ Hp Hn) as Hisi. by rewrite Hz in Hisi.
  - exists a, t. split; [done|]. cbn in Hd. by apply andb_true_iff in Hd as [-> _].
Qed.

(** The text of a value starts with a starter. *)
Lemma print_head (v : value) :
  exists a t, Ref.print v = String a t /\ Ref.starter a = true.
Proof.
  destruct v as [|[]|z|s|l|d]; cbn [Ref.print]; try by eexists _, _.
  destruct (print_int_head z) as (a & t & -> & Ha). exists a, t. split; [done|].
  unfold Ref.starter. by rewrite Ha.
Qed.

Lemma skip_ws_print (v : value) (rest : string) :
  Ref.skip_ws (Ref.print v +:+ rest) = Ref.print v +:+ rest.
Proof.
  destruct (print_head v) as (a & t & -> & Ha).
  change (String a t +:+ rest) with (String a (t +:+ rest)). by apply skip_ws_starter.
Qed.

Lemma join_items_head (close : ascii) (x : string) (items : list string) :
  exists tail, Ref.join_items close (x :: items) = x +:+ tail.
Proof. cbn [Ref.join_items]. destruct items; eauto. Qed.

Lemma skip_ws_blank (s : string) : Ref.skip_ws (String " " s) = Ref.skip_ws s.
Proof. done. Qed.

Lemma join_items_nonempty (close : ascii) (items : list string) :
  (1 <= String.length (Ref.join_items close items))%nat.
Proof.
  destruct items as [|x [|y items]]; cbn [Ref.join_items];
    rewrite ?length_app_s; cbn [String.length]; lia.
Qed.

Lemma parse_items_print (l : list value) :
  Forall Ref.reads_back l -> l <> [] ->
  forall (s rest : string) (fuel : nat),
    Ref.skip_ws s = Ref.join_items "]" (Ref.print <$> l) +:+ rest ->
    (String.length (Ref.join_items "]" (Ref.print <$> l)) <= fuel)%nat ->
    Ref.parse_items fuel s = Some (l, rest).
Proof.
  induction 1 as [|x l Hx Hl IH]; [done|]. intros _ s rest fuel Hs Hfuel.
  destruct fuel as [|f].
  { pose proof (join_items_nonempty "]" (Ref.print <$> x :: l)). lia. }
  rewrite fmap_cons in Hs, Hfuel. cbn [Ref.join_items] in Hs, Hfuel.
  cbn [Ref.parse_items].
  destruct l as [|y l].
  - cbn [fmap list_fmap] in Hs, Hfuel. rewrite app_assoc_s in Hs.
    rewrite length_app_s in Hfuel. cbn [String.length] in Hfuel.
    rewrite (Hx s _ f Hs) by (done || lia).
    change (String "]" EmptyString +:+ rest) with (String "]" rest).
    cbn [Ref.skip_ws]. change (Ref.json_isspace "]") with false. cbv iota.
    done.
  - rewrite fmap_cons in Hs, Hfuel. rewrite fmap_cons in IH.
    rewrite !app_assoc_s in Hs. rewrite !length_app_s in Hfuel.
    cbn [String.length] in Hfuel.
    rewrite (Hx s _ f Hs) by (done || lia).
    match goal with |- context [Ref.skip_ws (", " +:+ ?rest')] =>
      change (", " +:+ rest') with (String "," (String " " rest')) end.
    cbn [Ref.skip_ws]. change (Ref.json_isspace ",") with false. cbv iota.
    change (Ascii.eqb "," ",") with true. cbv iota.
    erewrite IH; [done|done| |lia].
    rewrite skip_ws_blank.
    destruct (join_items_head "]" (Ref.print y) (Ref.print <$> l)) as (tail & ->).
    rewrite app_assoc_s. apply skip_ws_print.
Qed.

Lemma print_member_length (k t : string) :
  (String.length t + 2 <= String.length (Ref.print_member (k, t)))%nat.
Proof.
  unfold Ref.print_member. cbn [fst snd]. rewrite !length_app_s. cbn [String.length]. lia.
Qed.

Lemma skip_ws_member (kv : string * string) (rest : string) :
  Ref.skip_ws (Ref.print_member kv +:+ rest) = Ref.print_member kv +:+ rest.
Proof. done. Qed.

Lemma print_member_head (kv : string * string) (rest : string) :
  exists u, Ref.print_member kv +:+ rest = String Ref.QUOTE u.
Proof. unfold Ref.print_member, Ref.quote. eexists. reflexivity. Qed.

Lemma parse_members_print (l : list (string * value)) :
  Forall (fun kv => Ref.reads_back (snd kv)) l -> l <> [] ->
  forall (s rest : string) (fuel : nat),
    Ref.skip_ws s
      = Ref.join_items "}" (Ref.print_member <$> (prod_map id Ref.print <$> l)) +:+ rest ->
    (String.length (Ref.join_items "}" (Ref.print_member <$> (prod_map id Ref.print <$> l)))
       <= fuel)%nat ->
    Ref.parse_members fuel s = Some (l, rest).
Proof.
  induction 1 as [|[k x] l Hx Hl IH]; [done|]. intros _ s rest fuel Hs Hfuel.
  destruct fuel as [|f].
  { pose proof (join_items_nonempty "}"
      (Ref.print_member <$> (prod_map id Ref.print <$> (k, x) :: l))). lia. }
  rewrite !fmap_cons in Hs, Hfuel. cbn [Ref.join_items] in Hs, Hfuel.
  cbn [prod_map fst snd id] in Hs, Hfuel, Hx.
  unfold Ref.print_member in Hs at 1. unfold Ref.print_member in Hfuel at 1.
  cbn [fst snd] in Hs, Hfuel.
  cbn [Ref.parse_members].
  assert (forall tail,
    Ref.skip_ws s = (Ref.quote k +:+ ": " +:+ Ref.print x) +:+ tail ->
    (String.length (Ref.print x) <= f)%nat -> Ref.ok_rest tail = true ->
    exists r3, Ref.skip_ws r3 = Ref.skip_ws tail /\ r3 = tail /\
    match Ref.skip_ws s with
    | EmptyString => None
    | String q r =>
        if Ascii.eqb q Ref.QUOTE then
          match Ref.parse_string r with
          | Some (k0, r1) =>
              match Ref.skip_ws r1 with
              | EmptyString => None
              | String c r2 =>
                  if Ascii.eqb c ":" then
                    match Ref.parse f r2 with
                    | Some (v, r3) =>
                        match Ref.skip_ws r3 with
                        | EmptyString => None
                        | String b r4 =>
                            if Ascii.eqb b "," then
                              match Ref.parse_members f r4 with
                              | Some (l0, r5) => Some ((k0, v) :: l0, r5)
                              | None => None
                              end
                            else if Ascii.eqb b "}" then Some ([(k0, v)], r4)
                            else None
                        end
                    | None => None
                    end
                  else None
              end
          | None => None
          end
        else None
    end =
    match Ref.skip_ws r3 with
    | EmptyString => None
    | String b r4 =>
        if Ascii.eqb b "," then
          match Ref.parse_members f r4 with
          | Some (l0, r5) => Some ((k, x) :: l0, r5)
          | None => None
          end
        else if Ascii.eqb b "}" then Some ([(k, x)], r4)
        else None
    end) as Hmember.
  { intros tail Hs' Hf Hok. exists tail. split; [done|]. split; [done|].
    rewrite Hs'. rewrite !app_assoc_s.
    destruct (parse_string_quote k (": " +:+ Ref.print x +:+ tail)) as (t & -> & Ht).
    change (Ascii.eqb Ref.QUOTE Ref.QUOTE) with true. cbv iota. rewrite Ht.
    change (": " +:+ Ref.print x +:+ tail) with (String ":" (String " " (Ref.print x +:+ tail))).
    cbn [Ref.skip_ws]. change (Ref.json_isspace ":") with false. cbv iota.
    change (Ascii.eqb ":" ":") with true. cbv iota.
    rewrite (Hx (String " " (Ref.print x +:+ tail)) tail f); [done| |done|done].
    rewrite skip_ws_blank. apply skip_ws_print. }
  destruct l as [|[k' y] l].
  - cbn [fmap list_fmap] in Hs, Hfuel.
    rewrite (app_assoc_s (Ref.quote k +:+ ": " +:+ Ref.print x)) in Hs.
    rewrite !length_app_s in Hfuel. cbn [String.length] in Hfuel.
    pose proof (print_member_length k (Ref.print x)) as Hlen.
    destruct (Hmember _ Hs) as (r3 & _ & -> & ->); [lia|done|].
    change (String "}" EmptyString +:+ rest) with (String "}" rest).
    cbn [Ref.skip_ws]. change (Ref.json_isspace "}") with false. cbv iota. done.
  - rewrite !fmap_cons in Hs, Hfuel. rewrite !fmap_cons in IH.
    rewrite (app_assoc_s (Ref.quote k +:+ ": " +:+ Ref.print x)) in Hs.
    rewrite (app_assoc_s ", ") in Hs.
    rewrite !length_app_s in Hfuel. cbn [String.length] in Hfuel.
    pose proof (print_member_length k (Ref.print x)) as Hlen.
    destruct (Hmember _ Hs) as (r3 & _ & -> & ->); [lia|done|].
    match goal with |- context [Ref.skip_ws (", " +:+ ?rest')] =>
      change (", " +:+ rest') with (String "," (String " " rest')) end.
    cbn [Ref.skip_ws]. change (Ref.json_isspace ",") with false. cbv iota.
    change (Ascii.eqb "," ",") with true. cbv iota.
    erewrite IH; [done|done| |lia].
    rewrite skip_ws_blank.
    destruct (join_items_head "}" (Ref.print_member (prod_map id Ref.print (k', y)))
                (Ref.print_member <$> (prod_map id Ref.print <$> l))) as (tail & ->).
    rewrite app_assoc_s. apply skip_ws_member.
Qed.

Lemma print_nonempty (v : value) : (1 <= String.length (Ref.print v))%nat.
Proof. destruct (print_head v) as (a & t & -> & _). cbn [String.length]. lia. Qed.

(** The parser reads back what the printer writes. *)
Lemma print_reads_back (v : value) : Ref.reads_back v.
Proof.
  induction v as [|b|z|str|l IH|d IH] using value_ind';
    intros s rest fuel Hs Hrest Hfuel;
    (destruct fuel as [|f];
     [match type of Hfuel with (String.length (Ref.print ?v) <= _)%nat =>
        pose proof (print_nonempty v) end; lia|]);
    cbn [Ref.parse]; rewrite Hs.
  - change (Ref.print VNone +:+ rest) with (String "n" ("ull" +:+ rest)).
    cbv iota. change (Ascii.eqb "n" "n") with true. cbv iota. by rewrite prefix_app_s.
  - destruct b.
    + change (Ref.print (VBool true) +:+ rest) with (String "t" ("rue" +:+ rest)).
      cbv iota.
      change (Ascii.eqb "t" "n") with false. change (Ascii.eqb "t" "t") with true.
      cbv iota. by rewrite prefix_app_s.
    + change (Ref.print (VBool false) +:+ rest) with (String "f" ("alse" +:+ rest)).
      cbv iota.
      change (Ascii.eqb "f" "n") with false. change (Ascii.eqb "f" "t") with false.
      change (Ascii.eqb "f" "f") with true. cbv iota. by rewrite prefix_app_s.
  - change (Ref.print (VInt z)) with (Ref.print_int z).
    destruct (print_int_head z) as (a & t & Hz & Ha).
    pose proof (parse_int_print z rest Hrest) as Hparse.
    rewrite Hz in Hparse |- *.
    change (String a t +:+ rest) with (String a (t +:+ rest)) in Hparse |- *.
    cbv iota. destruct (num_char_cases a Ha) as (-> & -> & -> & -> & -> & ->).
    by rewrite Hparse.
  - change (Ref.print (VStr str)) with (Ref.quote str).
    destruct (parse_string_quote str rest) as (t & -> & ->). cbv iota.
    change (Ascii.eqb Ref.QUOTE "n") with false. change (Ascii.eqb Ref.QUOTE "t") with false.
    change (Ascii.eqb Ref.QUOTE "f") with false.
    change (Ascii.eqb Ref.QUOTE Ref.QUOTE) with true. done.
  - change (Ref.print (VList l)) with (String "[" (Ref.join_items "]" (Ref.print <$> l))).
    change (String "[" (Ref.join_items "]" (Ref.print <$> l)) +:+ rest)
      with (String "[" (Ref.join_items "]" (Ref.print <$> l) +:+ rest)).
    cbv iota.
    change (Ascii.eqb "[" "n") with false. change (Ascii.eqb "[" "t") with false.
    change (Ascii.eqb "[" "f") with false. change (Ascii.eqb "[" Ref.QUOTE) with false.
    change (Ascii.eqb "[" "[") with true. cbv iota.
    destruct l as [|x l]; [done|].
    change (String.length (Ref.print (VList (x :: l)))) with
      (S (String.length (Ref.join_items "]" (Ref.print <$> x :: l)))) in Hfuel.
    set (txt := Ref.join_items "]" (Ref.print <$> x :: l) +:+ rest).
    assert (exists a u, txt = String a u /\ Ref.starter a = true /\ Ref.skip_ws txt = txt)
      as (a & u & Htxt & Ha & Hskip).
    { unfold txt. rewrite fmap_cons.
      destruct (join_items_head "]" (Ref.print x) (Ref.print <$> l)) as (tail & ->).
      rewrite app_assoc_s, skip_ws_print.
      destruct (print_head x) as (a & t & -> & Ha). by exists a, (t +:+ tail +:+ rest). }
    rewrite Hskip. rewrite Htxt at 1. cbv iota.
    destruct (starter_cases a Ha) as (_ & -> & _ & _).
    rewrite (parse_items_print (x :: l) IH ltac:(done) txt rest f); [done|exact Hskip|lia].
  - change (Ref.print (VDict d)) with
      (String "{" (Ref.join_items "}"
         (Ref.print_member <$> map_to_list (Ref.print <$> d)))).
    rewrite map_to_list_fmap.
    match goal with |- context [String "{" ?j +:+ rest] =>
      change (String "{" j +:+ rest) with (String "{" (j +:+ rest)) end.
    cbv iota.
    change (Ascii.eqb "{" "n") with false. change (Ascii.eqb "{" "t") with false.
    change (Ascii.eqb "{" "f") with false. change (Ascii.eqb "{" Ref.QUOTE) with false.
    change (Ascii.eqb "{" "[") with false. change (Ascii.eqb "{" "{") with true. cbv iota.
    change (String.length (Ref.print (VDict d))) with
      (S (String.length (Ref.join_items "}"
         (Ref.print_member <$> map_to_list (Ref.print <$> d))))) in Hfuel.
    rewrite map_to_list_fmap in Hfuel.
    destruct (map_to_list d) as [|[k x] l] eqn:Hd.
    + apply map_to_list_empty_iff in Hd as ->. done.
    + set (txt := Ref.join_items "}"
             (Ref.print_member <$> (prod_map id Ref.print <$> (k, x) :: l)) +:+ rest).
      assert (exists u, txt = String Ref.QUOTE u /\ Ref.skip_ws txt = txt)
        as (u & Htxt & Hskip).
      { unfold txt. rewrite !fmap_cons.
        destruct (join_items_head "}" (Ref.print_member (prod_map id Ref.print (k, x)))
                    (Ref.print_member <$> (prod_map id Ref.print <$> l))) as (tail & ->).
        rewrite app_assoc_s.
        destruct (print_member_head (prod_map id Ref.print (k, x)) (tail +:+ rest))
          as (u & Hu).
        exists u. split; [exact Hu|apply skip_ws_member]. }
      rewrite Hskip. rewrite Htxt at 1. cbv iota.
      change (Ascii.eqb Ref.QUOTE "}") with false. cbv iota.
      rewrite (parse_members_print ((k, x) :: l)) with (rest := rest).
      * rewrite <- Hd. by rewrite list_to_map_to_list.
      * apply Forall_forall. intros [k' x'] Hin. rewrite <- Hd in Hin.
        apply elem_of_map_to_list in Hin. by apply (IH k' x').
      * done.
      * exact Hskip.
      * lia.
Qed.

Lemma json_loads_print (v : value) : Ref.json_loads (Ref.print v) = Some v.
Proof.
  unfold Ref.json_loads.
  rewrite (print_reads_back v (Ref.print v) EmptyString); [done| |done|lia].
  rewrite <- (app_nil_r_s (Ref.print v)) at 1. apply skip_ws_print.
Qed.

Lemma json_loads_print_line (v : value) :
  Ref.json_loads (Ref.print v +:+ String LF EmptyString) = Some v.
Proof.
  unfold Ref.json_loads.
  rewrite (print_reads_back v _ (String LF EmptyString));
    [done|by rewrite skip_ws_print|done|].
  rewrite length_app_s. lia.
Qed.

(** The text of a value is one line. *)
Lemma newline_free_app (a b : string) :
  newline_free (a +:+ b) = newline_free a && newline_free b.
Proof. apply forallb_app_s. Qed.

Lemma newline_free_escape (s : string) : newline_free (Ref.escape s) = true.
Proof.
  induction s as [|a s IH]; [done|]. cbn [Ref.escape].
  destruct (Ascii.eqb a Ref.QUOTE) eqn:Hq; [exact IH|].
  destruct (Ascii.eqb a Ref.BACKSLASH) eqn:Hb; [exact IH|].
  destruct (byte_of a <? 32) eqn:Hc.
  - destruct (byte_nibbles a) as (Hhi & Hlo & _).
    pose proof (hex_digit_hex _ Hhi) as H1. pose proof (hex_digit_hex _ Hlo) as H2.
    unfold newline_free in *. cbn [string_forallb]. rewrite IH.
    assert (forall c, is_hex c = true ->
              negb (Ascii.eqb c LF) && negb (Ascii.eqb c CR) = true) as Hhex.
    { intros c Hc'. rewrite !(ascii_eqb_false is_hex) by done. done. }
    by rewrite (Hhex _ H1), (Hhex _ H2).
  - unfold newline_free in *. cbn [string_forallb]. rewrite IH, andb_true_r.
    apply Z.ltb_ge in Hc.
    assert (forall c, byte_of c < 32 -> Ascii.eqb a c = false) as Hlow.
    { intros c Hc'. apply Ascii.eqb_neq. intros ->. lia. }
    rewrite !Hlow; [done|by vm_compute|by vm_compute].
Qed.

Lemma newline_free_quote (s : string) : newline_free (Ref.quote s) = true.
Proof.
  unfold Ref.quote.
  change (newline_free (String Ref.QUOTE (Ref.escape s +:+ String Ref.QUOTE EmptyString)))
    with (newline_free (Ref.escape s +:+ String Ref.QUOTE EmptyString)).
  by rewrite newline_free_app, newline_free_escape.
Qed.

Lemma newline_free_int (z : Z) : newline_free (Ref.print_int z) = true.
Proof.
  eapply forallb_impl_s; [|apply print_int_digits].
  intros c Hc. by rewrite !(ascii_eqb_false Ref.num_char) by done.
Qed.

Lemma newline_free_join (close : ascii) (items : list string) :
  newline_free (String close EmptyString) = true ->
  Forall (fun x => newline_free x = true) items ->
  newline_free (Ref.join_items close items) = true.
Proof.
  intros Hclose. induction 1 as [|x items Hx Hitems IH]; [done|].
  cbn [Ref.join_items]. destruct items as [|y items].
  - by rewrite newline_free_app, Hx.
  - by rewrite !newline_free_app, Hx, IH.
Qed.

Lemma newline_free_print (v : value) : newline_free (Ref.print v) = true.
Proof.
  induction v as [|b|z|str|l IH|d IH] using value_ind'.
  - done.
  - by destruct b.
  - apply newline_free_int.
  - apply newline_free_quote.
  - change (newline_free (Ref.print (VList l)))
      with (newline_free (Ref.join_items "]" (Ref.print <$> l))).
    apply newline_free_join; [done|]. by apply Forall_fmap.
  - change (newline_free (Ref.print (VDict d)))
      with (newline_free (Ref.join_items "}"
              (Ref.print_member <$> map_to_list (Ref.print <$> d)))).
    apply newline_free_join; [done|].
    rewrite map_to_list_fmap. apply Forall_fmap, Forall_fmap, Forall_forall.
    intros [k x] Hin. apply elem_of_map_to_list in Hin.
    unfold compose, Ref.print_member. cbn [prod_map fst snd id].
    rewrite !newline_free_app, newline_free_quote. cbn [andb].
    exact (IH k x Hin).
Qed.

Lemma ref_json_laws : JsonLaws Ref.ref_json.
Proof.
  split; intros ensure_ascii v; cbn [dumps loads Ref.ref_json].
  - apply json_loads_print.
  - apply json_loads_print_line.
  - apply newline_free_print.
  - destruct (print_head v) as (a & t & -> & Ha).
    exists a, t. split; [done|].
    apply starter_cases in Ha as (_ & _ & _ & Hv).
    unfold is_visible in Hv. apply andb_true_iff in Hv as [H1 H2].
    apply Z.leb_le in H1. apply Z.ltb_lt in H2. done.
Qed.

(** ** The calendar *)

Lemma month_cases (m : Z) :
  1 <= m <= 12 ->
  m = 1 \/ m = 2 \/ m = 3 \/ m = 4 \/ m = 5 \/ m = 6 \/
  m = 7 \/ m = 8 \/ m = 9 \/ m = 10 \/ m = 11 \/ m = 12.
Proof. lia. Qed.

Ltac table :=
  cbv [_DAYS_BEFORE_MONTH _DAYS_IN_MONTH Z.to_nat Pos.to_nat Pos.iter_op Nat.add nth
       Z.eqb Z.ltb Z.compare Pos.compare Pos.compare_cont Pos.eqb andb orb] in *.

Lemma days_before_year_succ (y : Z) :
  _days_before_year (y + 1)
  = _days_before_year y + 365 + (if _is_leap y then 1 else 0).
Proof.
  unfold _days_before_year, _is_leap. cbv zeta.
  replace (y + 1 - 1) with y by lia.
  destruct (Z.eqb_spec (y mod 4) 0), (Z.eqb_spec (y mod 100) 0),
    (Z.eqb_spec (y mod 400) 0); cbn [andb orb negb];
    Z.div_mod_to_equations; lia.
Qed.

Lemma days_before_year_lt (y1 y2 : Z) :
  y1 < y2 -> _days_before_year (y1 + 1) <= _days_before_year y2.
Proof.
  intros Hlt. unfold _days_before_year. cbv zeta.
  Z.div_mod_to_equations. lia.
Qed.

(** Within a year the day number is between 1 and the length of the year,
    and it grows with the month and the day. *)
Lemma day_of_year_bounds (y m d : Z) :
  1 <= m <= 12 -> 1 <= d <= _days_in_month y m ->
  1 <= _days_before_month y m + d <= 365 + (if _is_leap y then 1 else 0).
Proof.
  intros Hm Hd. unfold _days_before_month, _days_in_month in *.
  apply month_cases in Hm.
  repeat destruct Hm as [-> | Hm]; try subst m;
    destruct (_is_leap y); table; lia.
Qed.

Lemma day_of_year_lt (y m1 d1 m2 d2 : Z) :
  1 <= m1 <= 12 -> 1 <= m2 <= 12 ->
  d1 <= _days_in_month y m1 -> 1 <= d2 -> m1 < m2 ->
  _days_before_month y m1 + d1 < _days_before_month y m2 + d2.
Proof.
  intros Hm1 Hm2 Hd1 Hd2 Hlt. unfold _days_before_month, _days_in_month in *.
  apply month_cases in Hm1. apply month_cases in Hm2.
  repeat destruct Hm1 as [-> | Hm1]; try subst m1;
    repeat destruct Hm2 as [-> | Hm2]; try subst m2; try lia;
    destruct (_is_leap y); table; lia.
Qed.

(** The day number grows with the date. *)
Lemma ymd2ord_lt (y1 m1 d1 y2 m2 d2 : Z) :
  1 <= m1 <= 12 -> 1 <= d1 <= _days_in_month y1 m1 ->
  1 <= m2 <= 12 -> 1 <= d2 <= _days_in_month y2 m2 ->
  lex_lt [y1; m1; d1] [y2; m2; d2] = true ->
  _ymd2ord y1 m1 d1 < _ymd2ord y2 m2 d2.
Proof.
  intros Hm1 Hd1 Hm2 Hd2 Hlex. unfold _ymd2ord. cbn [lex_lt] in Hlex.
  rewrite ?andb_false_r, ?orb_false_r in Hlex.
  apply orb_true_iff in Hlex as [Hy|Hlex].
  - apply Z.ltb_lt in Hy.
    pose proof (day_of_year_bounds y1 m1 d1 Hm1 Hd1).
    pose proof (day_of_year_bounds y2 m2 d2 Hm2 Hd2).
    pose proof (days_before_year_succ y1). pose proof (days_before_year_lt y1 y2 Hy).
    destruct (_is_leap y1), (_is_leap y2); lia.
  - apply andb_true_iff in Hlex as [Hy Hlex]. apply Z.eqb_eq in Hy as ->.
    apply orb_true_iff in Hlex as [Hm|Hlex].
    + apply Z.ltb_lt in Hm.
      pose proof (day_of_year_lt y2 m1 d1 m2 d2 Hm1 Hm2). lia.
    + apply andb_true_iff in Hlex as [Hm Hd]. apply Z.eqb_eq in Hm as ->.
      apply Z.ltb_lt in Hd. lia.
Qed.

(** [_ord2ymd] inverts the day number.  The first 400 years are checked
    one day at a time; the calendar repeats after that. *)
Lemma cycle_ok_all : cycle_ok (Z.to_nat 146097) 0 = true.
Proof. vm_cast_no_check (eq_refl true). Qed.

Lemma cycle_ok_below (n : nat) (r k : Z) :
  cycle_ok n r = true -> r <= k < r + Z.of_nat n ->
  let '(y, m, d) := _ord2ymd (k + 1) in
  1 <= y <= 400 /\ 1 <= m <= 12 /\ 1 <= d <= _days_in_month y m
  /\ _ymd2ord y m d = k + 1.
Proof.
  revert r. induction n as [|n IH]; intros r; [lia|]. cbn [cycle_ok].
  intros [Hn Hrest]%andb_true_iff Hk.
  destruct (decide (k = r)) as [->|Hne]; [|apply (IH (r + 1)); [done|lia]].
  destruct (_ord2ymd (r + 1)) as [[y m] d].
  repeat (apply andb_true_iff in Hn as [Hn ?]). bool_to_Z. lia.
Qed.

Lemma is_leap_shift (q y : Z) : _is_leap (400 * q + y) = _is_leap y.
Proof.
  unfold _is_leap.
  replace ((400 * q + y) mod 4) with (y mod 4) by (Z.div_mod_to_equations; lia).
  replace ((400 * q + y) mod 100) with (y mod 100) by (Z.div_mod_to_equations; lia).
  replace ((400 * q + y) mod 400) with (y mod 400) by (Z.div_mod_to_equations; lia).
  done.
Qed.

Lemma days_in_month_shift (q y m : Z) :
  _days_in_month (400 * q + y) m = _days_in_month y m.
Proof. unfold _days_in_month. by rewrite is_leap_shift. Qed.

Lemma ymd2ord_shift (q y m d : Z) :
  _ymd2ord (400 * q + y) m d = 146097 * q + _ymd2ord y m d.
Proof.
  unfold _ymd2ord, _days_before_month. rewrite is_leap_shift.
  unfold _days_before_year. cbv zeta. Z.div_mod_to_equations. lia.
Qed.

Lemma ord2ymd_shift (q r : Z) :
  0 <= r < 146097 ->
  _ord2ymd (146097 * q + r + 1)
  = let '(y, m, d) := _ord2ymd (r + 1) in (400 * q + y, m, d).
Proof.
  intros Hr. unfold _ord2ymd. cbv zeta.
  replace (146097 * q + r + 1 - 1) with (r + q * 146097) by lia.
  replace (r + 1 - 1) with r by lia.
  rewrite Z.div_add, Z.mod_add by lia.
  rewrite (Z.div_small r 146097), (Z.mod_small r 146097) by lia.
  repeat match goal with |- context [if ?c then _ else _] => destruct c end;
    f_equal; try f_equal; lia.
Qed.

Lemma ord2ymd_ok (n : Z) :
  1 <= n ->
  let '(y, m, d) := _ord2ymd n in
  1 <= m <= 12 /\ 1 <= d <= _days_in_month y m /\ _ymd2ord y m d = n.
Proof.
  intros Hn.
  pose proof (Z.div_mod (n - 1) 146097 ltac:(lia)) as Hdm.
  pose proof (Z.mod_pos_bound (n - 1) 146097 ltac:(lia)) as Hr.
  set (q := (n - 1) / 146097) in *. set (r := (n - 1) mod 146097) in *.
  replace n with (146097 * q + r + 1) by lia.
  rewrite ord2ymd_shift by done.
  pose proof (cycle_ok_below (Z.to_nat 146097) 0 r cycle_ok_all ltac:(lia)) as Hcycle.
  destruct (_ord2ymd (r + 1)) as [[y m] d].
  destruct Hcycle as (_ & Hm & Hd & Hord).
  rewrite days_in_month_shift, ymd2ord_shift. lia.
Qed.

(** ** Dates of file names and the cutoff *)

Lemma datetime_new_valid (y m d H M S : Z) (t : datetime) :
  datetime_new y m d H M S = Some t -> valid_date t.
Proof.
  unfold datetime_new, valid_date.
  destruct (_ && _) eqn:Hc; [|done]. intros [= <-]. cbn [year month day].
  repeat (apply andb_true_iff in Hc as [Hc ?]). bool_to_Z. lia.
Qed.

Lemma strptime_valid (format : regex) (has_time : bool) (s : string) (t : datetime) :
  strptime format has_time s = Some t -> valid_date t.
Proof.
  unfold strptime. destruct (rmatch format s) as [|[found [|]] ?]; try done.
  destruct has_time; apply datetime_new_valid.
Qed.

Lemma log_date_valid (suffix name : string) (t : datetime) :
  log_date suffix name = Some t -> valid_date t.
Proof. unfold log_date. destruct (endswith suffix name); [apply strptime_valid|done]. Qed.

Lemma key_date_valid (name : string) (t : datetime) :
  key_date name = Some t -> valid_date t.
Proof. unfold key_date. destruct (_ && _); [apply strptime_valid|done]. Qed.

Lemma lex_lt_three (y1 m1 d1 y2 m2 d2 : Z) :
  lex_lt [y1; m1; d1] [y2; m2; d2] = true
  \/ (y1 = y2 /\ m1 = m2 /\ d1 = d2)
  \/ lex_lt [y2; m2; d2] [y1; m1; d1] = true.
Proof.
  cbn [lex_lt]. rewrite ?andb_false_r, ?orb_false_r.
  destruct (Z.ltb_spec y1 y2), (Z.ltb_spec y2 y1), (Z.eqb_spec y1 y2),
    (Z.eqb_spec y2 y1), (Z.ltb_spec m1 m2), (Z.ltb_spec m2 m1), (Z.eqb_spec m1 m2),
    (Z.eqb_spec m2 m1), (Z.ltb_spec d1 d2), (Z.ltb_spec d2 d1);
    cbn [andb orb]; auto; lia.
Qed.

(** Comparing a calendar date with the cutoff is comparing day numbers,
    and times of day when the day is the same. *)
Lemma datetime_lt_cutoff (t : datetime) (days : Z) (cutoff_date file_date : datetime) :
  cutoff t days = Ok cutoff_date -> valid_date file_date ->
  datetime_lt file_date cutoff_date
  = precedes (toordinal file_date) (time_fields file_date)
             (toordinal t - days) (time_fields t).
Proof.
  unfold cutoff, timedelta_days, datetime_sub.
  destruct (_ && _); [|done]. cbn [rbind].
  destruct ((0 <? toordinal t - days) && _) eqn:Hrange; [|done].
  apply andb_true_iff in Hrange as [Hpos _]. apply Z.ltb_lt in Hpos.
  pose proof (ord2ymd_ok (toordinal t - days) ltac:(lia)) as Hord.
  destruct (_ord2ymd (toordinal t - days)) as [[y m] d].
  destruct Hord as (Hm & Hd & Hord). intros [= <-] [Hfm Hfd].
  unfold datetime_lt, precedes, fields, time_fields. rewrite <- Hord. unfold toordinal.
  cbn [year month day hour minute second microsecond].
  destruct file_date as [fy fm fd fH fM fS fu].
  cbn [year month day hour minute second microsecond] in *.
  destruct (lex_lt_three fy fm fd y m d) as [Hlt|[(-> & -> & ->)|Hgt]].
  - pose proof (ymd2ord_lt _ _ _ _ _ _ Hfm Hfd Hm Hd Hlt) as Hlt'.
    apply Z.ltb_lt in Hlt' as ->. cbn [orb].
    cbn [lex_lt] in Hlt |- *. rewrite ?andb_false_r, ?orb_false_r in Hlt.
    destruct (fy <? y), (fy =? y), (fm <? m), (fm =? m), (fd <? d); done.
  - rewrite Z.ltb_irrefl, Z.eqb_refl. cbn [orb andb].
    cbn [lex_lt]. by rewrite !Z.ltb_irrefl, !Z.eqb_refl.
  - pose proof (ymd2ord_lt _ _ _ _ _ _ Hm Hd Hfm Hfd Hgt) as Hgt'.
    assert ((_ymd2ord fy fm fd <? _ymd2ord y m d) = false) as -> by (apply Z.ltb_ge; lia).
    assert ((_ymd2ord fy fm fd =? _ymd2ord y m d) = false) as -> by (apply Z.eqb_neq; lia).
    cbn [orb andb].
    cbn [lex_lt] in Hgt |- *. rewrite ?andb_false_r, ?orb_false_r in Hgt.
    destruct (Z.ltb_spec fy y), (Z.eqb_spec fy y), (Z.ltb_spec y fy), (Z.eqb_spec y fy),
      (Z.ltb_spec fm m), (Z.eqb_spec fm m), (Z.ltb_spec m fm), (Z.eqb_spec m fm),
      (Z.ltb_spec fd d), (Z.eqb_spec fd d), (Z.ltb_spec d fd);
      cbn [andb orb] in Hgt |- *; try done; lia.
Qed.

Lemma expired_by_age (date_of : string -> option datetime) (t : datetime) (days : Z)
    (cutoff_date file_date : datetime) (name : string) :
  cutoff t days = Ok cutoff_date -> valid_date file_date ->
  date_of name = Some file_date ->
  expired date_of cutoff_date name
  = precedes (toordinal file_date) (time_fields file_date)
             (toordinal t - days) (time_fields t).
Proof.
  intros Hcut Hvalid Hdate. unfold expired. rewrite Hdate.
  by apply (datetime_lt_cutoff t days).
Qed.

Lemma precedes_older (o1 o2 : Z) (t1 t2 : list Z) : o1 < o2 -> precedes o1 t1 o2 t2 = true.
Proof. intros H. unfold precedes. apply Z.ltb_lt in H as ->. done. Qed.

Lemma precedes_newer (o1 o2 : Z) (t1 t2 : list Z) : o2 < o1 -> precedes o1 t1 o2 t2 = false.
Proof.
  intros H. unfold precedes.
  assert ((o1 <? o2) = false) as -> by (apply Z.ltb_ge; lia).
  assert ((o1 =? o2) = false) as -> by (apply Z.eqb_neq; lia). done.
Qed.

(** C8.  When the cutoff can be computed and every log file carries a
    date, [cleanup_old_logs] completes, and in each of the three
    directories the files it removes are exactly those whose name carries
    a date that precedes the cutoff; every other file stays as it was.  A
    date precedes the cutoff when its day is more than [days] days before
    the day of the call, or exactly [days] days before it at an earlier
    time of day.  In particular with [days = 30] a file dated 45 days ago
    is removed and a file dated 5 days ago is kept, in all three
    directories. *)
Theorem cleanup_removes_expired (t : datetime) (days : Z) (fs : FS)
    (cutoff_date : datetime) :
  cutoff t days = Ok cutoff_date ->
  (forall name, is_Some (raw fs !! name) -> undated_log ".ndjson" name = false) ->
  (forall name, is_Some (encrypted fs !! name) -> undated_log ".enc" name = false) ->
  exists fs', cleanup_old_logs t days fs = (Ok tt, fs')
    /\ denied fs' = denied fs
    /\ (forall name, raw fs' !! name =
          if expired (log_date ".ndjson") cutoff_date name then None else raw fs !! name)
    /\ (forall name, encrypted fs' !! name =
          if expired (log_date ".enc") cutoff_date name then None
          else encrypted fs !! name)
    /\ (forall name, keys fs' !! name =
          if expired key_date cutoff_date name then None else keys fs !! name)
    /\ (forall date_of name file_date,
          date_of = log_date ".ndjson" \/ date_of = log_date ".enc" \/ date_of = key_date ->
          date_of name = Some file_date ->
          expired date_of cutoff_date name
          = precedes (toordinal file_date) (time_fields file_date)
                     (toordinal t - days) (time_fields t))
    /\ (days = 30 ->
        forall name file_date,
          (log_date ".ndjson" name = Some file_date ->
             (toordinal file_date = toordinal t - 45 -> raw fs' !! name = None)
             /\ (toordinal file_date = toordinal t - 5 ->
                 raw fs' !! name = raw fs !! name))
          /\ (log_date ".enc" name = Some file_date ->
             (toordinal file_date = toordinal t - 45 -> encrypted fs' !! name = None)
             /\ (toordinal file_date = toordinal t - 5 ->
                 encrypted fs' !! name = encrypted fs !! name))
          /\ (key_date name = Some file_date ->
             (toordinal file_date = toordinal t - 45 -> keys fs' !! name = None)
             /\ (toordinal file_date = toordinal t - 5 ->
                 keys fs' !! name = keys fs !! name))).
Proof.
  intros Hcut Hraw Henc.
  destruct (cleanup_spec t days fs cutoff_date Hcut Hraw Henc)
    as (fs' & Hrun & Hr & He & Hk & Hd).
  assert (forall date_of name file_date,
    date_of = log_date ".ndjson" \/ date_of = log_date ".enc" \/ date_of = key_date ->
    date_of name = Some file_date ->
    expired date_of cutoff_date name
    = precedes (toordinal file_date) (time_fields file_date)
               (toordinal t - days) (time_fields t)) as Hage.
  { intros date_of name file_date Hof Hdate.
    apply (expired_by_age date_of t days); [done| |done].
    destruct Hof as [->|[->| ->]];
      [eapply log_date_valid|eapply log_date_valid|eapply key_date_valid]; exact Hdate. }
  exists fs'. split; [done|]. split; [done|]. split; [done|]. split; [done|].
  split; [done|]. split; [exact Hage|].
  intros -> name file_date.
  split; [|split]; intros Hdate; split; intros Hord.
  - rewrite Hr, (Hage (log_date ".ndjson") name file_date) by auto.
    rewrite precedes_older; [done|lia].
  - rewrite Hr, (Hage (log_date ".ndjson") name file_date) by auto.
    rewrite precedes_newer; [done|lia].
  - rewrite He, (Hage (log_date ".enc") name file_date) by auto.
    rewrite precedes_older; [done|lia].
  - rewrite He, (Hage (log_date ".enc") name file_date) by auto.
    rewrite precedes_newer; [done|lia].
  - rewrite Hk, (Hage key_date name file_date) by auto.
    rewrite precedes_older; [done|lia].
  - rewrite Hk, (Hage key_date name file_date) by auto.
    rewrite precedes_newer; [done|lia].
Qed.

Section Samples.
#[local] Existing Instance Ref.ref_fernet.
#[local] Existing Instance Ref.ref_json.
#[local] Existing Instance Ref.ref_repr.
Import Sample.

Lemma pair_of_fst {A B} (p : A * B) (a : A) : fst p = a -> p = (a, snd p).
Proof. intros <-. by destruct p. Qed.

Lemma anonymize_token_witness :
  "alice"%string <> EmptyString
  /\ _anonymize logger (VStr "alice") = Ok "2bd806c97f0e"%string.
Proof.
  split; [discriminate|].
  destruct (anonymize_token logger logger "alice") as (_ & _ & Htoken).
  destruct (Htoken ltac:(discriminate)) as (-> & _).
  vm_compute. reflexivity.
Defined.

(** C1, as stated, fails when there is nothing to encrypt: an empty
    content and an empty mapping are stored as the empty text, which is not
    a token and does not decrypt. *)
Lemma empty_payload_is_not_encrypted :
  match read_logs logger "2026-11-03" true
          (snd (log_event logger amb "message" user "" (Some ∅) fs_empty)) with
  | Ok [VDict entry] =>
      entry !! "content"%string = Some (VStr "")
      /\ entry !! "additional_data"%string = Some (VStr "")
      /\ decrypt (fernet_ logger) "" = None
  | _ => False
  end.
Proof. vm_compute. repeat split; reflexivity. Qed.

Lemma log_event_read_back_witness :
  exists entry token,
    read_logs logger "2026-11-03" true
      (snd (log_event logger amb "message" user "hello" (Some extra) fs_empty))
      = Ok [VDict entry]
    /\ entry !! "content"%string = Some (VStr token)
    /\ decrypt (fernet_ logger) token = Some "hello"%string.
Proof.
  destruct (@log_event_read_back Ref.ref_fernet Ref.ref_json Ref.ref_repr
              ref_fernet_laws ref_json_laws
              logger amb "message" user "hello" (Some extra) fs_empty
              (snd (log_event logger amb "message" user "hello" (Some extra) fs_empty))
              (VStr "129caeb12ce2") [])
    as (entry & record & Hread & _ & _ & Hcontent & _).
  - reflexivity.
  - constructor.
  - apply pair_of_fst. vm_compute. reflexivity.
  - destruct (Hcontent ltac:(discriminate)) as (token & Htoken & Hdecrypt).
    exists entry, token. split; [exact Hread|]. split; [exact Htoken|exact Hdecrypt].
Defined.

(** C7, as stated, fails when the encrypted partition cannot be opened:
    the call raises, and the line it has appended to the redacted stream
    stays without a counterpart in the encrypted stream. *)
Lemma log_event_is_not_atomic :
  match log_event logger amb "message" user "hello" None fs_locked with
  | (Raise PermissionError, fs') =>
      raw fs_locked !! "2026-11-03.ndjson"%string = None
      /\ is_Some (raw fs' !! "2026-11-03.ndjson"%string)
      /\ encrypted fs' = encrypted fs_locked
  | _ => False
  end.
Proof. vm_compute. repeat split; try reflexivity. by eexists. Qed.

Lemma missing_attribute_is_anonymous_witness :
  user !! "last_name"%string = None
  /\ exists entry user_record,
       raw (snd (log_event logger amb "message" user "hello" None fs_empty))
         = written amb entry fs_empty
       /\ entry !! "user"%string = Some (VDict user_record)
       /\ user_record !! "last_name_anon"%string = Some (VStr "anonymous").
Proof.
  split; [reflexivity|].
  destruct (missing_attribute_is_anonymous logger amb "message" user "hello" None
              fs_empty attr_last_name (or_introl eq_refl)) as (_ & Hok & _).
  destruct (Hok (VStr "129caeb12ce2") ltac:(vm_compute; reflexivity))
    as (entry & user_record & Hraw & _ & Huser & _ & Hanon).
  exists entry, user_record. split; [exact Hraw|]. split; [exact Huser|exact Hanon].
Defined.

Lemma read_logs_skips_corrupted_witness :
  read_logs logger "2026-11-03" true fs_corrupted = Ok [VInt 1; VInt 2]
  /\ read_logs logger "2026-11-03" true fs_truncated = Ok [VInt 1; VInt 2].
Proof.
  split.
  - destruct (@read_logs_skips_corrupted Ref.ref_fernet Ref.ref_json
                ref_fernet_laws ref_json_laws logger "2026-11-03" fs_corrupted)
      as (_ & _ & _ & Hcase); [apply not_elem_of_empty|].
    destruct (Hcase (VInt 1) (VInt 2) "iv-1"%string "iv-3"%string "corrupted"%string
                [encrypt (fernet_ logger) "iv-1" (dumps false (VInt 1));
                 "corrupted"%string;
                 encrypt (fernet_ logger) "iv-3" (dumps false (VInt 2))])
      as [Hclosed _]; [vm_compute; reflexivity..|by right; left|].
    apply Hclosed. reflexivity.
  - destruct (@read_logs_skips_corrupted Ref.ref_fernet Ref.ref_json
                ref_fernet_laws ref_json_laws logger "2026-11-03" fs_truncated)
      as (_ & _ & _ & Hcase); [apply not_elem_of_empty|].
    destruct (Hcase (VInt 1) (VInt 2) "iv-1"%string "iv-3"%string "corrupted"%string
                [encrypt (fernet_ logger) "iv-1" (dumps false (VInt 1));
                 "corrupted"%string;
                 encrypt (fernet_ logger) "iv-3" (dumps false (VInt 2))])
      as [_ Hopen]; [vm_compute; reflexivity..|by right; left|].
    apply (Hopen "gAAAAABtruncated"%string); [vm_compute; reflexivity..|reflexivity].
Defined.

(** C6 fails on the redacted stream: a line that is not JSON makes
    [read_logs] raise [JSONDecodeError] and the lines around it are lost
    to the caller, while on the encrypted stream a record that is not a
    token is passed over. *)
Theorem read_logs_raises_on_malformed_line :
  read_logs logger "2026-11-03" false fs_malformed = Raise JSONDecodeError
  /\ read_logs logger "2026-11-03" true fs_corrupted = Ok [VInt 1; VInt 2].
Proof. split; vm_compute; reflexivity. Qed.

(** C9 fails in the directories of log files: a name without a date makes
    [cleanup_old_logs] raise [ValueError]; the file is still there, but so
    are the expired files of the directories that come after it, while the
    same directories without the undated file are purged. *)
Theorem cleanup_stops_at_undated_log :
  undated_log ".ndjson" "notes.ndjson" = true
  /\ cleanup_old_logs today 30 fs_foreign = (Raise ValueError, fs_foreign)
  /\ cleanup_old_logs today 30
       (mkFS ∅ (encrypted fs_foreign) (keys fs_foreign) (denied fs_foreign))
     = (Ok tt, fs_empty).
Proof. repeat split; vm_compute; reflexivity. Qed.

Lemma dated_two (d : gmap string string) (suffix n1 n2 c1 c2 : string) :
  d = <[n1 := c1]> (<[n2 := c2]> ∅) ->
  undated_log suffix n1 = false -> undated_log suffix n2 = false ->
  forall name, is_Some (d !! name) -> undated_log suffix name = false.
Proof.
  intros -> H1 H2 name [v Hv].
  apply lookup_insert_Some in Hv as [[<- _]|[_ Hv]]; [done|].
  apply lookup_insert_Some in Hv as [[<- _]|[_ Hv]]; [done|].
  by rewrite lookup_empty in Hv.
Qed.

Lemma cleanup_removes_expired_witness :
  cutoff today 30 = Ok (Datetime 2026 10 4 9 5 7 0)
  /\ exists fs',
       cleanup_old_logs today 30 fs_aged = (Ok tt, fs')
       /\ raw fs' !! "2026-09-19.ndjson"%string = None
       /\ raw fs' !! "2026-10-29.ndjson"%string = Some "new"%string
       /\ encrypted fs' !! "2026-09-19.enc"%string = None
       /\ encrypted fs' !! "2026-10-29.enc"%string = Some "new"%string
       /\ keys fs' !! "key_20260919_090507.key"%string = None
       /\ keys fs' !! "key_20261029_090507.key"%string = Some key_a.
Proof.
  split; [reflexivity|].
  destruct (cleanup_removes_expired today 30 fs_aged (Datetime 2026 10 4 9 5 7 0))
    as (fs' & Hrun & _ & Hr & He & Hk & _).
  - reflexivity.
  - by apply (dated_two _ _ _ _ _ _ eq_refl).
  - by apply (dated_two _ _ _ _ _ _ eq_refl).
  - exists fs'. split; [exact Hrun|]. rewrite !Hr, !He, !Hk.
    vm_compute. repeat split; reflexivity.
Defined.

Lemma init_cipher (key_arg : option string) (generated : string) (t : datetime)
    (fs fs' : FS) (self : SecureLogger) :
  __init__ key_arg generated t fs = (Ok self, fs') -> fernet_ self = key self.
Proof.
  unfold __init__. cbv zeta. cbn [Fernet_new Ref.ref_fernet].
  destruct (Ref.valid_key _); [|done].
  destruct (setup_dirs _ t fs) as [[?|?] ?]; [|done].
  by intros [= <- _].
Qed.

Lemma decode_record_other_key (self other : SecureLogger) (fresh data : string) :
  fernet_ self <> fernet_ other ->
  decode_record other (encrypt (fernet_ self) fresh data) = None.
Proof.
  intros Hne. unfold decode_record.
  destruct (String.eqb _ _); [done|].
  cbn [decrypt encrypt Ref.ref_fernet]. by rewrite unseal_other_key.
Qed.

(** C4, against the cipher modelled from the specification.  For loggers
    built by [SecureLogger(...)]: what a logger encrypts, it decrypts to
    the same payload; a logger with another key fails to decrypt it, and
    reading a partition of such records with [decrypt=True] returns no
    entry. *)
Theorem cipher_round_trip (key_arg other_arg : option string)
    (generated other_generated : string) (t t' : datetime) (fs0 fs1 fs0' fs1' : FS)
    (self other : SecureLogger) (fresh data : string) :
  __init__ key_arg generated t fs0 = (Ok self, fs1) ->
  __init__ other_arg other_generated t' fs0' = (Ok other, fs1') ->
  decrypt (fernet_ self) (encrypt (fernet_ self) fresh data) = Some data
  /\ (key self <> key other ->
      decrypt (fernet_ other) (encrypt (fernet_ self) fresh data) = None
      /\ forall (date_str : string) (fs : FS) (payloads : list (string * string)),
           encrypted fs !! encrypted_name date_str
             = Some (partition_of
                       ((fun p => encrypt (fernet_ self) (fst p) (snd p)) <$> payloads)) ->
           encrypted_file date_str ∉ denied fs ->
           read_logs other date_str true fs = Ok []).
Proof.
  intros Hself Hother. apply init_cipher in Hself, Hother.
  split; [exact (unseal_seal _ _ _)|]. intros Hkeys.
  assert (fernet_ self <> fernet_ other) as Hne by congruence.
  split; [exact (unseal_other_key _ _ _ _ Hne)|].
  intros date_str fs payloads Hfile Hopen.
  rewrite (read_partition other date_str fs _ Hfile Hopen).
  - f_equal. clear Hfile. induction payloads as [|p payloads IH]; [done|].
    rewrite fmap_cons. cbn [omap list_omap].
    rewrite decode_record_other_key by done. exact IH.
  - apply Forall_fmap, Forall_forall. intros p _. apply token_framed, seal_alphabet.
Qed.

Lemma cipher_round_trip_witness :
  decrypt key_a (encrypt key_a "iv-1" "hello") = Some "hello"%string
  /\ decrypt key_b (encrypt key_a "iv-1" "hello") = None.
Proof.
  destruct (cipher_round_trip (Some key_a) (Some key_b) "" "" today today
              fs_empty (snd (__init__ (Some key_a) "" today fs_empty))
              fs_empty (snd (__init__ (Some key_b) "" today fs_empty))
              logger (@mkLogger Ref.ref_fernet key_b key_b) "iv-1" "hello")
    as (Hsame & Hother).
  - apply pair_of_fst. reflexivity.
  - apply pair_of_fst. reflexivity.
  - split; [exact Hsame|]. apply Hother. discriminate.
Defined.

(** The reference cipher opens genuine tokens only: not one cut short,
    nor one whose payload was altered. *)
Lemma unseal_rejects_damaged_tokens :
  let token := encrypt key_a "iv-1" "hello" in
  decrypt key_a token = Some "hello"%string
  /\ decrypt key_a (String.substring 0 (String.length token - 6) token) = None
  /\ decrypt key_a (String.substring 0 (String.length token - 1) token +:+ "0") = None.
Proof. vm_compute. done. Qed.

(** Dates are read in the digits of any script: a key file named in
    fullwidth digits is dated, and purged with the others. *)
Lemma fullwidth_digits_are_dated :
  key_date "key_２０２６0919_090507.key" = Some (Datetime 2026 9 19 9 5 7 0)
  /\ log_date ".ndjson" "２０２６-09-1９.ndjson" = Some (Datetime 2026 9 19 0 0 0 0)
  /\ keys (snd (cleanup_old_logs today 30
                  (mkFS ∅ ∅ (<["key_２０２６0919_090507.key" := key_b]> ∅) ∅)))
     = ∅.
Proof. vm_compute. done. Qed.

End Samples.

(** * Further properties *)

(** ** Construction *)

Section Construction.
Context {F : Fernet} {J : Json} {R : Repr}.

Lemma init_cases (key_arg : option string) (generated : string) (t : datetime) (fs : FS) :
  let k := chosen_key key_arg generated in
  (Fernet_new k = None /\ __init__ key_arg generated t fs = (Raise ValueError, fs))
  \/ (exists f, Fernet_new k = Some f /\ (key_file t ∈ denied fs)
        /\ __init__ key_arg generated t fs = (Raise PermissionError, fs))
  \/ (exists f, Fernet_new k = Some f /\ (key_file t ∉ denied fs)
        /\ __init__ key_arg generated t fs
           = (Ok (mkLogger k f),
              mkFS (raw fs) (encrypted fs) (<[key_name t := k]> (keys fs)) (denied fs))).
Proof.
  cbv zeta. unfold __init__, chosen_key. cbv zeta.
  assert (forall k : string, (if negb (String.eqb k "") then k else generated)
                             = (if String.eqb k "" then generated else k)) as Hk
    by (intros k; by destruct (String.eqb k "")).
  destruct key_arg as [k|]; rewrite ?Hk;
    (destruct (Fernet_new _) as [f|]; [|by left]);
    right; unfold setup_dirs; cbv zeta; fold (key_name t); fold (key_file t);
    case_bool_decide; [left|right|left|right]; by exists f.
Qed.

(** A construction that fails writes nothing.  It fails with
    [ValueError] when the cipher rejects the key, which is checked first,
    and with [PermissionError] when the key file cannot be opened. *)
Theorem init_failure_writes_nothing (key_arg : option string) (generated : string)
    (t : datetime) (fs fs' : FS) (e : exn) :
  __init__ key_arg generated t fs = (Raise e, fs') ->
  fs' = fs
  /\ ((e = ValueError /\ Fernet_new (chosen_key key_arg generated) = None)
      \/ (e = PermissionError /\ (key_file t ∈ denied fs)
          /\ is_Some (Fernet_new (chosen_key key_arg generated)))).
Proof.
  intros Hinit.
  destruct (init_cases key_arg generated t fs)
    as [(Hnew & Heq)|[(f & Hnew & Hden & Heq)|(f & Hnew & Hden & Heq)]];
    rewrite Heq in Hinit; injection Hinit as <- <- || discriminate Hinit.
  - split; [done|]. by left.
  - split; [done|]. right. by rewrite Hnew.
Qed.

Lemma init_Ok (key_arg : option string) (generated : string) (t : datetime)
    (fs fs' : FS) (self : SecureLogger) :
  __init__ key_arg generated t fs = (Ok self, fs') ->
  key self = chosen_key key_arg generated
  /\ Fernet_new (key self) = Some (fernet_ self)
  /\ (key_file t ∉ denied fs)
  /\ fs' = mkFS (raw fs) (encrypted fs) (<[key_name t := key self]> (keys fs)) (denied fs).
Proof.
  intros Hinit.
  destruct (init_cases key_arg generated t fs)
    as [(Hnew & Heq)|[(f & Hnew & Hden & Heq)|(f & Hnew & Hden & Heq)]];
    rewrite Heq in Hinit; [discriminate Hinit..|].
  injection Hinit as <- <-. done.
Qed.

(** The key a logger returns by [get_encryption_key] reopens its logs: a
    logger constructed from it, at any time and on any store where the
    key file can be written, is the same logger, with the same key and
    the same cipher, and so reads every partition as the first one does.
    The cipher is assumed to reject the empty key. *)
Theorem key_rebuilds_logger (key_arg : option string) (generated generated' : string)
    (t t' : datetime) (fs fs1 fs2 : FS) (self : SecureLogger) :
  Fernet_new "" = None ->
  __init__ key_arg generated t fs = (Ok self, fs1) ->
  key_file t' ∉ denied fs2 ->
  exists fs3,
    __init__ (Some (get_encryption_key self)) generated' t' fs2 = (Ok self, fs3)
    /\ keys fs3 !! key_name t' = Some (get_encryption_key self).
Proof.
  intros Hempty Hinit Hopen. apply init_Ok in Hinit as (_ & Hnew & _ & _).
  unfold get_encryption_key.
  assert (chosen_key (Some (key self)) generated' = key self) as Hkey.
  { unfold chosen_key. destruct (String.eqb_spec (key self) "") as [Hk|]; [|done].
    rewrite Hk, Hempty in Hnew. discriminate Hnew. }
  destruct (init_cases (Some (key self)) generated' t' fs2)
    as [(Hnone & _)|[(f & _ & Hden & _)|(f & Hf & _ & Heq)]].
  - rewrite Hkey, Hnew in Hnone. discriminate Hnone.
  - done.
  - rewrite Hkey in Hf, Heq. rewrite Hnew in Hf. injection Hf as <-.
    eexists. split; [rewrite Heq; by destruct self|].
    cbn [keys]. apply lookup_insert_eq.
Qed.

Lemma key_name_inj (t1 t2 : datetime) :
  key_name t1 = key_name t2 -> strftime_stamp t1 = strftime_stamp t2.
Proof.
  unfold key_name. intros Heq. apply (app_inv_head_s "key_") in Heq.
  by apply app_inv_tail_s in Heq.
Qed.

(** Key files are named to the second and opened for writing, not for
    appending: of two loggers constructed within the same second on a
    store, only the key of the second is in the key directory afterwards,
    under the one name; constructed at different seconds, each has its key
    file. *)
Theorem later_key_replaces_earlier (key1 key2 : option string) (generated1 generated2 : string)
    (t1 t2 : datetime) (fs fs1 fs2 : FS) (self1 self2 : SecureLogger) :
  __init__ key1 generated1 t1 fs = (Ok self1, fs1) ->
  __init__ key2 generated2 t2 fs1 = (Ok self2, fs2) ->
  ([year t1; month t1; day t1; hour t1; minute t1; second t1]
   = [year t2; month t2; day t2; hour t2; minute t2; second t2] ->
   key_name t1 = key_name t2
   /\ keys fs2 = <[key_name t2 := get_encryption_key self2]> (keys fs))
  /\ (strftime_stamp t1 <> strftime_stamp t2 ->
      keys fs2 !! key_name t1 = Some (get_encryption_key self1)
      /\ keys fs2 !! key_name t2 = Some (get_encryption_key self2)).
Proof.
  intros H1 H2. apply init_Ok in H1 as (_ & _ & _ & ->), H2 as (_ & _ & _ & ->).
  cbn [keys]. unfold get_encryption_key. split.
  - intros [= Hy Hm Hd HH HM HS].
    assert (key_name t1 = key_name t2) as Hname.
    { unfold key_name, strftime_stamp. by rewrite Hy, Hm, Hd, HH, HM, HS. }
    split; [done|]. rewrite Hname. apply insert_insert_eq.
  - intros Hne. split; [|apply lookup_insert_eq].
    rewrite lookup_insert_ne; [apply lookup_insert_eq|].
    intros Heq. by apply Hne, key_name_inj.
Qed.

End Construction.

(** ** Anonymisation of any value *)

(** [_anonymize] on any value: the token is "anonymous" exactly when the
    value is falsy ([None], [False], [0], the empty text, list or
    mapping); a non-empty text gives 12 hexadecimal digits, never the
    sentinel; any other truthy value raises [AttributeError]. *)
Theorem anonymize_outcomes `{Fernet} (self : SecureLogger) (data : value) :
  (_anonymize self data = Ok "anonymous"%string <-> truthy data = false)
  /\ (forall s, data = VStr s -> s <> EmptyString ->
      exists token, _anonymize self data = Ok token
        /\ String.length token = 12%nat /\ string_forallb is_hex token = true)
  /\ (truthy data = true -> (forall s, data <> VStr s) ->
      _anonymize self data = Raise AttributeError).
Proof.
  assert (forall s, slice 0 12 (SHA256.hexdigest s) <> "anonymous"%string) as Hne.
  { intros s Heq. pose proof (token_shape s) as [Hlen _]. by rewrite Heq in Hlen. }
  split; [|split].
  - unfold _anonymize. destruct (truthy data) eqn:Ht; cbn [negb]; [|done].
    split; [|done]. destruct data; try done.
  - intros s -> Hs. exists (slice 0 12 (SHA256.hexdigest s)).
    split; [|apply token_shape].
    unfold _anonymize. cbn [truthy]. destruct (String.eqb_spec s ""); [done|].
    destruct s; done.
  - intros Ht Htext. unfold _anonymize. rewrite Ht. cbn [negb].
    destruct data; try done. by destruct (Htext s).
Qed.

(** ** What a call of [log_event] depends on and what it changes *)

Section Calls.
Context {F : Fernet} {J : Json} {R : Repr}.

(** [log_event] reads eight attributes of [user_data] and no other: two
    records that agree on them give the same outcome and the same files,
    so nothing else of a user record reaches the logs. *)
Theorem log_event_reads_eight_attributes (self : SecureLogger) (amb : ambient)
    (event_type : string) (user1 user2 : gmap string value) (content : string)
    (additional_data : option (gmap string value)) (fs : FS) :
  (forall k, k ∈ read_attributes -> user1 !! k = user2 !! k) ->
  log_event self amb event_type user1 content additional_data fs
  = log_event self amb event_type user2 content additional_data fs.
Proof.
  intros Hsame.
  assert (forall k dflt, k ∈ read_attributes -> get user1 k dflt = get user2 k dflt) as Hget.
  { intros k dflt Hk. unfold get. by rewrite Hsame. }
  unfold log_event, build_entry.
  rewrite !(Hget "id"), (Hget "username"), (Hget "first_name"), (Hget "last_name"),
    (Hget "language_code"), (Hget "is_bot"), (Hget "client"), (Hget "source");
    [done|unfold read_attributes; rewrite !elem_of_cons; auto 10..].
Qed.

(** The event id a call returns is the anonymisation token of the clock
    reading followed by [str(id)]: 12 hexadecimal digits of a hash that
    depends on nothing else, so that two events of one user at one clock
    reading have the same id. *)
Theorem event_id_is_hash_of_time_and_user (self : SecureLogger) (amb : ambient)
    (event_type : string) (user_data : gmap string value) (content : string)
    (additional_data : option (gmap string value)) (fs fs' : FS) (event_id : value) :
  log_event self amb event_type user_data content additional_data fs = (Ok event_id, fs') ->
  let text := now_timestamp amb +:+ py_str (get user_data "id" (VStr "")) in
  event_id = VStr (if String.eqb text "" then "anonymous"
                   else slice 0 12 (SHA256.hexdigest text))
  /\ (now_timestamp amb <> EmptyString ->
      exists token, event_id = VStr token
        /\ String.length token = 12%nat /\ string_forallb is_hex token = true).
Proof.
  intros Hcall. cbv zeta.
  destruct (log_event_cases self amb event_type user_data content additional_data fs)
    as [(e & _ & Heq)|(entry & Hb & [(_ & Heq)|[(_ & _ & Heq)|(_ & _ & id & Hid & Heq)]])];
    rewrite Heq in Hcall; try done.
  injection Hcall as <- <-.
  destruct (build_entry_Ok _ _ _ _ _ _ _ Hb) as (_ & _ & _ & _ & _ & token & Htok & Hid').
  rewrite Hid in Hid'. injection Hid' as ->.
  set (text := now_timestamp amb +:+ py_str (get user_data "id" (VStr ""))) in *.
  assert (token = if String.eqb text "" then "anonymous"%string
                  else slice 0 12 (SHA256.hexdigest text)) as ->.
  { unfold _anonymize in Htok. cbn [truthy] in Htok.
    destruct (String.eqb text ""); cbn [negb] in Htok; by injection Htok as <-. }
  split; [done|]. intros Hts. eexists. split; [done|].
  destruct (String.eqb_spec text "") as [Hempty|_]; [|apply token_shape].
  unfold text in Hempty. destruct (now_timestamp amb); [done|discriminate Hempty].
Qed.

Lemma extends_refl (d : gmap string string) : extends d d.
Proof. intros name. by left. Qed.

Lemma extends_appended (d : gmap string string) (name data : string) :
  extends d (appended d name data).
Proof.
  intros n. unfold appended. destruct (decide (n = name)) as [->|Hne].
  - right. exists data. by rewrite lookup_insert_eq.
  - left. by rewrite lookup_insert_ne.
Qed.

Lemma extends_trans (d1 d2 d3 : gmap string string) :
  extends d1 d2 -> extends d2 d3 -> extends d1 d3.
Proof.
  intros H12 H23 name. destruct (H23 name) as [->|(s3 & ->)]; [apply H12|].
  right. destruct (H12 name) as [->|(s2 & ->)]; [by exists s3|].
  exists (s2 +:+ s3). cbn [from_option id]. by rewrite app_assoc_s.
Qed.

(** The logs are append-only under [log_event]: whatever the outcome of a
    call, every file of the two log directories is still there and still
    begins with what it held; the key files are as they were. *)
Theorem log_event_only_appends (self : SecureLogger) (amb : ambient)
    (event_type : string) (user_data : gmap string value) (content : string)
    (additional_data : option (gmap string value)) (fs : FS) :
  let fs' := snd (log_event self amb event_type user_data content additional_data fs) in
  extends (raw fs) (raw fs') /\ extends (encrypted fs) (encrypted fs')
  /\ keys fs' = keys fs
  /\ (forall name old, raw fs !! name = Some old ->
      exists suffix, raw fs' !! name = Some (old +:+ suffix))
  /\ (forall name old, encrypted fs !! name = Some old ->
      exists suffix, encrypted fs' !! name = Some (old +:+ suffix)).
Proof.
  cbv zeta.
  assert (forall d d' : gmap string string, extends d d' ->
            forall name old, d !! name = Some old ->
              exists suffix, d' !! name = Some (old +:+ suffix)) as Hprefix.
  { intros d d' Hext name old Hold. destruct (Hext name) as [->|(s & ->)].
    - exists EmptyString. by rewrite app_nil_r_s.
    - exists s. by rewrite Hold. }
  assert (extends (raw fs)
            (raw (snd (log_event self amb event_type user_data content additional_data fs)))
          /\ extends (encrypted fs)
               (encrypted (snd (log_event self amb event_type user_data content
                                  additional_data fs)))
          /\ keys (snd (log_event self amb event_type user_data content additional_data fs))
             = keys fs) as (Hr & He & Hk).
  { destruct (log_event_cases self amb event_type user_data content additional_data fs)
      as [(e & _ & ->)|(entry & _ & [(_ & ->)|[(_ & _ & ->)|(_ & _ & id & _ & ->)]])];
      cbn [snd raw encrypted keys];
      repeat split; try apply extends_refl; try done; apply extends_appended. }
  repeat split; try done; by apply Hprefix.
Qed.

(** A call of [log_event] touches the partitions of the current day only:
    reading any other date, in either mode and with any logger, gives
    after the call what it gave before, whatever the outcome of the
    call. *)
Theorem log_event_leaves_other_dates (self reader : SecureLogger) (amb : ambient)
    (event_type : string) (user_data : gmap string value) (content : string)
    (additional_data : option (gmap string value)) (fs : FS)
    (date_str : string) (decrypt_ : bool) :
  date_str <> strftime_date (now amb) ->
  let fs' := snd (log_event self amb event_type user_data content additional_data fs) in
  raw fs' !! raw_name date_str = raw fs !! raw_name date_str
  /\ encrypted fs' !! encrypted_name date_str = encrypted fs !! encrypted_name date_str
  /\ read_logs reader date_str decrypt_ fs' = read_logs reader date_str decrypt_ fs.
Proof.
  intros Hdate. cbv zeta.
  assert (raw_name date_str <> raw_name (strftime_date (now amb))) as Hr
    by (intros Heq; by apply app_inv_tail_s in Heq).
  assert (encrypted_name date_str <> encrypted_name (strftime_date (now amb))) as He
    by (intros Heq; by apply app_inv_tail_s in Heq).
  destruct (log_event_cases self amb event_type user_data content additional_data fs)
    as [(e & _ & ->)|(entry & _ & [(_ & ->)|[(_ & _ & ->)|(_ & _ & id & _ & ->)]])];
    cbn [snd]; try done; unfold read_logs; cbn [raw encrypted denied];
    unfold written, sealed, appended; rewrite ?lookup_insert_ne by done; done.
Qed.

End Calls.

(** ** Reading what was written *)

Section ReadingBack.
Context {F : Fernet} {J : Json} {R : Repr}.

Lemma lines_of_app (l1 l2 : list string) : lines_of (l1 ++ l2) = lines_of l1 +:+ lines_of l2.
Proof.
  induction l1 as [|l l1 IH]; [done|].
  cbn [app lines_of]. by rewrite IH, !app_assoc_s.
Qed.

Lemma lines_of_empty (lines : list string) : lines_of lines = EmptyString -> lines = [].
Proof.
  destruct lines as [|l lines]; [done|]. cbn [lines_of]. intros Heq.
  apply (f_equal String.length) in Heq. rewrite length_app_s in Heq.
  cbn in Heq. lia.
Qed.

Lemma partition_of_empty (records : list string) :
  partition_of records = EmptyString -> records = [].
Proof.
  destruct records as [|r records]; [done|]. cbn [partition_of]. intros Heq.
  apply (f_equal String.length) in Heq. rewrite !length_app_s in Heq.
  cbn in Heq. lia.
Qed.

Lemma parse_lines_app (l1 l2 : list string) (logs1 : list value) :
  parse_lines l1 = Ok logs1 ->
  parse_lines (l1 ++ l2) = (logs2 <- parse_lines l2;; Ok (logs1 ++ logs2)).
Proof.
  revert logs1. induction l1 as [|l l1 IH]; intros logs1.
  - intros [= <-]. cbn [app]. by destruct (parse_lines l2).
  - cbn [app parse_lines]. destruct (negb _); [|apply IH].
    destruct (loads l) as [entry|]; [|done].
    destruct (parse_lines l1) as [logs|e] eqn:Hl1; [|done].
    intros [= <-]. rewrite (IH logs eq_refl).
    by destruct (parse_lines l2).
Qed.

(** The lines [read_logs] goes through on a redacted partition. *)
Lemma read_lines (self : SecureLogger) (date_str : string) (fs : FS) (lines : list string) :
  default EmptyString (raw fs !! raw_name date_str) = lines_of lines ->
  Forall (fun l => newline_free l = true) lines ->
  raw_file date_str ∉ denied fs ->
  read_logs self date_str false fs
  = parse_lines ((fun l => l +:+ String LF EmptyString) <$> lines).
Proof.
  intros Hfile Hlines Hopen. unfold read_logs.
  destruct (raw fs !! raw_name date_str) as [c|]; cbn [from_option id] in Hfile.
  - rewrite bool_decide_eq_false_2 by done. subst c. by rewrite text_lines_of.
  - symmetry in Hfile. apply lines_of_empty in Hfile. by subst lines.
Qed.

(** The records [read_logs] goes through on an encrypted partition. *)
Lemma read_records (self : SecureLogger) (date_str : string) (fs : FS)
    (records : list string) :
  default EmptyString (encrypted fs !! encrypted_name date_str) = partition_of records ->
  Forall (fun r => framed r = true) records ->
  encrypted_file date_str ∉ denied fs ->
  read_logs self date_str true fs = Ok (omap (decode_record self) records).
Proof.
  intros Hfile Hframed Hopen.
  destruct (encrypted fs !! encrypted_name date_str) as [c|] eqn:Hc;
    cbn [from_option id] in Hfile.
  - subst c. by apply read_partition.
  - symmetry in Hfile. apply partition_of_empty in Hfile. subst records.
    unfold read_logs. by rewrite Hc.
Qed.


Context {FL : FernetLaws F} {JL : JsonLaws J}.

Lemma dumps_line_visible (b : bool) (v : value) :
  str_strip (dumps b v +:+ String LF EmptyString) <> EmptyString.
Proof.
  apply str_strip_nonempty.
  destruct (dumps_visible b v) as (a & s & -> & Hlo & Hhi).
  cbn [String.append string_forallb]. unfold is_visible.
  assert ((33 <=? byte_of a) && (byte_of a <? 127) = true) as ->; [|done].
  apply andb_true_iff. split; [by apply Z.leb_le|by apply Z.ltb_lt].
Qed.

(** What the redacted stream reads as after a call that returned. *)
Lemma redacted_read_back (self : SecureLogger) (amb : ambient)
    (entry : gmap string value) (fs : FS) (lines : list string) (logs : list value) :
  let date_str := strftime_date (now amb) in
  let fs' := mkFS (written amb entry fs) (sealed self amb entry fs) (keys fs) (denied fs) in
  default EmptyString (raw fs !! raw_name date_str) = lines_of lines ->
  Forall (fun l => newline_free l = true) lines ->
  raw_file date_str ∉ denied fs ->
  read_logs self date_str false fs = Ok logs ->
  raw fs' !! raw_name date_str
    = Some (lines_of (lines ++ [dumps false (VDict (safe_log_entry entry))]))
  /\ read_logs self date_str false fs' = Ok (logs ++ [VDict (safe_log_entry entry)]).
Proof.
  intros date_str fs' Hfile Hlines Hopen Hread.
  assert (raw fs' !! raw_name date_str
          = Some (lines_of (lines ++ [dumps false (VDict (safe_log_entry entry))]))) as Hnew.
  { unfold fs', written, appended. cbn [raw]. fold date_str.
    rewrite lookup_insert_eq, Hfile, lines_of_app. cbn [lines_of].
    by rewrite app_nil_r_s. }
  split; [exact Hnew|].
  rewrite (read_lines self date_str fs lines) in Hread by done.
  rewrite (read_lines self date_str fs'
             (lines ++ [dumps false (VDict (safe_log_entry entry))])).
  - rewrite fmap_app, (parse_lines_app _ _ logs Hread).
    cbn [fmap list_fmap parse_lines].
    destruct (String.eqb_spec
                (str_strip (dumps false (VDict (safe_log_entry entry)) +:+ String LF EmptyString))
                "") as [Hblank|_]; [by apply dumps_line_visible in Hblank|].
    cbn [negb]. by rewrite loads_dumps_line.
  - by rewrite Hnew.
  - apply Forall_app. split; [done|]. constructor; [apply dumps_one_line|done].
  - done.
Qed.

(** What the encrypted stream reads as after a call that returned. *)
Lemma encrypted_read_back (self : SecureLogger) (amb : ambient)
    (entry : gmap string value) (fs : FS) (records : list string) (logs : list value) :
  let date_str := strftime_date (now amb) in
  let fs' := mkFS (written amb entry fs) (sealed self amb entry fs) (keys fs) (denied fs) in
  let record := encrypt (fernet_ self) (fresh_record amb) (dumps false (VDict entry)) in
  default EmptyString (encrypted fs !! encrypted_name date_str) = partition_of records ->
  Forall (fun r => framed r = true) records ->
  encrypted_file date_str ∉ denied fs ->
  read_logs self date_str true fs = Ok logs ->
  encrypted fs' !! encrypted_name date_str = Some (partition_of (records ++ [record]))
  /\ framed record = true
  /\ read_logs self date_str true fs' = Ok (logs ++ [VDict entry]).
Proof.
  intros date_str fs' record Hfile Hframed Hopen Hread.
  assert (framed record = true) as Hrec by apply token_framed, encrypt_alphabet.
  assert (encrypted fs' !! encrypted_name date_str
          = Some (partition_of (records ++ [record]))) as Hnew.
  { unfold fs', sealed, appended. cbn [encrypted]. fold date_str.
    rewrite lookup_insert_eq, Hfile, partition_of_app. cbn [partition_of].
    by rewrite app_nil_r_s. }
  split; [exact Hnew|]. split; [exact Hrec|].
  rewrite (read_records self date_str fs records) in Hread by done.
  injection Hread as <-.
  rewrite (read_records self date_str fs' (records ++ [record])).
  - rewrite omap_app. cbn [omap list_omap]. unfold record.
    by rewrite decode_record_token.
  - by rewrite Hnew.
  - apply Forall_app. split; [done|]. by constructor.
  - done.
Qed.

(** On a redacted partition made of lines, a call of [log_event] that
    returns adds one entry to what [read_logs] returns with
    [decrypt=False]: the redacted copy of the entry, which carries the
    event id the call returned and no payload. *)
Theorem log_event_redacted_read_back (self : SecureLogger) (amb : ambient)
    (event_type : string) (user_data : gmap string value) (content : string)
    (additional_data : option (gmap string value)) (fs fs' : FS)
    (event_id : value) (lines : list string) (logs : list value) :
  default EmptyString (raw fs !! raw_name (strftime_date (now amb))) = lines_of lines ->
  Forall (fun l => newline_free l = true) lines ->
  read_logs self (strftime_date (now amb)) false fs = Ok logs ->
  log_event self amb event_type user_data content additional_data fs = (Ok event_id, fs') ->
  exists redacted_entry : gmap string value,
    read_logs self (strftime_date (now amb)) false fs' = Ok (logs ++ [VDict redacted_entry])
    /\ redacted_entry !! "event_id"%string = Some event_id
    /\ redacted_entry !! "event_type"%string = Some (VStr event_type)
    /\ redacted_entry !! "content"%string = None
    /\ redacted_entry !! "additional_data"%string = None.
Proof.
  intros Hfile Hlines Hread Hcall.
  destruct (log_event_cases self amb event_type user_data content additional_data fs)
    as [(e & _ & Heq)|(entry & Hb & [(_ & Heq)|[(_ & _ & Heq)|(Hopen & _ & id & Hid & Heq)]])];
    rewrite Heq in Hcall; try done.
  injection Hcall as <- <-.
  destruct (redacted_read_back self amb entry fs lines logs Hfile Hlines Hopen Hread)
    as [_ Hnew].
  exists (safe_log_entry entry). split; [exact Hnew|].
  destruct (safe_log_entry_payload entry) as [Hc Ha].
  rewrite !safe_log_entry_other by done. repeat split; try done.
  unfold build_entry in Hb. repeat (apply rbind_Ok in Hb as (? & _ & Hb)).
  injection Hb as <-. by entry_lookup.
Qed.

(** The two streams stay in step.  Partitions that do not exist yet are
    mirrored, with no entry; a call of [log_event] that returns on
    mirrored partitions of the day leaves them mirrored, with the new
    entry at the end, which carries the event id returned; and a call on
    another day leaves them as they are, whatever its outcome. *)
Theorem streams_stay_mirrored (self : SecureLogger) (amb : ambient)
    (event_type : string) (user_data : gmap string value) (content : string)
    (additional_data : option (gmap string value)) (fs : FS) (date_str : string)
    (entries : list (gmap string value)) :
  let res := log_event self amb event_type user_data content additional_data fs in
  (raw fs !! raw_name date_str = None -> encrypted fs !! encrypted_name date_str = None ->
   mirrored self date_str fs [])
  /\ (mirrored self date_str fs entries -> date_str = strftime_date (now amb) ->
      forall event_id, fst res = Ok event_id ->
      exists entry, mirrored self date_str (snd res) (entries ++ [entry])
        /\ entry !! "event_id"%string = Some event_id)
  /\ (mirrored self date_str fs entries -> date_str <> strftime_date (now amb) ->
      mirrored self date_str (snd res) entries).
Proof.
  cbv zeta. split; [|split].
  - intros Hr He. unfold mirrored, read_logs. rewrite Hr, He.
    split; [by exists []|]. split; [by exists []|]. done.
  - intros ((lines & Hfile & Hlines) & (records & Hpart & Hframed) & Hraw & Henc) -> eid Hcall.
    destruct (log_event_cases self amb event_type user_data content additional_data fs)
      as [(e & _ & Heq)|(entry & Hb & [(_ & Heq)|[(_ & _ & Heq)|(Hor & Hoe & eid' & Hid & Heq)]])];
      rewrite Heq in Hcall |- *; try done.
    cbn [fst snd] in *. injection Hcall as ->.
    destruct (redacted_read_back self amb entry fs lines _ Hfile Hlines Hor Hraw)
      as [Hr1 Hr2].
    destruct (encrypted_read_back self amb entry fs records _ Hpart Hframed Hoe Henc)
      as (He1 & He2 & He3).
    exists entry. split; [|done]. unfold mirrored. rewrite Hr1, He1, Hr2, He3.
    cbn [from_option id]. rewrite !fmap_app. cbn [fmap list_fmap].
    split; [|split; [|done]].
    + eexists. split; [done|]. apply Forall_app. split; [done|].
      constructor; [apply dumps_one_line|done].
    + eexists. split; [done|]. apply Forall_app. split; [done|]. by constructor.
  - intros Hm Hdate. unfold mirrored in *.
    assert (raw_name date_str <> raw_name (strftime_date (now amb))) as Hr
      by (intros Heq; by apply app_inv_tail_s in Heq).
    assert (encrypted_name date_str <> encrypted_name (strftime_date (now amb))) as He
      by (intros Heq; by apply app_inv_tail_s in Heq).
    destruct (log_event_cases self amb event_type user_data content additional_data fs)
      as [(e & _ & ->)|(entry & _ & [(_ & ->)|[(_ & _ & ->)|(_ & _ & eid & _ & ->)]])];
      cbn [snd]; try done; unfold read_logs in *; cbn [raw encrypted denied];
      unfold written, sealed, appended; rewrite ?lookup_insert_ne by done; done.
Qed.

End ReadingBack.

(** ** More on retention *)

Lemma cutoff_Ok (t : datetime) (days : Z) (cutoff_date : datetime) :
  cutoff t days = Ok cutoff_date ->
  (-999999999 <= days <= 999999999 /\ 1 <= toordinal t - days <= _MAXORDINAL)
  /\ toordinal cutoff_date = toordinal t - days
  /\ time_fields cutoff_date = time_fields t
  /\ valid_date cutoff_date.
Proof.
  unfold cutoff, timedelta_days, datetime_sub, _MAXORDINAL.
  destruct ((-999999999 <=? days) && _) eqn:Hdays; [|done]. cbn [rbind].
  destruct ((0 <? toordinal t - days) && _) eqn:Hrange; [|done].
  bool_to_Z.
  pose proof (ord2ymd_ok (toordinal t - days) ltac:(lia)) as Hord.
  destruct (_ord2ymd (toordinal t - days)) as [[y m] d].
  destruct Hord as (Hm & Hd & Hord). intros [= <-].
  unfold toordinal, time_fields, valid_date in *.
  cbn [year month day hour minute second microsecond]. repeat split; lia || done.
Qed.

Lemma cutoff_Raise (t : datetime) (days : Z) (e : exn) :
  cutoff t days = Raise e ->
  e = OverflowError
  /\ ~ (-999999999 <= days <= 999999999 /\ 1 <= toordinal t - days <= _MAXORDINAL).
Proof.
  unfold cutoff, timedelta_days, datetime_sub, _MAXORDINAL.
  destruct ((-999999999 <=? days) && _) eqn:Hdays; cbn [rbind].
  - destruct ((0 <? toordinal t - days) && _) eqn:Hrange.
    + by destruct (_ord2ymd (toordinal t - days)) as [[y m] d].
    + intros [= <-]. split; [done|]. bool_to_Z; lia.
  - intros [= <-]. split; [done|]. bool_to_Z; lia.
Qed.

(** The cutoff of a purge.  When [days] is within the range of a
    [timedelta] and the day [days] days before the call is a day of the
    calendar (years 1 to 9999), the cutoff is that day at the time of day
    of the call.  Otherwise [cleanup_old_logs] raises [OverflowError] and
    removes nothing. *)
Theorem cutoff_outcomes (t : datetime) (days : Z) :
  let in_range :=
    -999999999 <= days <= 999999999 /\ 1 <= toordinal t - days <= _MAXORDINAL in
  (in_range ->
   exists cutoff_date,
     cutoff t days = Ok cutoff_date
     /\ toordinal cutoff_date = toordinal t - days
     /\ time_fields cutoff_date = time_fields t
     /\ valid_date cutoff_date)
  /\ (~ in_range ->
      cutoff t days = Raise OverflowError
      /\ forall fs, cleanup_old_logs t days fs = (Raise OverflowError, fs)).
Proof.
  cbv zeta. destruct (cutoff t days) as [c|e] eqn:Hcut.
  - apply cutoff_Ok in Hcut as (Hrange & Hc). split; [|done]. intros _. by exists c.
  - pose proof Hcut as Hcut'. apply cutoff_Raise in Hcut' as (-> & Hout).
    split; [done|]. intros _. split; [done|]. intros fs.
    unfold cleanup_old_logs. by rewrite Hcut.
Qed.

(** Whatever the loop over a log directory does, a file it leaves is as it
    was, and a file it removes is expired. *)
Lemma purge_logs_safe (suffix : string) (cutoff_date : datetime) (names : list string)
    (d : gmap string string) (name : string) :
  snd (purge_logs suffix cutoff_date names d) !! name = d !! name
  \/ (snd (purge_logs suffix cutoff_date names d) !! name = None
      /\ expired (log_date suffix) cutoff_date name = true).
Proof.
  revert d. induction names as [|n names IH]; intros d; [by left|].
  cbn [purge_logs]. destruct (endswith suffix n) eqn:Hsuf; [|apply IH].
  destruct (strptime_date (hd EmptyString (split "." n))) as [file_date|] eqn:Hdate;
    [|by left].
  destruct (datetime_lt file_date cutoff_date) eqn:Hlt; [|apply IH].
  destruct (decide (name = n)) as [->|Hne].
  - right. split.
    + destruct (IH (delete n d)) as [->|[-> _]]; [apply lookup_delete_eq|done].
    + unfold expired, log_date. by rewrite Hsuf, Hdate.
  - destruct (IH (delete n d)) as [Hsame|Hgone]; [|by right].
    left. by rewrite Hsame, lookup_delete_ne.
Qed.

(** The same of the whole purge, whatever its outcome. *)
Lemma cleanup_safe (t : datetime) (days : Z) (fs : FS) :
  let fs' := snd (cleanup_old_logs t days fs) in
  denied fs' = denied fs
  /\ (forall name, raw fs' !! name = raw fs !! name
        \/ (raw fs' !! name = None
            /\ exists c, cutoff t days = Ok c
                 /\ expired (log_date ".ndjson") c name = true))
  /\ (forall name, encrypted fs' !! name = encrypted fs !! name
        \/ (encrypted fs' !! name = None
            /\ exists c, cutoff t days = Ok c
                 /\ expired (log_date ".enc") c name = true))
  /\ (forall name, keys fs' !! name = keys fs !! name
        \/ (keys fs' !! name = None
            /\ exists c, cutoff t days = Ok c /\ expired key_date c name = true)).
Proof.
  cbv zeta. unfold cleanup_old_logs. destruct (cutoff t days) as [c|e] eqn:Hcut;
    [|by repeat split; intros; left].
  pose proof (purge_logs_safe ".ndjson" c (listdir (raw fs)) (raw fs)) as Hr.
  pose proof (purge_logs_safe ".enc" c (listdir (encrypted fs)) (encrypted fs)) as He.
  destruct (purge_logs ".ndjson" c (listdir (raw fs)) (raw fs)) as [[[]|e1] raw'];
    cbn [snd] in Hr.
  - destruct (purge_logs ".enc" c (listdir (encrypted fs)) (encrypted fs))
      as [[[]|e2] enc']; cbn [snd raw encrypted keys denied] in *.
    + split; [done|]. split; [|split].
      * intros name. destruct (Hr name) as [?|[? ?]]; [by left|right; eauto].
      * intros name. destruct (He name) as [?|[? ?]]; [by left|right; eauto].
      * intros name. rewrite purge_keys_spec.
        destruct (bool_decide _ && expired key_date c name) eqn:Hb; [|by left].
        apply andb_true_iff in Hb as [_ Hb]. right; eauto.
    + split; [done|]. split; [|split].
      * intros name. destruct (Hr name) as [?|[? ?]]; [by left|right; eauto].
      * intros name. destruct (He name) as [?|[? ?]]; [by left|right; eauto].
      * intros name. by left.
  - cbn [snd raw encrypted keys denied]. split; [done|]. split; [|split].
    + intros name. destruct (Hr name) as [?|[? ?]]; [by left|right; eauto].
    + intros name. by left.
    + intros name. by left.
Qed.

(** What a purge never does: whatever its outcome, also when it stops on
    an exception, it creates no file and changes none, and a file it
    removes has a name that carries a date before the cutoff.  A file of
    [logs/raw] whose name does not end in [.ndjson], one of
    [logs/encrypted] not in [.enc], and a file of [logs/keys] whose name
    is not [key_] followed by a date and time and [.key], stay. *)
Theorem cleanup_only_removes_expired (t : datetime) (days : Z) (fs : FS) :
  let fs' := snd (cleanup_old_logs t days fs) in
  let removed (date_of : string -> option datetime) (name : string) : Prop :=
    exists cutoff_date file_date,
      cutoff t days = Ok cutoff_date /\ date_of name = Some file_date
      /\ datetime_lt file_date cutoff_date = true in
  denied fs' = denied fs
  /\ (forall name, raw fs' !! name = raw fs !! name
        \/ (raw fs' !! name = None /\ removed (log_date ".ndjson") name))
  /\ (forall name, encrypted fs' !! name = encrypted fs !! name
        \/ (encrypted fs' !! name = None /\ removed (log_date ".enc") name))
  /\ (forall name, keys fs' !! name = keys fs !! name
        \/ (keys fs' !! name = None /\ removed key_date name))
  /\ (forall name, endswith ".ndjson" name = false -> raw fs' !! name = raw fs !! name)
  /\ (forall name, endswith ".enc" name = false ->
      encrypted fs' !! name = encrypted fs !! name)
  /\ (forall name, key_date name = None -> keys fs' !! name = keys fs !! name).
Proof.
  cbv zeta.
  assert (forall date_of cutoff_date name,
            cutoff t days = Ok cutoff_date -> expired date_of cutoff_date name = true ->
            exists c file_date, cutoff t days = Ok c /\ date_of name = Some file_date
                                /\ datetime_lt file_date c = true) as Hexp.
  { intros date_of c name Hcut. unfold expired.
    destruct (date_of name) as [file_date|]; [|done]. intros Hlt. by exists c, file_date. }
  destruct (cleanup_safe t days fs) as (Hd & Hr & He & Hk).
  split; [exact Hd|].
  split; [|split; [|split; [|split; [|split]]]].
  - intros name. destruct (Hr name) as [?|(? & c & Hc & Hx)]; [by left|right; eauto].
  - intros name. destruct (He name) as [?|(? & c & Hc & Hx)]; [by left|right; eauto].
  - intros name. destruct (Hk name) as [?|(? & c & Hc & Hx)]; [by left|right; eauto].
  - intros name Hsuf. destruct (Hr name) as [?|(_ & c & _ & Hx)]; [done|].
    unfold expired, log_date in Hx. by rewrite Hsuf in Hx.
  - intros name Hsuf. destruct (He name) as [?|(_ & c & _ & Hx)]; [done|].
    unfold expired, log_date in Hx. by rewrite Hsuf in Hx.
  - intros name Hnone. destruct (Hk name) as [?|(_ & c & _ & Hx)]; [done|].
    unfold expired in Hx. by rewrite Hnone in Hx.
Qed.

(** A loop over a log directory that completes has met dated names only. *)
Lemma purge_logs_Ok (suffix : string) (cutoff_date : datetime) (names : list string)
    (d d' : gmap string string) :
  purge_logs suffix cutoff_date names d = (Ok tt, d') ->
  Forall (fun n => undated_log suffix n = false) names.
Proof.
  revert d. induction names as [|n names IH]; intros d; [done|].
  cbn [purge_logs]. unfold undated_log at 1.
  destruct (endswith suffix n) eqn:Hsuf.
  - destruct (strptime_date (hd EmptyString (split "." n))) as [file_date|] eqn:Hdate;
      [|done].
    destruct (datetime_lt file_date cutoff_date); intros Hrun; constructor;
      try (by rewrite ?Hsuf, ?Hdate); by eapply IH.
  - intros Hrun. constructor; [by rewrite Hsuf|by eapply IH].
Qed.

Lemma cleanup_Ok (t : datetime) (days : Z) (fs fs' : FS) :
  cleanup_old_logs t days fs = (Ok tt, fs') ->
  exists cutoff_date,
    cutoff t days = Ok cutoff_date
    /\ (forall name, is_Some (raw fs !! name) -> undated_log ".ndjson" name = false)
    /\ (forall name, is_Some (encrypted fs !! name) -> undated_log ".enc" name = false).
Proof.
  unfold cleanup_old_logs. destruct (cutoff t days) as [c|e]; [|done].
  destruct (purge_logs ".ndjson" c _ _) as [[[]|e1] raw'] eqn:Hr; [|done].
  destruct (purge_logs ".enc" c _ _) as [[[]|e2] enc'] eqn:He; [|done].
  intros _. exists c. split; [done|].
  apply purge_logs_Ok in Hr, He. rewrite Forall_forall in Hr, He.
  split; intros name Hname; [apply Hr|apply He]; by apply elem_of_listdir.
Qed.

(** A purge that completed has nothing left to do: run again at the same
    time with the same [days], it completes and leaves every file. *)
Theorem cleanup_is_idempotent (t : datetime) (days : Z) (fs fs' : FS) :
  cleanup_old_logs t days fs = (Ok tt, fs') ->
  cleanup_old_logs t days fs' = (Ok tt, fs').
Proof.
  intros Hrun. destruct (cleanup_Ok _ _ _ _ Hrun) as (c & Hcut & Hraw & Henc).
  destruct (cleanup_spec t days fs c Hcut Hraw Henc) as (fs1 & Hrun1 & Hr1 & He1 & Hk1 & Hd1).
  rewrite Hrun in Hrun1. injection Hrun1 as <-.
  destruct (cleanup_spec t days fs' c Hcut) as (fs2 & Hrun2 & Hr2 & He2 & Hk2 & Hd2).
  - intros name. rewrite Hr1. destruct (expired _ c name); [by intros [? ?]|apply Hraw].
  - intros name. rewrite He1. destruct (expired _ c name); [by intros [? ?]|apply Henc].
  - rewrite Hrun2. f_equal. destruct fs2 as [r2 e2 k2 d2], fs' as [r' e' k' d'].
    cbn [raw encrypted keys denied] in *. f_equal; [apply map_eq; intros name..|done].
    + rewrite Hr2, Hr1. by destruct (expired _ c name).
    + rewrite He2, He1. by destruct (expired _ c name).
    + rewrite Hk2, Hk1. by destruct (expired _ c name).
Qed.

(** ** Parsing back the names the logger writes *)

Lemma byte_of_digit (n : Z) : byte_of (digit_char n) = 48 + n mod 10.
Proof.
  pose proof (Z.mod_pos_bound n 10 ltac:(lia)).
  unfold digit_char, byte_of. rewrite N_ascii_embedding by lia. lia.
Qed.

Lemma digit_not (n : Z) (a : ascii) :
  byte_of a < 48 \/ 57 < byte_of a -> Ascii.eqb (digit_char n) a = false.
Proof.
  intros Ha. apply Ascii.eqb_neq. intros Heq.
  pose proof (byte_of_digit n) as Hn. rewrite Heq in Hn.
  pose proof (Z.mod_pos_bound n 10 ltac:(lia)). lia.
Qed.

(** The first match of an expression, in backtracking order. *)
Lemma first_Cat (r1 r2 : regex) (s s1 s2 : string) (c1 c2 : list (string * string)) :
  head (rmatch r1 s) = Some (c1, s1) -> head (rmatch r2 s1) = Some (c2, s2) ->
  head (rmatch (Cat r1 r2) s) = Some (c1 ++ c2, s2).
Proof.
  cbn [rmatch]. destruct (rmatch r1 s) as [|m1 l1]; [done|]. intros [= ->].
  cbn [flat_map fst snd]. destruct (rmatch r2 s1) as [|m2 l2]; [done|]. by intros [= ->].
Qed.

Lemma substring_prefix (p k : string) : String.substring 0 (String.length p) (p +:+ k) = p.
Proof.
  induction p as [|a p IH]; [by destruct k|]. cbn. by rewrite IH.
Qed.

Lemma first_Group (name : string) (r : regex) (p k : string) (c : list (string * string)) :
  head (rmatch r (p +:+ k)) = Some (c, k) ->
  head (rmatch (Group name r) (p +:+ k)) = Some ((name, p) :: c, k).
Proof.
  cbn [rmatch]. destruct (rmatch r (p +:+ k)) as [|m l]; [done|]. intros [= ->].
  cbn [map head fst snd]. rewrite length_app_s, Nat.add_sub. by rewrite substring_prefix.
Qed.

Lemma first_Lit (c : ascii) (k : string) : head (rmatch (Lit c) (String c k)) = Some ([], k).
Proof. cbn [rmatch]. by rewrite Ascii.eqb_refl. Qed.

Lemma decode1_digit (n : Z) (k : string) :
  decode1 (String (digit_char n) k) = Some (48 + n mod 10, k).
Proof.
  pose proof (Z.mod_pos_bound n 10 ltac:(lia)).
  unfold decode1. rewrite byte_of_digit.
  assert ((48 + n mod 10 <? 128) = true) as ->; [by apply Z.ltb_lt; lia|done].
Qed.

Lemma digit_value_ascii (v : Z) : 0 <= v < 10 -> digit_value (48 + v) = Some v.
Proof.
  intros Hv. unfold digit_value, digit_zeros. cbn [List.find].
  assert ((48 <=? 48 + v) && (48 + v <? 48 + 10) = true) as ->.
  { apply andb_true_iff. split; [apply Z.leb_le|apply Z.ltb_lt]; lia. }
  f_equal. lia.
Qed.

Lemma first_digit (n : Z) (k : string) :
  head (rmatch re_digit (String (digit_char n) k)) = Some ([], k).
Proof.
  unfold re_digit. cbn [rmatch]. rewrite decode1_digit.
  by rewrite digit_value_ascii by (apply Z.mod_pos_bound; lia).
Qed.

Lemma first_Y (y : Z) (k : string) :
  head (rmatch re_Y (pad4 y k)) = Some ([("Y"%string, pad4 y EmptyString)], k).
Proof.
  change (pad4 y k) with (pad4 y EmptyString +:+ k).
  apply first_Group. cbn [pad4 pad2 String.append].
  repeat (eapply (first_Cat _ _ _ _ _ [] []); [apply first_digit|]).
  apply first_digit.
Qed.

Lemma first_m (m : Z) (k : string) :
  1 <= m <= 12 ->
  head (rmatch re_m (pad2 m k)) = Some ([("m"%string, pad2 m EmptyString)], k).
Proof.
  intros Hm. change (pad2 m k) with (pad2 m EmptyString +:+ k).
  apply first_Group. revert m Hm. intros m Hm.
  assert (1 <= m < 1 + Z.of_nat 12) as Hm' by lia. revert m Hm' Hm.
  apply (range_cases (fun m => 1 <= m <= 12 -> _) 1 12). repeat constructor.
Qed.

Lemma first_d (d : Z) (k : string) :
  1 <= d <= 31 ->
  head (rmatch re_d (pad2 d k)) = Some ([("d"%string, pad2 d EmptyString)], k).
Proof.
  intros Hd. change (pad2 d k) with (pad2 d EmptyString +:+ k).
  apply first_Group.
  assert (1 <= d < 1 + Z.of_nat 31) as Hd' by lia. revert d Hd' Hd.
  apply (range_cases (fun d => 1 <= d <= 31 -> _) 1 31). repeat constructor.
Qed.

Lemma first_H (h : Z) (k : string) :
  0 <= h <= 23 ->
  head (rmatch re_H (pad2 h k)) = Some ([("H"%string, pad2 h EmptyString)], k).
Proof.
  intros Hh. change (pad2 h k) with (pad2 h EmptyString +:+ k).
  apply first_Group.
  assert (0 <= h < 0 + Z.of_nat 24) as Hh' by lia. revert h Hh' Hh.
  apply (range_cases (fun h => 0 <= h <= 23 -> _) 0 24). repeat constructor.
Qed.

Lemma first_M (m : Z) (k : string) :
  0 <= m <= 59 ->
  head (rmatch re_M (pad2 m k)) = Some ([("M"%string, pad2 m EmptyString)], k).
Proof.
  intros Hm. change (pad2 m k) with (pad2 m EmptyString +:+ k).
  apply first_Group.
  assert (0 <= m < 0 + Z.of_nat 60) as Hm' by lia. revert m Hm' Hm.
  apply (range_cases (fun m => 0 <= m <= 59 -> _) 0 60). repeat constructor.
Qed.

Lemma first_S (s : Z) (k : string) :
  0 <= s <= 59 ->
  head (rmatch re_S (pad2 s k)) = Some ([("S"%string, pad2 s EmptyString)], k).
Proof.
  intros Hs. change (pad2 s k) with (pad2 s EmptyString +:+ k).
  apply first_Group.
  assert (0 <= s < 0 + Z.of_nat 60) as Hs' by lia. revert s Hs' Hs.
  apply (range_cases (fun s => 0 <= s <= 59 -> _) 0 60). repeat constructor.
Qed.

Lemma int_go_digit (fuel : nat) (acc n : Z) (s : string) :
  int_go (S fuel) acc (String (digit_char n) s) = int_go fuel (10 * acc + n mod 10) s.
Proof.
  cbn [int_go]. rewrite decode1_digit.
  by rewrite digit_value_ascii by (apply Z.mod_pos_bound; lia).
Qed.

Lemma int_of_pad2 (n : Z) : 0 <= n <= 99 -> int_of (pad2 n EmptyString) = n.
Proof.
  intros Hn. unfold int_of, pad2. cbn [String.length]. rewrite !int_go_digit. cbn [int_go].
  Z.div_mod_to_equations. lia.
Qed.

Lemma int_of_pad4 (n : Z) : 0 <= n <= 9999 -> int_of (pad4 n EmptyString) = n.
Proof.
  intros Hn. unfold int_of, pad4, pad2. cbn [String.length]. rewrite !int_go_digit.
  cbn [int_go]. Z.div_mod_to_equations. lia.
Qed.

Lemma days_in_month_le (y m : Z) : _days_in_month y m <= 31.
Proof.
  unfold _days_in_month, _DAYS_IN_MONTH.
  destruct ((m =? 2) && _is_leap y); [lia|].
  destruct (m =? 2); [lia|]. destruct (_ || _); lia.
Qed.

Lemma datetime_new_clock (t : datetime) :
  clock_reading t ->
  datetime_new (year t) (month t) (day t) (hour t) (minute t) (second t) = Some (to_second t)
  /\ datetime_new (year t) (month t) (day t) 0 0 0 = Some (midnight t).
Proof.
  intros (Hy & (Hm & Hd) & HH & HM & HS & _). unfold datetime_new.
  assert ((1 <=? year t) && (year t <=? 9999) && (1 <=? month t) && (month t <=? 12)
          && (1 <=? day t) && (day t <=? _days_in_month (year t) (month t)) = true) as Hdate.
  { repeat (apply andb_true_iff; split); apply Z.leb_le; lia. }
  rewrite Hdate. cbn [andb]. split; [|done].
  assert ((0 <=? hour t) && (hour t <=? 23) && (0 <=? minute t) && (minute t <=? 59)
          && (0 <=? second t) && (second t <=? 59) = true) as Htime.
  { repeat (apply andb_true_iff; split); apply Z.leb_le; lia. }
  rewrite <- !andb_assoc in Htime |- *. cbn [andb] in *. by rewrite Htime.
Qed.

Lemma strptime_first (format : regex) (has_time : bool) (s : string)
    (found : list (string * string)) :
  head (rmatch format s) = Some (found, EmptyString) ->
  strptime format has_time s
  = if has_time
    then datetime_new (int_of (group "Y" found)) (int_of (group "m" found))
           (int_of (group "d" found)) (int_of (group "H" found))
           (int_of (group "M" found)) (int_of (group "S" found))
    else datetime_new (int_of (group "Y" found)) (int_of (group "m" found))
           (int_of (group "d" found)) 0 0 0.
Proof.
  unfold strptime. destruct (rmatch format s) as [|m l]; [done|]. by intros [= ->].
Qed.

(** [strptime] reads back what [strftime] printed. *)
Lemma strptime_strftime_date (t : datetime) :
  clock_reading t -> strptime_date (strftime_date t) = Some (midnight t).
Proof.
  intros Ht. pose proof Ht as (Hy & (Hm & Hd) & _).
  pose proof (days_in_month_le (year t) (month t)) as Hle.
  unfold strptime_date, strftime_date, re_date.
  erewrite strptime_first; last first.
  { eapply first_Cat; [apply first_Y|].
    eapply first_Cat; [apply first_Lit|].
    eapply first_Cat; [apply first_m; lia|].
    eapply first_Cat; [apply first_Lit|]. apply first_d. lia. }
  cbn [app group String.eqb Ascii.eqb Bool.eqb].
  rewrite int_of_pad4, !int_of_pad2 by lia. by apply datetime_new_clock.
Qed.

Lemma strptime_strftime_stamp (t : datetime) :
  clock_reading t -> strptime_stamp (strftime_stamp t) = Some (to_second t).
Proof.
  intros Ht. pose proof Ht as (Hy & (Hm & Hd) & HH & HM & HS & _).
  pose proof (days_in_month_le (year t) (month t)) as Hle.
  unfold strptime_stamp, strftime_stamp, re_stamp.
  erewrite strptime_first; last first.
  { eapply first_Cat; [apply first_Y|].
    eapply first_Cat; [apply first_m; lia|].
    eapply first_Cat; [apply first_d; lia|].
    eapply first_Cat; [apply first_Lit|].
    eapply first_Cat; [apply first_H; lia|].
    eapply first_Cat; [apply first_M; lia|]. apply first_S. lia. }
  cbn [app group String.eqb Ascii.eqb Bool.eqb].
  rewrite int_of_pad4, !int_of_pad2 by lia. by apply datetime_new_clock.
Qed.

Lemma endswith_app (suffix s : string) : endswith suffix (s +:+ suffix) = true.
Proof. unfold endswith. rewrite rev_app_s. apply prefix_app_s. Qed.

Lemma substring_skip (p s : string) (n : nat) :
  String.substring (String.length p) n (p +:+ s) = String.substring 0 n s.
Proof. induction p as [|a p IH]; [done|]. cbn. apply IH. Qed.

(** In the name of a log file the date ends at the first dot. *)
Lemma log_date_first_dot (suffix d rest : string) :
  string_forallb (fun c => negb (Ascii.eqb c ".")) d = true ->
  endswith suffix (d +:+ String "." rest) = true ->
  log_date suffix (d +:+ String "." rest) = strptime_date d.
Proof.
  intros Hd Hsuf. unfold log_date. rewrite Hsuf. unfold split.
  change (String "." rest) with ("." +:+ rest).
  rewrite split_go_framed; [done|done|].
  by apply sep_free_no_head.
Qed.

Lemma strftime_date_dot_free (t : datetime) :
  string_forallb (fun c => negb (Ascii.eqb c ".")) (strftime_date t) = true.
Proof.
  unfold strftime_date, pad4, pad2. cbn [string_forallb].
  rewrite !digit_not by (change (byte_of ".") with 46; lia). done.
Qed.

Lemma log_date_written (ext : string) (t : datetime) :
  clock_reading t ->
  log_date (String "." ext) (strftime_date t +:+ String "." ext) = Some (midnight t).
Proof.
  intros Ht. rewrite log_date_first_dot.
  - by apply strptime_strftime_date.
  - apply strftime_date_dot_free.
  - apply endswith_app.
Qed.

Lemma key_date_written (t : datetime) :
  clock_reading t -> key_date (key_name t) = Some (to_second t).
Proof.
  intros Ht. unfold key_date, key_name, startswith.
  rewrite prefix_app_s. rewrite <- app_assoc_s, endswith_app. cbn [andb].
  unfold slice. rewrite app_assoc_s, !length_app_s.
  change (String.length "key_") with 4%nat. change (String.length ".key") with 4%nat.
  replace (4 + (String.length (strftime_stamp t) + 4) - 4 - 4)%nat
    with (String.length (strftime_stamp t)) by lia.
  rewrite (substring_skip "key_"), substring_prefix.
  by apply strptime_strftime_stamp.
Qed.

Lemma dated_not_undated (suffix name : string) (t : datetime) :
  log_date suffix name = Some t -> undated_log suffix name = false.
Proof.
  unfold log_date, undated_log. destruct (endswith suffix name); [|done]. by intros ->.
Qed.

Lemma log_date_raw_name (t : datetime) :
  clock_reading t -> log_date ".ndjson" (raw_name (strftime_date t)) = Some (midnight t).
Proof. intros Ht. unfold raw_name. exact (log_date_written "ndjson" t Ht). Qed.

Lemma log_date_encrypted_name (t : datetime) :
  clock_reading t -> log_date ".enc" (encrypted_name (strftime_date t)) = Some (midnight t).
Proof. intros Ht. unfold encrypted_name. exact (log_date_written "enc" t Ht). Qed.

(** The names the logger gives its files are the ones the purge
    understands: for a clock reading [t], [strptime] reads back the date
    that [_save_log] puts in the names of the two partitions, as the day
    of [t] at midnight, and the date and time that [setup_dirs] puts in
    the name of the key file, as [t] to the second. *)
Theorem written_names_are_dated (t : datetime) :
  clock_reading t ->
  strptime_date (strftime_date t) = Some (midnight t)
  /\ strptime_stamp (strftime_stamp t) = Some (to_second t)
  /\ log_date ".ndjson" (raw_name (strftime_date t)) = Some (midnight t)
  /\ log_date ".enc" (encrypted_name (strftime_date t)) = Some (midnight t)
  /\ key_date (key_name t) = Some (to_second t)
  /\ undated_log ".ndjson" (raw_name (strftime_date t)) = false
  /\ undated_log ".enc" (encrypted_name (strftime_date t)) = false.
Proof.
  intros Ht.
  split; [by apply strptime_strftime_date|]. split; [by apply strptime_strftime_stamp|].
  split; [by apply log_date_raw_name|]. split; [by apply log_date_encrypted_name|].
  split; [by apply key_date_written|].
  split.
  - eapply dated_not_undated. by apply log_date_raw_name.
  - eapply dated_not_undated. by apply log_date_encrypted_name.
Qed.

Lemma log_date_copy (suffix middle : string) (t : datetime) :
  clock_reading t ->
  log_date suffix (strftime_date t +:+ "." +:+ middle +:+ suffix) = Some (midnight t).
Proof.
  intros Ht. change ("." +:+ middle +:+ suffix) with (String "." (middle +:+ suffix)).
  rewrite log_date_first_dot.
  - by apply strptime_strftime_date.
  - apply strftime_date_dot_free.
  - change (String "." (middle +:+ suffix)) with ("." +:+ middle +:+ suffix).
    rewrite <- !app_assoc_s. apply endswith_app.
Qed.

(** ** The purge and the files of the logger *)

Lemma log_date_midnight (suffix name : string) (file_date : datetime) :
  log_date suffix name = Some file_date -> time_fields file_date = [0; 0; 0; 0].
Proof.
  unfold log_date, strptime_date, strptime. destruct (endswith suffix name); [|done].
  destruct (rmatch re_date _) as [|[found [|? ?]] ?]; try done.
  unfold datetime_new. destruct (_ && _); [|done]. by intros [= <-].
Qed.

(** A file dated after the day of the cutoff is not expired. *)
Lemma recent_not_expired (date_of : string -> option datetime) (t : datetime) (days : Z)
    (c file_date : datetime) (name : string) :
  cutoff t days = Ok c -> valid_date file_date -> date_of name = Some file_date ->
  toordinal t - days < toordinal file_date ->
  expired date_of c name = false.
Proof.
  intros Hcut Hvalid Hdate Hrecent.
  rewrite (expired_by_age date_of t days c file_date name Hcut Hvalid Hdate).
  by apply precedes_newer.
Qed.

Lemma clock_reading_valid (t : datetime) :
  clock_reading t -> valid_date (midnight t) /\ valid_date (to_second t).
Proof. by intros (_ & Hv & _). Qed.

(** Files dated after the day of the cutoff survive a purge, whatever its
    outcome, in the three directories.  In particular, with [days] at
    least 1, the two partitions of the day of the call and the key file
    of a logger constructed at the time of the call are kept. *)
Theorem recent_files_survive (t : datetime) (days : Z) (fs : FS) :
  let fs' := snd (cleanup_old_logs t days fs) in
  (forall name file_date,
     log_date ".ndjson" name = Some file_date -> toordinal t - days < toordinal file_date ->
     raw fs' !! name = raw fs !! name)
  /\ (forall name file_date,
        log_date ".enc" name = Some file_date -> toordinal t - days < toordinal file_date ->
        encrypted fs' !! name = encrypted fs !! name)
  /\ (forall name file_date,
        key_date name = Some file_date -> toordinal t - days < toordinal file_date ->
        keys fs' !! name = keys fs !! name)
  /\ (clock_reading t -> 1 <= days ->
      raw fs' !! raw_name (strftime_date t) = raw fs !! raw_name (strftime_date t)
      /\ encrypted fs' !! encrypted_name (strftime_date t)
         = encrypted fs !! encrypted_name (strftime_date t)
      /\ keys fs' !! key_name t = keys fs !! key_name t).
Proof.
  cbv zeta. destruct (cleanup_safe t days fs) as (_ & Hr & He & Hk).
  assert (forall name file_date,
            log_date ".ndjson" name = Some file_date ->
            toordinal t - days < toordinal file_date ->
            raw (snd (cleanup_old_logs t days fs)) !! name = raw fs !! name) as Hraw.
  { intros name file_date Hdate Hrecent.
    destruct (Hr name) as [?|(_ & c & Hcut & Hx)]; [done|].
    rewrite (recent_not_expired _ t days c file_date) in Hx; try done.
    by eapply log_date_valid. }
  assert (forall name file_date,
            log_date ".enc" name = Some file_date ->
            toordinal t - days < toordinal file_date ->
            encrypted (snd (cleanup_old_logs t days fs)) !! name = encrypted fs !! name)
    as Henc.
  { intros name file_date Hdate Hrecent.
    destruct (He name) as [?|(_ & c & Hcut & Hx)]; [done|].
    rewrite (recent_not_expired _ t days c file_date) in Hx; try done.
    by eapply log_date_valid. }
  assert (forall name file_date,
            key_date name = Some file_date ->
            toordinal t - days < toordinal file_date ->
            keys (snd (cleanup_old_logs t days fs)) !! name = keys fs !! name) as Hkeys.
  { intros name file_date Hdate Hrecent.
    destruct (Hk name) as [?|(_ & c & Hcut & Hx)]; [done|].
    rewrite (recent_not_expired _ t days c file_date) in Hx; try done.
    by eapply key_date_valid. }
  split; [exact Hraw|]. split; [exact Henc|]. split; [exact Hkeys|].
  intros Ht Hdays.
  assert (toordinal t - days < toordinal (midnight t)) as Hm by (unfold toordinal; cbn; lia).
  assert (toordinal t - days < toordinal (to_second t)) as Hs by (unfold toordinal; cbn; lia).
  split; [|split].
  - by apply (Hraw _ (midnight t)); [apply log_date_raw_name|].
  - by apply (Henc _ (midnight t)); [apply log_date_encrypted_name|].
  - by apply (Hkeys _ (to_second t)); [apply key_date_written|].
Qed.

Lemma after_midnight (t : datetime) :
  0 <= hour t -> 0 <= minute t -> 0 <= second t -> 0 <= microsecond t ->
  lex_lt [0; 0; 0; 0] (time_fields t)
  = negb ((hour t =? 0) && (minute t =? 0) && (second t =? 0) && (microsecond t =? 0)).
Proof.
  intros HH HM HS Hu. unfold time_fields. cbn [lex_lt].
  destruct (Z.ltb_spec 0 (hour t)), (Z.eqb_spec 0 (hour t)), (Z.eqb_spec (hour t) 0),
    (Z.ltb_spec 0 (minute t)), (Z.eqb_spec 0 (minute t)), (Z.eqb_spec (minute t) 0),
    (Z.ltb_spec 0 (second t)), (Z.eqb_spec 0 (second t)), (Z.eqb_spec (second t) 0),
    (Z.ltb_spec 0 (microsecond t)), (Z.eqb_spec (microsecond t) 0);
    cbn [andb orb negb]; try done; lia.
Qed.

(** The day of the cutoff itself.  In a purge that completes, a log file
    dated exactly [days] days before the call is removed unless the call
    is made at midnight sharp.  So a purge with [days = 0] removes the
    two partitions of the current day. *)
Theorem cutoff_day_is_removed (t : datetime) (days : Z) (fs fs' : FS) :
  cleanup_old_logs t days fs = (Ok tt, fs') ->
  0 <= hour t -> 0 <= minute t -> 0 <= second t -> 0 <= microsecond t ->
  let at_midnight :=
    (hour t =? 0) && (minute t =? 0) && (second t =? 0) && (microsecond t =? 0) in
  (forall name file_date,
     log_date ".ndjson" name = Some file_date -> toordinal file_date = toordinal t - days ->
     raw fs' !! name = if at_midnight then raw fs !! name else None)
  /\ (forall name file_date,
        log_date ".enc" name = Some file_date -> toordinal file_date = toordinal t - days ->
        encrypted fs' !! name = if at_midnight then encrypted fs !! name else None)
  /\ (days = 0 -> clock_reading t -> at_midnight = false ->
      raw fs' !! raw_name (strftime_date t) = None
      /\ encrypted fs' !! encrypted_name (strftime_date t) = None).
Proof.
  intros Hrun HH HM HS Hu. cbv zeta.
  destruct (cleanup_Ok _ _ _ _ Hrun) as (c & Hcut & Hraw & Henc).
  destruct (cleanup_spec t days fs c Hcut Hraw Henc) as (fs1 & Hrun1 & Hr & He & _).
  rewrite Hrun in Hrun1. injection Hrun1 as <-.
  assert (forall suffix name file_date,
            log_date suffix name = Some file_date ->
            toordinal file_date = toordinal t - days ->
            expired (log_date suffix) c name
            = negb ((hour t =? 0) && (minute t =? 0) && (second t =? 0)
                    && (microsecond t =? 0))) as Hexp.
  { intros suffix name file_date Hdate Hord.
    rewrite (expired_by_age _ t days c file_date name Hcut) by
      (done || by eapply log_date_valid).
    unfold precedes. rewrite Hord, Z.ltb_irrefl, Z.eqb_refl. cbn [orb andb].
    rewrite (log_date_midnight _ _ _ Hdate). by apply after_midnight. }
  split; [|split].
  - intros name file_date Hdate Hord. rewrite Hr, (Hexp _ _ _ Hdate Hord).
    by destruct (_ && _).
  - intros name file_date Hdate Hord. rewrite He, (Hexp _ _ _ Hdate Hord).
    by destruct (_ && _).
  - intros -> Ht Hlate.
    assert (toordinal (midnight t) = toordinal t - 0) as Hord
      by (unfold toordinal; cbn; lia).
    rewrite Hr, He.
    rewrite (Hexp _ _ _ (log_date_raw_name t Ht) Hord).
    rewrite (Hexp _ _ _ (log_date_encrypted_name t Ht) Hord).
    by rewrite Hlate.
Qed.

(** The purge can remove the key of a logger and keep what it encrypted:
    when a purge completes, the key file written by a logger constructed
    more than [days] days before is gone, while an encrypted partition
    written less than [days] days before is kept and reads as before. *)
Theorem purge_removes_old_key_keeps_recent_logs (t0 t1 t : datetime) (days : Z)
    (fs fs' : FS) :
  clock_reading t0 -> clock_reading t1 ->
  toordinal t0 < toordinal t - days -> toordinal t - days < toordinal t1 ->
  cleanup_old_logs t days fs = (Ok tt, fs') ->
  keys fs' !! key_name t0 = None
  /\ encrypted fs' !! encrypted_name (strftime_date t1)
     = encrypted fs !! encrypted_name (strftime_date t1)
  /\ forall `{Fernet} `{Json} (self : SecureLogger),
       read_logs self (strftime_date t1) true fs' = read_logs self (strftime_date t1) true fs.
Proof.
  intros Ht0 Ht1 Hold Hrecent Hrun.
  destruct (cleanup_Ok _ _ _ _ Hrun) as (c & Hcut & Hraw & Henc).
  destruct (cleanup_spec t days fs c Hcut Hraw Henc) as (fs1 & Hrun1 & _ & He & Hk & Hd).
  rewrite Hrun in Hrun1. injection Hrun1 as <-.
  assert (encrypted fs' !! encrypted_name (strftime_date t1)
          = encrypted fs !! encrypted_name (strftime_date t1)) as Hkept.
  { rewrite He, (recent_not_expired _ t days c (midnight t1)); try done.
    - by apply clock_reading_valid.
    - by apply log_date_encrypted_name. }
  split; [|split; [exact Hkept|]].
  - rewrite Hk, (expired_by_age _ t days c (to_second t0) _ Hcut).
    + by rewrite precedes_older.
    + by apply clock_reading_valid.
    + by apply key_date_written.
  - intros F J self. unfold read_logs. by rewrite Hkept, Hd.
Qed.

(** The purge reads the date of a log file from what precedes the first
    dot of its name and looks at nothing between that dot and the
    suffix.  So a copy kept beside a partition under its name with
    anything put before the suffix carries the date of the partition, and
    a purge that completes removes it once that date is more than [days]
    days old. *)
Theorem copies_are_purged_like_partitions (t t0 : datetime) (days : Z) (fs fs' : FS)
    (middle : string) :
  clock_reading t0 ->
  cleanup_old_logs t days fs = (Ok tt, fs') ->
  log_date ".ndjson" (strftime_date t0 +:+ "." +:+ middle +:+ ".ndjson")
    = Some (midnight t0)
  /\ log_date ".enc" (strftime_date t0 +:+ "." +:+ middle +:+ ".enc") = Some (midnight t0)
  /\ (toordinal t0 < toordinal t - days ->
      raw fs' !! (strftime_date t0 +:+ "." +:+ middle +:+ ".ndjson") = None
      /\ encrypted fs' !! (strftime_date t0 +:+ "." +:+ middle +:+ ".enc") = None).
Proof.
  intros Ht0 Hrun.
  pose proof (log_date_copy ".ndjson" middle t0 Ht0) as Hr0.
  pose proof (log_date_copy ".enc" middle t0 Ht0) as He0.
  split; [exact Hr0|]. split; [exact He0|]. intros Hold.
  destruct (cleanup_Ok _ _ _ _ Hrun) as (c & Hcut & Hraw & Henc).
  destruct (cleanup_spec t days fs c Hcut Hraw Henc) as (fs1 & Hrun1 & Hr & He & _).
  rewrite Hrun in Hrun1. injection Hrun1 as <-.
  rewrite Hr, He.
  rewrite (expired_by_age _ t days c (midnight t0) _ Hcut (proj1 (clock_reading_valid t0 Ht0)) Hr0).
  rewrite (expired_by_age _ t days c (midnight t0) _ Hcut (proj1 (clock_reading_valid t0 Ht0)) He0).
  by rewrite precedes_older.
Qed.

Section OwnFiles.
Context {F : Fernet} {J : Json} {R : Repr}.

(** A store whose log directories the logger alone has written can always
    be purged.  That the log directories hold partitions named by
    [_save_log] only is true of empty directories and is kept by
    [SecureLogger(...)], by [log_event] at a clock reading, and by
    [cleanup_old_logs], whatever their outcome; and on such a store
    [cleanup_old_logs] raises nothing but the [OverflowError] of a cutoff
    out of range, which leaves the store as it is. *)
Theorem own_files_can_be_purged (fs : FS) :
  (raw fs = ∅ -> encrypted fs = ∅ -> own_files fs)
  /\ (own_files fs ->
      (forall key_arg generated t, own_files (snd (__init__ key_arg generated t fs)))
      /\ (forall self amb event_type user_data content additional_data,
            clock_reading (now amb) ->
            own_files (snd (log_event self amb event_type user_data content
                              additional_data fs)))
      /\ (forall t days, own_files (snd (cleanup_old_logs t days fs)))
      /\ (forall t days,
            (exists fs', cleanup_old_logs t days fs = (Ok tt, fs'))
            \/ cleanup_old_logs t days fs = (Raise OverflowError, fs))).
Proof.
  split.
  - intros Hr He. unfold own_files. rewrite Hr, He.
    split; intros name [? Hname]; by rewrite lookup_empty in Hname.
  - intros [Hraw Henc]. split; [|split; [|split]].
    + intros key_arg generated t.
      destruct (init_cases key_arg generated t fs)
        as [(_ & ->)|[(f & _ & _ & ->)|(f & _ & _ & ->)]]; by split.
    + intros self amb event_type user_data content additional_data Hnow.
      assert (forall (d : gmap string string) name n data,
                is_Some (appended d n data !! name) -> name = n \/ is_Some (d !! name))
        as Happ.
      { intros d name n data. unfold appended. destruct (decide (name = n)) as [->|Hne];
          [by left|]. rewrite lookup_insert_ne by done. by right. }
      destruct (log_event_cases self amb event_type user_data content additional_data fs)
        as [(e & _ & ->)|(entry & _ & [(_ & ->)|[(_ & _ & ->)|(_ & _ & eid & _ & ->)]])];
        cbn [snd]; try done; split; cbn [raw encrypted]; try done;
        unfold written, sealed; intros name Hname;
        apply Happ in Hname as [->|Hname]; eauto.
    + intros t days. destruct (cleanup_safe t days fs) as (_ & Hr & He & _).
      split; intros name Hname.
      * apply Hraw. destruct (Hr name) as [<-|[Hnone _]]; [done|].
        rewrite Hnone in Hname. by destruct Hname.
      * apply Henc. destruct (He name) as [<-|[Hnone _]]; [done|].
        rewrite Hnone in Hname. by destruct Hname.
    + intros t days. destruct (cutoff t days) as [c|e] eqn:Hcut.
      * left. destruct (cleanup_spec t days fs c Hcut) as (fs' & Hrun & _).
        -- intros name Hname. destruct (Hraw name Hname) as (t' & Ht' & ->).
           eapply dated_not_undated. by apply log_date_raw_name.
        -- intros name Hname. destruct (Henc name Hname) as (t' & Ht' & ->).
           eapply dated_not_undated. by apply log_date_encrypted_name.
        -- by exists fs'.
      * right. pose proof Hcut as Hcut'. apply cutoff_Raise in Hcut' as [-> _].
        unfold cleanup_old_logs. by rewrite Hcut.
Qed.

End OwnFiles.

(** ** The further statements on the sample inputs *)

Section MoreSamples.
#[local] Existing Instance Ref.ref_fernet.
#[local] Existing Instance Ref.ref_json.
#[local] Existing Instance Ref.ref_repr.
Import Sample.

Ltac clock := unfold clock_reading, valid_date; vm_compute; repeat split; discriminate.

Lemma today_clock : clock_reading today.
Proof. clock. Qed.

Lemma init_failure_writes_nothing_witness :
  snd (__init__ (Some "secret"%string) key_a today fs_empty) = fs_empty.
Proof.
  destruct (init_failure_writes_nothing (Some "secret"%string) key_a today fs_empty
              (snd (__init__ (Some "secret"%string) key_a today fs_empty)) ValueError)
    as [Hsame _].
  - apply pair_of_fst. reflexivity.
  - exact Hsame.
Defined.

Lemma key_rebuilds_logger_witness :
  exists fs3,
    __init__ (Some (get_encryption_key logger)) key_b today fs_empty = (Ok logger, fs3)
    /\ keys fs3 !! key_name today = Some (get_encryption_key logger).
Proof.
  apply (key_rebuilds_logger (Some key_a) "" key_b today today fs_empty
           (snd (__init__ (Some key_a) "" today fs_empty)) fs_empty logger).
  - reflexivity.
  - apply pair_of_fst. reflexivity.
  - apply not_elem_of_empty.
Defined.

Lemma later_key_replaces_earlier_witness :
  keys (snd (__init__ (Some key_b) "" (Datetime 2026 11 3 9 5 7 500)
               (snd (__init__ (Some key_a) "" today fs_empty))))
  = <[key_name (Datetime 2026 11 3 9 5 7 500) := key_b]> ∅.
Proof.
  destruct (later_key_replaces_earlier (Some key_a) (Some key_b) "" ""
              today (Datetime 2026 11 3 9 5 7 500) fs_empty
              (snd (__init__ (Some key_a) "" today fs_empty))
              (snd (__init__ (Some key_b) "" (Datetime 2026 11 3 9 5 7 500)
                      (snd (__init__ (Some key_a) "" today fs_empty))))
              logger (@mkLogger Ref.ref_fernet key_b key_b)) as [Hsame _].
  - apply pair_of_fst. reflexivity.
  - apply pair_of_fst. reflexivity.
  - destruct (Hsame eq_refl) as [_ Hkeys]. exact Hkeys.
Defined.

Lemma anonymize_outcomes_witness :
  _anonymize logger (VInt 0) = Ok "anonymous"%string
  /\ _anonymize logger (VInt 5) = Raise AttributeError.
Proof.
  split.
  - destruct (anonymize_outcomes logger (VInt 0)) as ([_ Hfalsy] & _).
    apply Hfalsy. reflexivity.
  - destruct (anonymize_outcomes logger (VInt 5)) as (_ & _ & Hother).
    apply Hother; [reflexivity|discriminate].
Defined.

Lemma log_event_reads_eight_attributes_witness :
  log_event logger amb "message" (<["phone" := VStr "555 0100"]> user) "hello" None fs_empty
  = log_event logger amb "message" user "hello" None fs_empty.
Proof.
  apply log_event_reads_eight_attributes. intros k Hk.
  apply lookup_insert_ne. intros <-.
  unfold read_attributes in Hk. rewrite !elem_of_cons in Hk.
  destruct Hk as [Hk|[Hk|[Hk|[Hk|[Hk|[Hk|[Hk|[Hk|Hk]]]]]]]];
    try discriminate Hk. by apply not_elem_of_nil in Hk.
Defined.

Lemma event_id_is_hash_of_time_and_user_witness :
  exists token,
    fst (log_event logger amb "message" user "hello" None fs_empty) = Ok (VStr token)
    /\ String.length token = 12%nat.
Proof.
  destruct (event_id_is_hash_of_time_and_user logger amb "message" user "hello" None fs_empty
              (snd (log_event logger amb "message" user "hello" None fs_empty))
              (VStr "129caeb12ce2")) as [_ Hshape].
  - apply pair_of_fst. vm_compute. reflexivity.
  - destruct (Hshape ltac:(discriminate)) as (token & Heq & Hlen & _).
    exists token. split; [|exact Hlen]. injection Heq as <-. vm_compute. reflexivity.
Defined.

Lemma log_event_only_appends_witness :
  exists suffix,
    encrypted (snd (log_event logger amb "message" user "hello" None fs_corrupted))
      !! "2026-11-03.enc"%string
    = Some (partition_of [encrypt key_a "iv-1" (dumps false (VInt 1));
                          "corrupted"%string;
                          encrypt key_a "iv-3" (dumps false (VInt 2))] +:+ suffix).
Proof.
  destruct (log_event_only_appends logger amb "message" user "hello" None fs_corrupted)
    as (_ & _ & _ & _ & Henc).
  apply Henc. reflexivity.
Defined.

Lemma log_event_leaves_other_dates_witness :
  read_logs logger "2026-11-03" true
    (snd (log_event logger
            (mkAmbient "2026-11-04T08:05:07" "1793783107.5" (Datetime 2026 11 4 9 5 7 0)
               "iv-4" "iv-5" "iv-6")
            "message" user "hello" None fs_corrupted))
  = read_logs logger "2026-11-03" true fs_corrupted.
Proof.
  apply log_event_leaves_other_dates. intros Heq. vm_compute in Heq. discriminate Heq.
Defined.


Lemma log_event_redacted_read_back_witness :
  exists redacted_entry : gmap string value,
    read_logs logger "2026-11-03" false
      (snd (log_event logger amb "message" user "hello" (Some extra) fs_empty))
    = Ok [VDict redacted_entry]
    /\ redacted_entry !! "event_id"%string = Some (VStr "129caeb12ce2")
    /\ redacted_entry !! "content"%string = None.
Proof.
  destruct (@log_event_redacted_read_back Ref.ref_fernet Ref.ref_json Ref.ref_repr
              ref_json_laws logger amb "message" user "hello" (Some extra) fs_empty
              (snd (log_event logger amb "message" user "hello" (Some extra) fs_empty))
              (VStr "129caeb12ce2") [] [])
    as (entry & Hread & Hid & _ & Hcontent & _).
  - reflexivity.
  - constructor.
  - reflexivity.
  - apply pair_of_fst. vm_compute. reflexivity.
  - exists entry. split; [exact Hread|]. split; [exact Hid|exact Hcontent].
Defined.

Lemma streams_stay_mirrored_witness :
  exists entry,
    mirrored logger "2026-11-03"
      (snd (log_event logger amb "message" user "hello" (Some extra) fs_empty)) [entry]
    /\ entry !! "event_id"%string = Some (VStr "129caeb12ce2").
Proof.
  destruct (@streams_stay_mirrored Ref.ref_fernet Ref.ref_json Ref.ref_repr
              ref_fernet_laws ref_json_laws logger amb "message" user "hello" (Some extra)
              fs_empty "2026-11-03" []) as (Hnew & Hstep & _).
  apply (Hstep (Hnew eq_refl eq_refl) eq_refl).
  vm_compute. reflexivity.
Defined.

Lemma cutoff_outcomes_witness :
  cutoff today 30 = Ok (Datetime 2026 10 4 9 5 7 0)
  /\ cleanup_old_logs today 800000 fs_aged = (Raise OverflowError, fs_aged).
Proof.
  destruct (cutoff_outcomes today 800000) as [_ Hout].
  split; [reflexivity|]. apply Hout.
  intros [_ [Hlow _]]. revert Hlow. vm_compute. intros Hlow. by apply Hlow.
Defined.

Lemma cleanup_only_removes_expired_witness :
  keys (snd (cleanup_old_logs today 30
               (mkFS ∅ ∅ (<["master.key" := key_a]> ∅) ∅))) !! "master.key"%string
  = Some key_a.
Proof.
  destruct (cleanup_only_removes_expired today 30
              (mkFS ∅ ∅ (<["master.key" := key_a]> ∅) ∅)) as (_ & _ & _ & _ & _ & _ & Hk).
  rewrite Hk by reflexivity. reflexivity.
Defined.

Lemma cleanup_is_idempotent_witness :
  cleanup_old_logs today 30 (snd (cleanup_old_logs today 30 fs_aged))
  = (Ok tt, snd (cleanup_old_logs today 30 fs_aged)).
Proof.
  apply (cleanup_is_idempotent today 30 fs_aged). apply pair_of_fst. vm_compute. reflexivity.
Defined.

Lemma written_names_are_dated_witness :
  log_date ".ndjson" "2026-11-03.ndjson" = Some (Datetime 2026 11 3 0 0 0 0)
  /\ key_date "key_20261103_090507.key" = Some today.
Proof.
  destruct (written_names_are_dated today today_clock) as (_ & _ & Hraw & _ & Hkey & _).
  split; [exact Hraw|exact Hkey].
Defined.

Lemma copies_are_purged_like_partitions_witness :
  raw (snd (cleanup_old_logs today 30
              (mkFS (<["2026-09-19.copy.ndjson" := "old"]> ∅) ∅ ∅ ∅)))
    !! "2026-09-19.copy.ndjson"%string = None.
Proof.
  destruct (copies_are_purged_like_partitions today (Datetime 2026 9 19 0 0 0 0) 30
              (mkFS (<["2026-09-19.copy.ndjson" := "old"]> ∅) ∅ ∅ ∅)
              (snd (cleanup_old_logs today 30
                      (mkFS (<["2026-09-19.copy.ndjson" := "old"]> ∅) ∅ ∅ ∅)))
              "copy") as (_ & _ & Hgone).
  - clock.
  - apply pair_of_fst. vm_compute. reflexivity.
  - destruct Hgone as [Hraw _]; [vm_compute; reflexivity|exact Hraw].
Defined.

Lemma recent_files_survive_witness :
  raw (snd (cleanup_old_logs today 30 fs_aged)) !! "2026-10-29.ndjson"%string
  = Some "new"%string.
Proof.
  destruct (recent_files_survive today 30 fs_aged) as (Hraw & _).
  rewrite (Hraw "2026-10-29.ndjson"%string (Datetime 2026 10 29 0 0 0 0));
    [reflexivity|vm_compute; reflexivity|vm_compute; reflexivity].
Defined.

Lemma cutoff_day_is_removed_witness :
  encrypted (snd (cleanup_old_logs today 0 fs_corrupted)) !! "2026-11-03.enc"%string = None.
Proof.
  destruct (cutoff_day_is_removed today 0 fs_corrupted
              (snd (cleanup_old_logs today 0 fs_corrupted))) as (_ & _ & Htoday);
    [apply pair_of_fst; vm_compute; reflexivity|vm_compute; discriminate..|].
  destruct (Htoday eq_refl today_clock eq_refl) as [_ Henc]. exact Henc.
Defined.

Lemma own_files_can_be_purged_witness :
  own_files (snd (log_event logger amb "message" user "hello" None fs_empty))
  /\ exists fs',
       cleanup_old_logs today 30
         (snd (log_event logger amb "message" user "hello" None fs_empty)) = (Ok tt, fs').
Proof.
  destruct (own_files_can_be_purged (R := Ref.ref_repr) fs_empty) as [Hempty Hkeep].
  destruct (Hkeep (Hempty eq_refl eq_refl)) as (_ & Hlog & _).
  pose proof (Hlog logger amb "message"%string user "hello"%string None today_clock) as Hown.
  split; [exact Hown|].
  destruct (own_files_can_be_purged (R := Ref.ref_repr)
              (snd (log_event logger amb "message" user "hello" None fs_empty)))
    as [_ Hkeep'].
  destruct (Hkeep' Hown) as (_ & _ & _ & Hpurge).
  destruct (Hpurge today 30) as [Hok|Hbad]; [exact Hok|].
  apply (f_equal fst) in Hbad. vm_compute in Hbad. discriminate Hbad.
Defined.

Lemma purge_removes_old_key_keeps_recent_logs_witness :
  keys (snd (cleanup_old_logs today 30 fs_aged)) !! "key_20260919_090507.key"%string = None
  /\ encrypted (snd (cleanup_old_logs today 30 fs_aged)) !! "2026-10-29.enc"%string
     = Some "new"%string.
Proof.
  destruct (purge_removes_old_key_keeps_recent_logs
              (Datetime 2026 9 19 9 5 7 0) (Datetime 2026 10 29 0 0 0 0) today 30 fs_aged
              (snd (cleanup_old_logs today 30 fs_aged)))
    as (Hkey & Henc & _); [clock|clock|vm_compute; reflexivity..| |].
  - apply pair_of_fst. vm_compute. reflexivity.
  - split; [exact Hkey|].
    transitivity (encrypted fs_aged !! "2026-10-29.enc"%string); [exact Henc|reflexivity].
Defined.

End MoreSamples.
